(** * BezerraRP administration back end: the in-memory storage service

    A shallow embedding of [server/storage.ts] (class [MemStorage]) over the
    record shapes of [shared/schema.ts], and the properties of the storage
    layer that the specification states.

    Modelling conventions
    - A JavaScript [Map<string, V>] iterates in insertion order; [set] on a
      key that is present replaces the value in place, [delete] reports
      whether the key was present.  It is modelled as an association list in
      insertion order ([JsMap]).
    - A [Date] object is its time value: epoch milliseconds, or [NaN] for an
      Invalid Date ([Date]).  The dates that a caller hands in
      ([scheduledDate], [issueDate]) are [Date]s: the routes build them with
      [new Date(req.body...)], which is an Invalid Date for a missing or
      malformed string.  [createdAt] and [deliveredAt] are only ever written
      from [new Date()] and from the sample rows, so they are a plain epoch
      value, a [Z].  [number] values that the code uses as integers
      ([orderCounter], [limit]) are [Z]; increments are exact for a JS number
      below 2^53, which the model does not bound.  A [number] that a
      comparator returns is [option Z], [None] standing for [NaN].
    - An optional property of an insert shape is [option] ([None]: the key
      is absent); an optional and nullable one is [js] ([undefined], [null]
      or a value).  A patch ([Partial<...>]) carries a key or not.  A request
      body is JSON and cannot carry [undefined]; the one key that a caller
      passes with the value [undefined] is the [scheduledDate] that PATCH
      /api/deliveries/:id adds to every patch, so that key is modelled with
      its [undefined] value as well ([PatchDelivery.scheduledDate]).
    - [randomUUID()], [new Date()], the local calendar ([setHours],
      [setDate], [new Date(y, m, 1)]), [parseFloat] and
      [Array.prototype.sort] belong to the host runtime, not to the
      repository: they are the fields of [Host].
    - The methods are [async] but never suspend between their reads and
      writes; a method is a state transformer on [World]. *)

From Stdlib Require Import List String ZArith Bool Arith Lia.
From Stdlib Require Import Sorted Permutation.
From Stdlib Require Import Ascii DecimalString.
Import ListNotations.

Local Open Scope string_scope.
Local Open Scope list_scope.
Local Open Scope Z_scope.

(** ** JavaScript values *)

(** An optional, nullable property. *)
Inductive js (A : Type) : Type :=
| undefined : js A
| null : js A
| val : A -> js A.
Arguments undefined {A}.
Arguments null {A}.
Arguments val {A} _.

(** [x || null] on a string property: [undefined], [null] and the empty
    string are falsy. *)
Definition orNull (x : js string) : option string :=
  match x with
  | val s => if String.eqb s "" then None else Some s
  | _ => None
  end.

(** [x || d] on an optional string property. *)
Definition orElse (x : option string) (d : string) : string :=
  match x with
  | Some s => if String.eqb s "" then d else s
  | None => d
  end.

(** Object spread of one patch key over a stored property. *)
Definition over {A : Type} (patch : option A) (old : A) : A :=
  match patch with Some a => a | None => old end.

(** Object spread of one patch key over a stored property that may be
    missing. *)
Definition overO {A : Type} (patch : option A) (old : option A) : option A :=
  match patch with Some a => Some a | None => old end.

(** Object spread of one nullable patch key over a stored nullable property. *)
Definition overN {A : Type} (patch : js A) (old : option A) : option A :=
  match patch with
  | undefined => old
  | null => None
  | val a => Some a
  end.

(** Object spread of a nullable key over a property that may be absent. *)
Definition overJ {A : Type} (patch : js A) (old : js A) : js A :=
  match patch with
  | undefined => old
  | _ => patch
  end.

(** [Array.prototype.slice(0, end)] for an integer [end]: a negative [end]
    counts from the back of the array. *)
Definition slice0 {A : Type} (l : list A) (e : Z) : list A :=
  if e <? 0
  then firstn (Z.to_nat (Z.max (Z.of_nat (List.length l) + e) 0)) l
  else firstn (Z.to_nat (Z.min e (Z.of_nat (List.length l)))) l.

(** A [Date] object: its time value in epoch milliseconds, or an Invalid
    Date, whose time value is [NaN]. *)
Inductive Date : Type :=
| dateAt (t : Z)
| invalidDate.

(** [d.getTime()]; [None] is [NaN]. *)
Definition getTime (d : Date) : option Z :=
  match d with
  | dateAt t => Some t
  | invalidDate => None
  end.

(** [new Date(x)] for a property [x] that holds a [Date] or is [undefined]:
    a copy of the date, and an Invalid Date for [undefined]. *)
Definition dateOf (x : option Date) : Date :=
  match x with
  | Some d => d
  | None => invalidDate
  end.

(** [a - b] on two time values: [NaN] when one of them is. *)
Definition minus (a b : option Z) : option Z :=
  match a, b with
  | Some x, Some y => Some (x - y)
  | _, _ => None
  end.

(** The stable arrangement of an array by a comparator: every element is
    put before the first element of the arranged rest that it does not
    have to follow.  [cmp a b <= 0] keeps [a] before [b]. *)
Section Sort.
Context {A : Type} (cmp : A -> A -> Z).

Fixpoint insertSorted (x : A) (l : list A) : list A :=
  match l with
  | [] => [x]
  | y :: r => if cmp x y <=? 0 then x :: y :: r else y :: insertSorted x r
  end.

Fixpoint sort (l : list A) : list A :=
  match l with
  | [] => []
  | x :: r => insertSorted x (sort r)
  end.
End Sort.

(** What [Array.prototype.sort] makes of the [number] that the comparator
    returns: [NaN] counts as [+0]. *)
Definition sortCompare (v : option Z) : Z :=
  match v with
  | Some z => z
  | None => 0
  end.

(** A consistent comparator for the elements of [l], in the words of
    ECMAScript: it never returns [NaN], and it divides the elements into
    classes of equals that are totally ordered. *)
Definition consistent {A : Type} (cmp : A -> A -> option Z) (l : list A)
  : Prop :=
  (forall a b, In a l -> In b l -> cmp a b <> None)
  /\ (forall a, In a l -> sortCompare (cmp a a) = 0)
  /\ (forall a b, In a l -> In b l ->
        sortCompare (cmp a b) = 0 -> sortCompare (cmp b a) = 0)
  /\ (forall a b c, In a l -> In b l -> In c l ->
        sortCompare (cmp a b) = 0 -> sortCompare (cmp b c) = 0 ->
        sortCompare (cmp a c) = 0)
  /\ (forall a b c, In a l -> In b l -> In c l ->
        sortCompare (cmp a b) < 0 -> sortCompare (cmp b c) < 0 ->
        sortCompare (cmp a c) < 0)
  /\ (forall a b c, In a l -> In b l -> In c l ->
        sortCompare (cmp a b) > 0 -> sortCompare (cmp b c) > 0 ->
        sortCompare (cmp a c) > 0).

(** ** Insertion-ordered maps keyed by strings *)

Module JsMap.
Section Ops.
Context {V : Type}.

Definition t := list (string * V).

Definition empty : t := [].

Fixpoint get (m : t) (k : string) : option V :=
  match m with
  | [] => None
  | (k', v) :: r => if String.eqb k' k then Some v else get r k
  end.

Definition has (m : t) (k : string) : bool :=
  match get m k with Some _ => true | None => false end.

Fixpoint set (k : string) (v : V) (m : t) : t :=
  match m with
  | [] => [(k, v)]
  | (k', v') :: r =>
      if String.eqb k' k then (k', v) :: r else (k', v') :: set k v r
  end.

(** What [Map.prototype.delete] leaves; it returns [has m k].  A map holds
    a key once, so dropping every entry under [k] drops that one. *)
Definition remove (k : string) (m : t) : t :=
  filter (fun e => negb (String.eqb (fst e) k)) m.

Definition values (m : t) : list V := map snd m.

Definition keys (m : t) : list string := map fst m.

Fixpoint uniqueKeys (m : t) : bool :=
  match m with
  | [] => true
  | (k, _) :: r => negb (has r k) && uniqueKeys r
  end.

(** Every record is stored under its own identifier. *)
Definition keyed (idOf : V -> string) (m : t) : bool :=
  forallb (fun e => String.eqb (idOf (snd e)) (fst e)) m.

(** [xs.forEach((x) => map.delete(x.id))] *)
Definition removeEach (idOf : V -> string) (xs : list V) (m : t) : t :=
  fold_left (fun m x => remove (idOf x) m) xs m.
End Ops.
Arguments t : clear implicits.
End JsMap.

(** ** The record shapes of [shared/schema.ts]

    [T.t] is the select shape of a table, [InsertT.t] its insert shape
    (the identifier omitted, columns with a default or without [notNull]
    optional) and [PatchT.t] the [Partial] of the insert shape. *)

Module User.
Record t := mk { id : string; username : string; password : string }.
End User.

Module InsertUser.
Record t := mk { username : string; password : string }.
End InsertUser.

Module Supplier.
Record t := mk { id : string; name : string; active : bool }.
End Supplier.

Module Product.
Record t := mk { id : string; name : string; unit : string; active : bool }.
End Product.

Module InsertClient.
Record t := mk {
  type : string;
  name : string;
  tradeName : js string;
  document : string;
  stateRegistration : js string;
  email : js string;
  phone : js string;
  cellphone : js string;
  zipCode : js string;
  street : js string;
  number : js string;
  complement : js string;
  neighborhood : js string;
  city : js string;
  state : js string;
  notes : js string;
  active : option bool
}.
End InsertClient.

(** A stored client is the object [{ ...insertClient, id }]: a property
    that the insert shape leaves out is absent from it as well. *)
Module Client.
Record t := mk {
  id : string;
  type : string;
  name : string;
  tradeName : js string;
  document : string;
  stateRegistration : js string;
  email : js string;
  phone : js string;
  cellphone : js string;
  zipCode : js string;
  street : js string;
  number : js string;
  complement : js string;
  neighborhood : js string;
  city : js string;
  state : js string;
  notes : js string;
  active : option bool
}.

(** Truthiness of [c.active]. *)
Definition isActive (c : t) : bool :=
  match active c with Some b => b | None => false end.
End Client.

Module PatchClient.
Record t := mk {
  type : option string;
  name : option string;
  tradeName : js string;
  document : option string;
  stateRegistration : js string;
  email : js string;
  phone : js string;
  cellphone : js string;
  zipCode : js string;
  street : js string;
  number : js string;
  complement : js string;
  neighborhood : js string;
  city : js string;
  state : js string;
  notes : js string;
  active : option bool
}.
End PatchClient.

(** [clientId] and [supplierId] come from [orderData.clientId!] on a
    [Partial<InsertOrder>] and are [None] when the caller left them out.
    The code reads [totalValue] through [?.], so it is nullable here. *)
Module Order.
Record t := mk {
  id : string;
  orderNumber : Z;
  clientId : option string;
  supplierId : option string;
  status : string;
  totalValue : option string;
  notes : option string;
  createdAt : Z
}.
End Order.

Module PatchOrder.
Record t := mk {
  orderNumber : option Z;
  clientId : option string;
  supplierId : option string;
  status : option string;
  totalValue : option string;
  notes : js string
}.
End PatchOrder.

Module OrderItem.
Record t := mk {
  id : string;
  orderId : string;
  productId : string;
  quantity : string;
  unitPrice : string;
  totalPrice : string
}.
End OrderItem.

Module InsertOrderItem.
Record t := mk {
  orderId : string;
  productId : string;
  quantity : string;
  unitPrice : string;
  totalPrice : string
}.
End InsertOrderItem.

(** [scheduledDate] is the [Date] that the caller gave, valid or not, and
    [undefined] ([None]) once a patch has carried the key with that value. *)
Module Delivery.
Record t := mk {
  id : string;
  orderId : string;
  scheduledDate : option Date;
  scheduledTime : option string;
  status : string;
  deliveryAddress : option string;
  driverName : option string;
  vehiclePlate : option string;
  notes : option string;
  deliveredAt : option Z
}.

(** The time value of [new Date(d.scheduledDate)]; [None] is [NaN]. *)
Definition scheduledAt (d : t) : option Z := getTime (dateOf (scheduledDate d)).
End Delivery.

Module InsertDelivery.
Record t := mk {
  orderId : string;
  scheduledDate : Date;
  scheduledTime : js string;
  status : option string;
  deliveryAddress : js string;
  driverName : js string;
  vehiclePlate : js string;
  notes : js string;
  deliveredAt : js Z
}.
End InsertDelivery.

(** [scheduledDate]: [None] when the patch does not carry the key,
    [Some None] when it carries it with the value [undefined]. *)
Module PatchDelivery.
Record t := mk {
  orderId : option string;
  scheduledDate : option (option Date);
  scheduledTime : js string;
  status : option string;
  deliveryAddress : js string;
  driverName : js string;
  vehiclePlate : js string;
  notes : js string;
  deliveredAt : js Z
}.
End PatchDelivery.

Module Invoice.
Record t := mk {
  id : string;
  orderId : string;
  invoiceNumber : string;
  series : option string;
  issueDate : Date;
  value : option string;
  notes : option string
}.
End Invoice.

Module InsertInvoice.
Record t := mk {
  orderId : string;
  invoiceNumber : string;
  series : js string;
  issueDate : Date;
  value : js string;
  notes : js string
}.
End InsertInvoice.

(** The detail views.  [client!], [supplier!] and [product!] are whatever
    the lookup gave, so they are optional here. *)
Module ItemWithProduct.
Record t := mk { item : OrderItem.t; product : option Product.t }.
End ItemWithProduct.

Module OrderWithDetails.
Record t := mk {
  order : Order.t;
  client : option Client.t;
  supplier : option Supplier.t;
  items : list ItemWithProduct.t;
  deliveries : list Delivery.t;
  invoices : list Invoice.t
}.
Definition createdAt (o : t) : Z := Order.createdAt (order o).
End OrderWithDetails.

Module OrderWithParties.
Record t := mk {
  order : Order.t;
  client : option Client.t;
  supplier : option Supplier.t
}.
End OrderWithParties.

Module DeliveryWithDetails.
Record t := mk {
  delivery : Delivery.t;
  order : option OrderWithParties.t
}.
Definition scheduledAt (d : t) : option Z := Delivery.scheduledAt (delivery d).
End DeliveryWithDetails.

(** ** The host runtime

    [randomUUID_at k] is the result of the [k]-th call of [randomUUID()] and
    [now_at k] the epoch value of the [k]-th [new Date()] of the process.
    [startOfDay d] is [d.setHours(0, 0, 0, 0)], [addDays d k] is
    [d.setDate(d.getDate() + k)] and [startOfMonth d] is
    [new Date(d.getFullYear(), d.getMonth(), 1)], all in the local time zone.
    [number] with [plus] and [zero] stands for the arithmetic of JS numbers
    that [monthlyValue] is computed in.

    [arraySort cmp l] is [l.sort(cmp)].  ECMAScript fixes its result for a
    consistent comparator: the elements in the order of the comparator,
    equal ones in the order they had (the sort is stable), which is the
    arrangement that [sort] computes.  For any other comparator, one that
    returns [NaN] for some pair among them, the order is left to the
    engine; the result still holds the same elements. *)
Class Host := {
  randomUUID_at : nat -> string;
  now_at : nat -> Z;
  startOfDay : Z -> Z;
  addDays : Z -> Z -> Z;
  startOfMonth : Z -> Z;
  number : Type;
  zero : number;
  plus : number -> number -> number;
  parseFloat : string -> number;
  arraySort : forall A : Type, (A -> A -> option Z) -> list A -> list A;
  arraySort_consistent :
    forall (A : Type) (cmp : A -> A -> option Z) (l : list A),
      consistent cmp l ->
      arraySort A cmp l = sort (fun a b => sortCompare (cmp a b)) l;
  arraySort_elements :
    forall (A : Type) (cmp : A -> A -> option Z) (l : list A),
      Permutation l (arraySort A cmp l)
}.
Arguments arraySort {_} {A} _ _.

(** ** The storage class *)

(** The fields of [MemStorage]. *)
Record MemStorage := mkStorage {
  users : JsMap.t User.t;
  clients : JsMap.t Client.t;
  products : JsMap.t Product.t;
  suppliers : JsMap.t Supplier.t;
  orders : JsMap.t Order.t;
  orderItems : JsMap.t OrderItem.t;
  deliveries : JsMap.t Delivery.t;
  invoices : JsMap.t Invoice.t;
  orderCounter : Z
}.

(** Assignments to one field. *)
Definition setUsers (f : JsMap.t User.t -> JsMap.t User.t) (s : MemStorage) :=
  mkStorage (f (users s)) (clients s) (products s) (suppliers s) (orders s)
            (orderItems s) (deliveries s) (invoices s) (orderCounter s).

Definition setClients (f : JsMap.t Client.t -> JsMap.t Client.t) (s : MemStorage) :=
  mkStorage (users s) (f (clients s)) (products s) (suppliers s) (orders s)
            (orderItems s) (deliveries s) (invoices s) (orderCounter s).

Definition setProducts (f : JsMap.t Product.t -> JsMap.t Product.t) (s : MemStorage) :=
  mkStorage (users s) (clients s) (f (products s)) (suppliers s) (orders s)
            (orderItems s) (deliveries s) (invoices s) (orderCounter s).

Definition setSuppliers (f : JsMap.t Supplier.t -> JsMap.t Supplier.t) (s : MemStorage) :=
  mkStorage (users s) (clients s) (products s) (f (suppliers s)) (orders s)
            (orderItems s) (deliveries s) (invoices s) (orderCounter s).

Definition setOrders (f : JsMap.t Order.t -> JsMap.t Order.t) (s : MemStorage) :=
  mkStorage (users s) (clients s) (products s) (suppliers s) (f (orders s))
            (orderItems s) (deliveries s) (invoices s) (orderCounter s).

Definition setOrderItems (f : JsMap.t OrderItem.t -> JsMap.t OrderItem.t) (s : MemStorage) :=
  mkStorage (users s) (clients s) (products s) (suppliers s) (orders s)
            (f (orderItems s)) (deliveries s) (invoices s) (orderCounter s).

Definition setDeliveries (f : JsMap.t Delivery.t -> JsMap.t Delivery.t) (s : MemStorage) :=
  mkStorage (users s) (clients s) (products s) (suppliers s) (orders s)
            (orderItems s) (f (deliveries s)) (invoices s) (orderCounter s).

Definition setInvoices (f : JsMap.t Invoice.t -> JsMap.t Invoice.t) (s : MemStorage) :=
  mkStorage (users s) (clients s) (products s) (suppliers s) (orders s)
            (orderItems s) (deliveries s) (f (invoices s)) (orderCounter s).

Definition setOrderCounter (f : Z -> Z) (s : MemStorage) :=
  mkStorage (users s) (clients s) (products s) (suppliers s) (orders s)
            (orderItems s) (deliveries s) (invoices s) (f (orderCounter s)).

(** The process: the storage object and how many identifiers and clock
    readings the host has handed out. *)
Record World := mkWorld {
  store : MemStorage;
  draws : nat;
  reads : nat
}.

(** A method of the class. *)
Definition M (A : Type) : Type := World -> A * World.

Definition ret {A : Type} (a : A) : M A := fun w => (a, w).

Definition bind {A B : Type} (c : M A) (k : A -> M B) : M B :=
  fun w => let (a, w') := c w in k a w'.

Notation "x <- c ;; k" := (bind c (fun x => k))
  (at level 61, c at next level, right associativity).
Notation "c ;;; k" := (bind c (fun _ => k))
  (at level 61, right associativity).

(** Read a field of [this]. *)
Definition this {A : Type} (f : MemStorage -> A) : M A :=
  fun w => (f (store w), w).

(** Write to [this]. *)
Definition update (f : MemStorage -> MemStorage) : M unit :=
  fun w => (tt, mkWorld (f (store w)) (draws w) (reads w)).

(** [for (const x of xs) body(x)] and [xs.forEach(body)]. *)
Fixpoint forEach {A : Type} (xs : list A) (body : A -> M unit) : M unit :=
  match xs with
  | [] => ret tt
  | x :: r => body x ;;; forEach r body
  end.

(** [for (const x of xs) result.push(await f(x))]. *)
Fixpoint forPush {A B : Type} (xs : list A) (f : A -> M B) : M (list B) :=
  match xs with
  | [] => ret []
  | x :: r => y <- f x ;; ys <- forPush r f ;; ret (y :: ys)
  end.

Definition result {A : Type} (c : M A) (w : World) : A := fst (c w).
Definition after {A : Type} (c : M A) (w : World) : World := snd (c w).

Section Storage.
Context {H : Host}.

Record DashboardStats := mkStats {
  pendingOrders : nat;
  todayDeliveries : nat;
  activeClients : nat;
  monthlyValue : number
}.

Definition randomUUID : M string :=
  fun w => (randomUUID_at (draws w), mkWorld (store w) (S (draws w)) (reads w)).

Definition newDate : M Z :=
  fun w => (now_at (reads w), mkWorld (store w) (draws w) (S (reads w))).

(** *** Users *)

Definition getUser (id : string) : M (option User.t) :=
  this (fun s => JsMap.get (users s) id).

Definition getUserByUsername (username : string) : M (option User.t) :=
  this (fun s =>
    find (fun user => String.eqb (User.username user) username)
         (JsMap.values (users s))).

Definition createUser (insertUser : InsertUser.t) : M User.t :=
  id <- randomUUID ;;
  let user :=
    User.mk id (InsertUser.username insertUser) (InsertUser.password insertUser) in
  update (setUsers (JsMap.set id user)) ;;;
  ret user.

(** *** Clients *)

Definition getClients : M (list Client.t) :=
  this (fun s => JsMap.values (clients s)).

Definition getClient (id : string) : M (option Client.t) :=
  this (fun s => JsMap.get (clients s) id).

(** [{ ...insertClient, id }] *)
Definition spreadInsertClient (i : InsertClient.t) (id : string) : Client.t :=
  Client.mk id
    (InsertClient.type i) (InsertClient.name i) (InsertClient.tradeName i)
    (InsertClient.document i) (InsertClient.stateRegistration i)
    (InsertClient.email i) (InsertClient.phone i) (InsertClient.cellphone i)
    (InsertClient.zipCode i) (InsertClient.street i) (InsertClient.number i)
    (InsertClient.complement i) (InsertClient.neighborhood i)
    (InsertClient.city i) (InsertClient.state i) (InsertClient.notes i)
    (InsertClient.active i).

Definition createClient (insertClient : InsertClient.t) : M Client.t :=
  id <- randomUUID ;;
  let client := spreadInsertClient insertClient id in
  update (setClients (JsMap.set id client)) ;;;
  ret client.

(** [{ ...client, ...data }] *)
Definition spreadPatchClient (c : Client.t) (d : PatchClient.t) : Client.t :=
  Client.mk (Client.id c)
    (over (PatchClient.type d) (Client.type c))
    (over (PatchClient.name d) (Client.name c))
    (overJ (PatchClient.tradeName d) (Client.tradeName c))
    (over (PatchClient.document d) (Client.document c))
    (overJ (PatchClient.stateRegistration d) (Client.stateRegistration c))
    (overJ (PatchClient.email d) (Client.email c))
    (overJ (PatchClient.phone d) (Client.phone c))
    (overJ (PatchClient.cellphone d) (Client.cellphone c))
    (overJ (PatchClient.zipCode d) (Client.zipCode c))
    (overJ (PatchClient.street d) (Client.street c))
    (overJ (PatchClient.number d) (Client.number c))
    (overJ (PatchClient.complement d) (Client.complement c))
    (overJ (PatchClient.neighborhood d) (Client.neighborhood c))
    (overJ (PatchClient.city d) (Client.city c))
    (overJ (PatchClient.state d) (Client.state c))
    (overJ (PatchClient.notes d) (Client.notes c))
    (overO (PatchClient.active d) (Client.active c)).

Definition updateClient (id : string) (data : PatchClient.t)
  : M (option Client.t) :=
  client <- this (fun s => JsMap.get (clients s) id) ;;
  match client with
  | None => ret None
  | Some client =>
      let updated := spreadPatchClient client data in
      update (setClients (JsMap.set id updated)) ;;;
      ret (Some updated)
  end.

Definition deleteClient (id : string) : M bool :=
  found <- this (fun s => JsMap.has (clients s) id) ;;
  update (setClients (JsMap.remove id)) ;;;
  ret found.

(** *** Products and suppliers *)

Definition getProducts : M (list Product.t) :=
  this (fun s => JsMap.values (products s)).

Definition getProduct (id : string) : M (option Product.t) :=
  this (fun s => JsMap.get (products s) id).

Definition getSuppliers : M (list Supplier.t) :=
  this (fun s => JsMap.values (suppliers s)).

Definition getSupplier (id : string) : M (option Supplier.t) :=
  this (fun s => JsMap.get (suppliers s) id).

(** *** Order items and invoices *)

Definition getOrderItems (orderId : string) : M (list OrderItem.t) :=
  this (fun s =>
    filter (fun item => String.eqb (OrderItem.orderId item) orderId)
           (JsMap.values (orderItems s))).

Definition getInvoices (orderId : string) : M (list Invoice.t) :=
  this (fun s =>
    filter (fun invoice => String.eqb (Invoice.orderId invoice) orderId)
           (JsMap.values (invoices s))).

Definition createInvoice (insertInvoice : InsertInvoice.t) : M Invoice.t :=
  id <- randomUUID ;;
  let invoice :=
    Invoice.mk id
      (InsertInvoice.orderId insertInvoice)
      (InsertInvoice.invoiceNumber insertInvoice)
      (orNull (InsertInvoice.series insertInvoice))
      (InsertInvoice.issueDate insertInvoice)
      (orNull (InsertInvoice.value insertInvoice))
      (orNull (InsertInvoice.notes insertInvoice)) in
  update (setInvoices (JsMap.set id invoice)) ;;;
  ret invoice.

(** *** Helper methods *)

(** A lookup by a key that may be [undefined] finds nothing then. *)
Definition lookupBy {A : Type} (get : string -> M (option A))
  (k : option string) : M (option A) :=
  match k with Some k => get k | None => ret None end.

Definition buildOrderWithDetails (order : Order.t) : M OrderWithDetails.t :=
  client <- lookupBy getClient (Order.clientId order) ;;
  supplier <- lookupBy getSupplier (Order.supplierId order) ;;
  items <- getOrderItems (Order.id order) ;;
  deliveries <- this (fun s =>
    filter (fun d => String.eqb (Delivery.orderId d) (Order.id order))
           (JsMap.values (deliveries s))) ;;
  invoices <- getInvoices (Order.id order) ;;
  itemsWithProducts <- forPush items (fun item =>
    product <- getProduct (OrderItem.productId item) ;;
    ret (ItemWithProduct.mk item product)) ;;
  ret (OrderWithDetails.mk order client supplier itemsWithProducts
                           deliveries invoices).

Definition buildDeliveryWithDetails (delivery : Delivery.t)
  : M DeliveryWithDetails.t :=
  order <- this (fun s => JsMap.get (orders s) (Delivery.orderId delivery)) ;;
  match order with
  | Some order =>
      client <- lookupBy getClient (Order.clientId order) ;;
      supplier <- lookupBy getSupplier (Order.supplierId order) ;;
      ret (DeliveryWithDetails.mk delivery
             (Some (OrderWithParties.mk order client supplier)))
  | None => ret (DeliveryWithDetails.mk delivery None)
  end.

(** *** Orders *)

(** [new Date(b.createdAt).getTime() - new Date(a.createdAt).getTime()] *)
Definition byCreatedAtDesc (a b : OrderWithDetails.t) : option Z :=
  Some (OrderWithDetails.createdAt b - OrderWithDetails.createdAt a).

Definition getOrders : M (list OrderWithDetails.t) :=
  orders <- this (fun s => JsMap.values (orders s)) ;;
  result <- forPush orders buildOrderWithDetails ;;
  ret (arraySort byCreatedAtDesc result).

Definition getOrder (id : string) : M (option OrderWithDetails.t) :=
  order <- this (fun s => JsMap.get (orders s) id) ;;
  match order with
  | None => ret None
  | Some order => d <- buildOrderWithDetails order ;; ret (Some d)
  end.

Definition getRecentOrders (limit : Z) : M (list OrderWithDetails.t) :=
  orders <- getOrders ;;
  ret (slice0 orders limit).

Definition createOrder (orderData : PatchOrder.t)
  (items : list InsertOrderItem.t) : M OrderWithDetails.t :=
  id <- randomUUID ;;
  update (setOrderCounter (fun n => n + 1)) ;;;
  orderNumber <- this orderCounter ;;
  createdAt <- newDate ;;
  let order :=
    Order.mk id orderNumber
      (PatchOrder.clientId orderData)
      (PatchOrder.supplierId orderData)
      (orElse (PatchOrder.status orderData) "pending")
      (Some (orElse (PatchOrder.totalValue orderData) "0"))
      (orNull (PatchOrder.notes orderData))
      createdAt in
  update (setOrders (JsMap.set id order)) ;;;
  forEach items (fun item =>
    itemId <- randomUUID ;;
    let orderItem :=
      OrderItem.mk itemId id
        (InsertOrderItem.productId item)
        (InsertOrderItem.quantity item)
        (InsertOrderItem.unitPrice item)
        (InsertOrderItem.totalPrice item) in
    update (setOrderItems (JsMap.set itemId orderItem))) ;;;
  buildOrderWithDetails order.

(** [createOrder] on the [items] array that POST /api/orders passes on
    unchecked.  An element of a JSON array may be [null] ([None]): reading
    [item.productId] throws a [TypeError] on it, after [randomUUID()] was
    called for the item and before anything is stored for it, and the method
    ends there.  [storeItemsUnchecked] is the loop and tells whether it ran
    to its end; [createOrderUnchecked] returns [None] when it threw. *)
Fixpoint storeItemsUnchecked (id : string)
  (items : list (option InsertOrderItem.t)) : M bool :=
  match items with
  | [] => ret true
  | item :: rest =>
      itemId <- randomUUID ;;
      match item with
      | None => ret false
      | Some item =>
          let orderItem :=
            OrderItem.mk itemId id
              (InsertOrderItem.productId item)
              (InsertOrderItem.quantity item)
              (InsertOrderItem.unitPrice item)
              (InsertOrderItem.totalPrice item) in
          update (setOrderItems (JsMap.set itemId orderItem)) ;;;
          storeItemsUnchecked id rest
      end
  end.

Definition createOrderUnchecked (orderData : PatchOrder.t)
  (items : list (option InsertOrderItem.t)) : M (option OrderWithDetails.t) :=
  id <- randomUUID ;;
  update (setOrderCounter (fun n => n + 1)) ;;;
  orderNumber <- this orderCounter ;;
  createdAt <- newDate ;;
  let order :=
    Order.mk id orderNumber
      (PatchOrder.clientId orderData)
      (PatchOrder.supplierId orderData)
      (orElse (PatchOrder.status orderData) "pending")
      (Some (orElse (PatchOrder.totalValue orderData) "0"))
      (orNull (PatchOrder.notes orderData))
      createdAt in
  update (setOrders (JsMap.set id order)) ;;;
  completed <- storeItemsUnchecked id items ;;
  if completed
  then details <- buildOrderWithDetails order ;; ret (Some details)
  else ret None.

(** [{ ...order, ...data }] *)
Definition spreadPatchOrder (o : Order.t) (d : PatchOrder.t) : Order.t :=
  Order.mk (Order.id o)
    (over (PatchOrder.orderNumber d) (Order.orderNumber o))
    (overO (PatchOrder.clientId d) (Order.clientId o))
    (overO (PatchOrder.supplierId d) (Order.supplierId o))
    (over (PatchOrder.status d) (Order.status o))
    (overO (PatchOrder.totalValue d) (Order.totalValue o))
    (overN (PatchOrder.notes d) (Order.notes o))
    (Order.createdAt o).

Definition updateOrder (id : string) (data : PatchOrder.t)
  : M (option Order.t) :=
  order <- this (fun s => JsMap.get (orders s) id) ;;
  match order with
  | None => ret None
  | Some order =>
      let updated := spreadPatchOrder order data in
      update (setOrders (JsMap.set id updated)) ;;;
      ret (Some updated)
  end.

Definition deleteOrder (id : string) : M bool :=
  items <- this (fun s =>
    filter (fun item => String.eqb (OrderItem.orderId item) id)
           (JsMap.values (orderItems s))) ;;
  forEach items (fun item =>
    update (setOrderItems (JsMap.remove (OrderItem.id item)))) ;;;
  deliveries <- this (fun s =>
    filter (fun d => String.eqb (Delivery.orderId d) id)
           (JsMap.values (deliveries s))) ;;
  forEach deliveries (fun d =>
    update (setDeliveries (JsMap.remove (Delivery.id d)))) ;;;
  invoices <- this (fun s =>
    filter (fun i => String.eqb (Invoice.orderId i) id)
           (JsMap.values (invoices s))) ;;
  forEach invoices (fun i =>
    update (setInvoices (JsMap.remove (Invoice.id i)))) ;;;
  found <- this (fun s => JsMap.has (orders s) id) ;;
  update (setOrders (JsMap.remove id)) ;;;
  ret found.

(** *** Deliveries *)

(** [new Date(b.scheduledDate).getTime() - new Date(a.scheduledDate).getTime()] *)
Definition byScheduledDateDesc (a b : DeliveryWithDetails.t) : option Z :=
  minus (DeliveryWithDetails.scheduledAt b) (DeliveryWithDetails.scheduledAt a).

Definition getDeliveries : M (list DeliveryWithDetails.t) :=
  deliveries <- this (fun s => JsMap.values (deliveries s)) ;;
  result <- forPush deliveries buildDeliveryWithDetails ;;
  ret (arraySort byScheduledDateDesc result).

Definition getDelivery (id : string) : M (option DeliveryWithDetails.t) :=
  delivery <- this (fun s => JsMap.get (deliveries s) id) ;;
  match delivery with
  | None => ret None
  | Some delivery => d <- buildDeliveryWithDetails delivery ;; ret (Some d)
  end.

(** [scheduledDate >= today && scheduledDate < tomorrow] for
    [scheduledDate = new Date(d.scheduledDate)]: both comparisons are false
    when its time value is [NaN]. *)
Definition scheduledWithin (today tomorrow : Z) (d : Delivery.t) : bool :=
  match Delivery.scheduledAt d with
  | Some t => (today <=? t) && (t <? tomorrow)
  | None => false
  end.

Definition getTodayDeliveries : M (list DeliveryWithDetails.t) :=
  now <- newDate ;;
  let today := startOfDay now in
  let tomorrow := addDays today 1 in
  deliveries <- this (fun s =>
    filter (scheduledWithin today tomorrow) (JsMap.values (deliveries s))) ;;
  forPush deliveries buildDeliveryWithDetails.

Definition createDelivery (insertDelivery : InsertDelivery.t)
  : M Delivery.t :=
  id <- randomUUID ;;
  let delivery :=
    Delivery.mk id
      (InsertDelivery.orderId insertDelivery)
      (Some (InsertDelivery.scheduledDate insertDelivery))
      (orNull (InsertDelivery.scheduledTime insertDelivery))
      (orElse (InsertDelivery.status insertDelivery) "pending")
      (orNull (InsertDelivery.deliveryAddress insertDelivery))
      (orNull (InsertDelivery.driverName insertDelivery))
      (orNull (InsertDelivery.vehiclePlate insertDelivery))
      (orNull (InsertDelivery.notes insertDelivery))
      None in
  update (setDeliveries (JsMap.set id delivery)) ;;;
  ret delivery.

(** [{ ...delivery, ...data }], before the [deliveredAt] key that the
    object literal writes last. *)
Definition spreadPatchDelivery (o : Delivery.t) (d : PatchDelivery.t)
  : Delivery.t :=
  Delivery.mk (Delivery.id o)
    (over (PatchDelivery.orderId d) (Delivery.orderId o))
    (over (PatchDelivery.scheduledDate d) (Delivery.scheduledDate o))
    (overN (PatchDelivery.scheduledTime d) (Delivery.scheduledTime o))
    (over (PatchDelivery.status d) (Delivery.status o))
    (overN (PatchDelivery.deliveryAddress d) (Delivery.deliveryAddress o))
    (overN (PatchDelivery.driverName d) (Delivery.driverName o))
    (overN (PatchDelivery.vehiclePlate d) (Delivery.vehiclePlate o))
    (overN (PatchDelivery.notes d) (Delivery.notes o))
    (overN (PatchDelivery.deliveredAt d) (Delivery.deliveredAt o)).

Definition withDeliveredAt (o : Delivery.t) (at_ : option Z) : Delivery.t :=
  Delivery.mk (Delivery.id o) (Delivery.orderId o) (Delivery.scheduledDate o)
    (Delivery.scheduledTime o) (Delivery.status o) (Delivery.deliveryAddress o)
    (Delivery.driverName o) (Delivery.vehiclePlate o) (Delivery.notes o) at_.

(** [data.status === "delivered"] *)
Definition statusIsDelivered (data : PatchDelivery.t) : bool :=
  match PatchDelivery.status data with
  | Some s => String.eqb s "delivered"
  | None => false
  end.

(** [!delivery.deliveredAt]: a [Date] object is truthy, [null] is not. *)
Definition notDelivered (delivery : Delivery.t) : bool :=
  match Delivery.deliveredAt delivery with Some _ => false | None => true end.

Definition updateDelivery (id : string) (data : PatchDelivery.t)
  : M (option Delivery.t) :=
  delivery <- this (fun s => JsMap.get (deliveries s) id) ;;
  match delivery with
  | None => ret None
  | Some delivery =>
      deliveredAt <-
        (if statusIsDelivered data && notDelivered delivery
         then now <- newDate ;; ret (Some now)
         else ret (Delivery.deliveredAt delivery)) ;;
      let updated :=
        withDeliveredAt (spreadPatchDelivery delivery data) deliveredAt in
      update (setDeliveries (JsMap.set id updated)) ;;;
      ret (Some updated)
  end.

(** *** Dashboard *)

(** [o.totalValue?.toString() || "0"] *)
Definition totalValueText (o : Order.t) : string :=
  orElse (Order.totalValue o) "0".

Definition getDashboardStats : M DashboardStats :=
  orders <- this (fun s => JsMap.values (orders s)) ;;
  clients <- this (fun s => JsMap.values (clients s)) ;;
  now <- newDate ;;
  let today := startOfDay now in
  let tomorrow := addDays today 1 in
  todayDeliveries <- this (fun s =>
    filter (scheduledWithin today tomorrow) (JsMap.values (deliveries s))) ;;
  let startOfMonth := startOfMonth today in
  let monthlyOrders :=
    filter (fun o => startOfMonth <=? Order.createdAt o) orders in
  ret (mkStats
    (List.length (filter (fun o => String.eqb (Order.status o) "pending") orders))
    (List.length todayDeliveries)
    (List.length (filter Client.isActive clients))
    (fold_left (fun sum o => plus sum (parseFloat (totalValueText o)))
               monthlyOrders zero)).

(** *** The constructor and its sample rows *)

Definition productNames : list string :=
  [ "Areia Média"; "Areia Fina"; "Areia Grossa"; "Areia Média Grossa";
    "Areia Média Fina"; "Brita 1"; "Brita 2"; "Brita 3"; "Brita 4"; "Rachão";
    "BGS"; "Pedrisco Limpo"; "Pó de Pedra"; "Rachão Reciclado";
    "Areia Desclassificada"; "Argila Expandida"; "Bica Reciclada";
    "Brita Reciclada"; "Brita 1 Reciclada"; "Brita 2 Reciclada";
    "Brita 3 Reciclada"; "Brita 4 Reciclada"; "Areia De Quadra" ].

(** [++this.orderCounter] *)
Definition preIncrementOrderCounter : M Z :=
  update (setOrderCounter (fun n => n + 1)) ;;;
  this orderCounter.

Definition seedData : M unit :=
  (* suppliers *)
  novaAreiaoId <- randomUUID ;;
  let novaAreiao := Supplier.mk novaAreiaoId "Nova Areião" true in
  ferroviaId <- randomUUID ;;
  let ferrovia := Supplier.mk ferroviaId "Ferrovia" true in
  update (setSuppliers (JsMap.set novaAreiaoId novaAreiao)) ;;;
  update (setSuppliers (JsMap.set ferroviaId ferrovia)) ;;;
  (* products *)
  productIds <- forPush productNames (fun name =>
    id <- randomUUID ;;
    update (setProducts (JsMap.set id (Product.mk id name "m³" true))) ;;;
    ret id) ;;
  let productId := fun i => nth i productIds "" in
  (* clients *)
  client1Id <- randomUUID ;;
  let client1 :=
    Client.mk client1Id "PJ" "Construtora ABC Ltda" (val "Construtora ABC")
      "12345678000199" (val "123456789")
      (val "contato@construtorabc.com.br") (val "(11) 3333-4444")
      (val "(11) 99999-8888") (val "01310-100") (val "Av. Paulista")
      (val "1000") (val "Sala 501") (val "Bela Vista") (val "São Paulo")
      (val "SP") (val "Cliente desde 2020") (Some true) in
  client2Id <- randomUUID ;;
  let client2 :=
    Client.mk client2Id "PJ" "Incorporadora XYZ S/A" (val "XYZ Incorporações")
      "98765432000188" (val "987654321")
      (val "comercial@xyz.com.br") (val "(11) 2222-3333")
      (val "(11) 98888-7777") (val "04543-011") (val "Rua Funchal")
      (val "418") (val "10º andar") (val "Vila Olímpia") (val "São Paulo")
      (val "SP") (val "Grande volume mensal") (Some true) in
  client3Id <- randomUUID ;;
  let client3 :=
    Client.mk client3Id "PF" "João da Silva" null
      "12345678901" null
      (val "joao.silva@email.com") null
      (val "(11) 97777-6666") (val "03102-000") (val "Rua das Flores")
      (val "123") null (val "Mooca") (val "São Paulo")
      (val "SP") null (Some true) in
  update (setClients (JsMap.set client1Id client1)) ;;;
  update (setClients (JsMap.set client2Id client2)) ;;;
  update (setClients (JsMap.set client3Id client3)) ;;;
  (* orders *)
  today <- newDate ;;
  let yesterday := addDays today (-1) in
  let twoDaysAgo := addDays today (-2) in
  update (setOrderCounter (fun _ => 1000)) ;;;
  order1Id <- randomUUID ;;
  n1 <- preIncrementOrderCounter ;;
  let order1 :=
    Order.mk order1Id n1 (Some client1Id) (Some novaAreiaoId) "pending"
      (Some "4500.00") (Some "Entrega urgente") today in
  update (setOrders (JsMap.set order1Id order1)) ;;;
  orderItem1Id <- randomUUID ;;
  update (setOrderItems (JsMap.set orderItem1Id
    (OrderItem.mk orderItem1Id order1Id (productId 0%nat)
       "30" "150.00" "4500.00"))) ;;;
  order2Id <- randomUUID ;;
  n2 <- preIncrementOrderCounter ;;
  let order2 :=
    Order.mk order2Id n2 (Some client2Id) (Some ferroviaId) "confirmed"
      (Some "8750.00") None yesterday in
  update (setOrders (JsMap.set order2Id order2)) ;;;
  orderItem2aId <- randomUUID ;;
  orderItem2bId <- randomUUID ;;
  update (setOrderItems (JsMap.set orderItem2aId
    (OrderItem.mk orderItem2aId order2Id (productId 5%nat)
       "25" "200.00" "5000.00"))) ;;;
  update (setOrderItems (JsMap.set orderItem2bId
    (OrderItem.mk orderItem2bId order2Id (productId 6%nat)
       "15" "250.00" "3750.00"))) ;;;
  order3Id <- randomUUID ;;
  n3 <- preIncrementOrderCounter ;;
  let order3 :=
    Order.mk order3Id n3 (Some client1Id) (Some novaAreiaoId) "delivered"
      (Some "2100.00") None twoDaysAgo in
  update (setOrders (JsMap.set order3Id order3)) ;;;
  orderItem3Id <- randomUUID ;;
  update (setOrderItems (JsMap.set orderItem3Id
    (OrderItem.mk orderItem3Id order3Id (productId 1%nat)
       "14" "150.00" "2100.00"))) ;;;
  (* deliveries *)
  delivery1Id <- randomUUID ;;
  update (setDeliveries (JsMap.set delivery1Id
    (Delivery.mk delivery1Id order1Id (Some (dateAt today)) (Some "14:00") "pending"
       (Some "Av. Paulista, 1000 - Bela Vista, São Paulo/SP")
       (Some "Carlos Oliveira") (Some "ABC-1234")
       (Some "Entrar pela portaria de serviço") None))) ;;;
  delivery2Id <- randomUUID ;;
  update (setDeliveries (JsMap.set delivery2Id
    (Delivery.mk delivery2Id order2Id (Some (dateAt today)) (Some "09:00") "in_transit"
       (Some "Rua Funchal, 418 - Vila Olímpia, São Paulo/SP")
       (Some "Roberto Santos") (Some "XYZ-5678") None None))) ;;;
  delivery3Id <- randomUUID ;;
  update (setDeliveries (JsMap.set delivery3Id
    (Delivery.mk delivery3Id order3Id (Some (dateAt twoDaysAgo)) (Some "10:30") "delivered"
       (Some "Av. Paulista, 1000 - Bela Vista, São Paulo/SP")
       (Some "Carlos Oliveira") (Some "ABC-1234") None (Some twoDaysAgo)))) ;;;
  (* invoice *)
  invoice1Id <- randomUUID ;;
  update (setInvoices (JsMap.set invoice1Id
    (Invoice.mk invoice1Id order3Id "000123" (Some "1") (dateAt twoDaysAgo)
       (Some "2100.00") None))).

Definition emptyStorage : MemStorage :=
  mkStorage JsMap.empty JsMap.empty JsMap.empty JsMap.empty JsMap.empty
            JsMap.empty JsMap.empty JsMap.empty 1000.

(** [new MemStorage()] *)
Definition constructor : M unit :=
  update (fun _ => emptyStorage) ;;;
  seedData.

(** The process right after [export const storage = new MemStorage()]. *)
Definition boot : World :=
  after constructor (mkWorld emptyStorage 0 0).

End Storage.


(** ** A concrete host

    One host to run the methods on: identifiers [id-0], [id-1], ..., a
    clock that starts at 2026-11-01T12:00Z and advances one minute per
    reading, the UTC calendar, amounts in hundredths ([None] stands for
    [NaN]), and an engine whose [sort] makes the stable arrangement with
    every comparator. *)


Definition uuidText (k : nat) : string :=
  String.append "id-" (NilEmpty.string_of_uint (Nat.to_uint k)).

Definition msPerDay : Z := 86400000.

Definition utcStartOfDay (t : Z) : Z := t - t mod msPerDay.

Definition utcAddDays (t k : Z) : Z := t + k * msPerDay.

(** Day of the month (1-based) of a day count since 1970-01-01, by the
    usual era arithmetic of the proleptic Gregorian calendar. *)
Definition dayOfMonth (days : Z) : Z :=
  let z := days + 719468 in
  let era := z / 146097 in
  let doe := z - era * 146097 in
  let yoe := (doe - doe / 1460 + doe / 36524 - doe / 146096) / 365 in
  let doy := doe - (365 * yoe + yoe / 4 - yoe / 100) in
  let mp := (5 * doy + 2) / 153 in
  doy - (153 * mp + 2) / 5 + 1.

Definition utcStartOfMonth (t : Z) : Z :=
  let days := t / msPerDay in
  (days - (dayOfMonth days - 1)) * msPerDay.

Definition digitOf (c : ascii) : option Z :=
  let n := Z.of_nat (nat_of_ascii c) in
  if (48 <=? n) && (n <=? 57) then Some (n - 48) else None.

Fixpoint readDigits (s : string) (acc : Z) : Z * string :=
  match s with
  | EmptyString => (acc, s)
  | String c r =>
      match digitOf c with
      | Some d => readDigits r (10 * acc + d)
      | None => (acc, s)
      end
  end.

Definition hundredths (s : string) : Z :=
  match s with
  | String a (String b _) =>
      match digitOf a, digitOf b with
      | Some x, Some y => 10 * x + y
      | Some x, None => 10 * x
      | _, _ => 0
      end
  | String a EmptyString =>
      match digitOf a with Some x => 10 * x | None => 0 end
  | _ => 0
  end.

(** A decimal amount such as ["4500.00"], in hundredths. *)
Definition parseAmount (s : string) : option Z :=
  match s with
  | EmptyString => None
  | String c _ =>
      match digitOf c with
      | None => None
      | Some _ =>
          let (units, rest) := readDigits s 0 in
          match rest with
          | String "." frac => Some (100 * units + hundredths frac)
          | _ => Some (100 * units)
          end
      end
  end.

Definition plusAmount (a b : option Z) : option Z :=
  match a, b with
  | Some x, Some y => Some (x + y)
  | _, _ => None
  end.

Lemma insertSorted_elements {A : Type} (cmp : A -> A -> Z) (x : A) (l : list A) :
  Permutation (x :: l) (insertSorted cmp x l).
Proof.
  induction l as [|y r IH]; simpl; auto.
  destruct (cmp x y <=? 0); auto.
  rewrite perm_swap. now constructor.
Qed.

Lemma sort_elements {A : Type} (cmp : A -> A -> Z) (l : list A) :
  Permutation l (sort cmp l).
Proof.
  induction l as [|x r IH]; simpl; auto.
  rewrite <- insertSorted_elements. now constructor.
Qed.

#[export] Instance utcHost : Host := {|
  randomUUID_at := uuidText;
  now_at := fun k => 1793534400000 + 60000 * Z.of_nat k;
  startOfDay := utcStartOfDay;
  addDays := utcAddDays;
  startOfMonth := utcStartOfMonth;
  number := option Z;
  zero := Some 0;
  plus := plusAmount;
  parseFloat := parseAmount;
  arraySort := fun A cmp => sort (fun a b => sortCompare (cmp a b));
  arraySort_consistent := fun A cmp l _ => eq_refl;
  arraySort_elements := fun A cmp l => sort_elements _ l
|}.

(** ** Vocabulary of the specification *)

(** A method that only reads. *)
Definition readOnly {A : Type} (c : M A) : Prop := forall w, after c w = w.

(** A list is in descending order of [key]. *)
Definition descendingBy {A : Type} (key : A -> Z) (l : list A) : Prop :=
  StronglySorted (fun a b => key b <= key a) l.

(** The elements with a given key, in the order they have in the list. *)
Definition tied {A : Type} (key : A -> Z) (t : Z) (l : list A) : list A :=
  filter (fun a => key a =? t) l.

(** A list is in descending order of a time value: every element has one,
    and none is followed by an element with a greater one. *)
Definition descendingByTime {A : Type} (key : A -> option Z) (l : list A)
  : Prop :=
  StronglySorted
    (fun a b =>
       match key a, key b with
       | Some x, Some y => y <= x
       | _, _ => False
       end) l.

(** The elements with a given time value, in the order they have in the
    list. *)
Definition tiedAt {A : Type} (key : A -> option Z) (t : Z) (l : list A)
  : list A :=
  filter (fun a => match key a with Some x => x =? t | None => false end) l.

(** The time value of a date that is valid. *)
Definition timeValue (x : option Z) : Z :=
  match x with
  | Some t => t
  | None => 0
  end.

(** Every stored delivery has a valid [scheduledDate]. *)
Definition validDates (s : MemStorage) : Prop :=
  Forall (fun d => Delivery.scheduledAt d <> None)
         (JsMap.values (deliveries s)).

(** Today's window as [getTodayDeliveries] and [getDashboardStats] compute
    it from the clock reading [now]: from local midnight to the next. *)
Definition scheduledToday {H : Host} (now : Z) (d : Delivery.t) : bool :=
  scheduledWithin (startOfDay now) (addDays (startOfDay now) 1) d.

(** ** Scenarios on the concrete host *)

(** A delivery for the first sample order, scheduled for 14:00 of the day
    the process started on (2026-11-01T14:00Z). *)
Definition afternoonDelivery : InsertDelivery.t :=
  InsertDelivery.mk "id-28" (dateAt 1793541600000) (val "14:00") None
    undefined undefined undefined undefined undefined.

Definition worldWithAfternoonDelivery : World :=
  after (createDelivery afternoonDelivery) boot.

(** ** Sequences of delivery updates *)

(** One [updateDelivery] call after the other; a call is the identifier and
    the patch. *)
Definition updateDeliveries {H : Host}
  (calls : list (string * PatchDelivery.t)) : M unit :=
  forEach calls (fun c => updateDelivery (fst c) (snd c) ;;; ret tt).

(** [deliveredAt] of the stored delivery [id]: [None] when there is no such
    delivery, [Some None] when it is [null]. *)
Definition deliveredAtOf (id : string) (w : World) : option (option Z) :=
  option_map Delivery.deliveredAt (JsMap.get (deliveries (store w)) id).

(** The call patches delivery [id] with status "delivered". *)
Definition marksDelivered (id : string) (c : string * PatchDelivery.t) : bool :=
  String.eqb (fst c) id && statusIsDelivered (snd c).

(** The same input with another [deliveredAt] property. *)
Definition insertWithDeliveredAt (i : InsertDelivery.t) (x : js Z)
  : InsertDelivery.t :=
  InsertDelivery.mk (InsertDelivery.orderId i) (InsertDelivery.scheduledDate i)
    (InsertDelivery.scheduledTime i) (InsertDelivery.status i)
    (InsertDelivery.deliveryAddress i) (InsertDelivery.driverName i)
    (InsertDelivery.vehiclePlate i) (InsertDelivery.notes i) x.

Definition patchWithDeliveredAt (d : PatchDelivery.t) (x : js Z)
  : PatchDelivery.t :=
  PatchDelivery.mk (PatchDelivery.orderId d) (PatchDelivery.scheduledDate d)
    (PatchDelivery.scheduledTime d) (PatchDelivery.status d)
    (PatchDelivery.deliveryAddress d) (PatchDelivery.driverName d)
    (PatchDelivery.vehiclePlate d) (PatchDelivery.notes d) x.

(** A patch that carries only a status. *)
Definition statusPatch (s : string) : PatchDelivery.t :=
  PatchDelivery.mk None None undefined (Some s)
    undefined undefined undefined undefined undefined.

(** A patch that marks a delivery as delivered and carries [scheduledDate]
    with the value [undefined], as PATCH /api/deliveries/:id makes it from
    a body that only sets the status. *)
Definition deliveredWithoutDate : PatchDelivery.t :=
  PatchDelivery.mk None (Some None) undefined (Some "delivered")
    undefined undefined undefined undefined undefined.

(** The first sample delivery is patched to "in_transit", the second sample
    delivery is marked delivered, then the first is marked delivered twice. *)
Definition calls_before : list (string * PatchDelivery.t) :=
  [("id-35", statusPatch "in_transit"); ("id-36", statusPatch "delivered")].

Definition calls_after : list (string * PatchDelivery.t) :=
  [("id-35", statusPatch "delivered"); ("id-35", statusPatch "pending")].

(** ** Well-formed stores and the cascade *)

(** Every map holds each record under the record's own [id], once. *)
Definition wellKeyed (s : MemStorage) : bool :=
  JsMap.uniqueKeys (users s) && JsMap.keyed User.id (users s)
  && JsMap.uniqueKeys (clients s) && JsMap.keyed Client.id (clients s)
  && JsMap.uniqueKeys (products s) && JsMap.keyed Product.id (products s)
  && JsMap.uniqueKeys (suppliers s) && JsMap.keyed Supplier.id (suppliers s)
  && JsMap.uniqueKeys (orders s) && JsMap.keyed Order.id (orders s)
  && JsMap.uniqueKeys (orderItems s) && JsMap.keyed OrderItem.id (orderItems s)
  && JsMap.uniqueKeys (deliveries s) && JsMap.keyed Delivery.id (deliveries s)
  && JsMap.uniqueKeys (invoices s) && JsMap.keyed Invoice.id (invoices s).

Definition itemOf (id : string) (x : OrderItem.t) : bool :=
  String.eqb (OrderItem.orderId x) id.
Definition deliveryOf (id : string) (x : Delivery.t) : bool :=
  String.eqb (Delivery.orderId x) id.
Definition invoiceOf (id : string) (x : Invoice.t) : bool :=
  String.eqb (Invoice.orderId x) id.

(** The entries of a map whose record does not satisfy [p], in order. *)
Definition without {V : Type} (p : V -> bool) (m : JsMap.t V) : JsMap.t V :=
  filter (fun e => negb (p (snd e))) m.

(** No item, delivery or invoice refers to order [id]. *)
Definition noDependents (id : string) (s : MemStorage) : Prop :=
  filter (itemOf id) (JsMap.values (orderItems s)) = []
  /\ filter (deliveryOf id) (JsMap.values (deliveries s)) = []
  /\ filter (invoiceOf id) (JsMap.values (invoices s)) = [].

(** The part of [deleteOrder] before [this.orders.delete(id)]. *)
Definition cascade (id : string) : M unit :=
  items <- this (fun s =>
    filter (fun item => String.eqb (OrderItem.orderId item) id)
           (JsMap.values (orderItems s))) ;;
  forEach items (fun item =>
    update (setOrderItems (JsMap.remove (OrderItem.id item)))) ;;;
  deliveries <- this (fun s =>
    filter (fun d => String.eqb (Delivery.orderId d) id)
           (JsMap.values (deliveries s))) ;;
  forEach deliveries (fun d =>
    update (setDeliveries (JsMap.remove (Delivery.id d)))) ;;;
  invoices <- this (fun s =>
    filter (fun i => String.eqb (Invoice.orderId i) id)
           (JsMap.values (invoices s))) ;;
  forEach invoices (fun i =>
    update (setInvoices (JsMap.remove (Invoice.id i)))).

(** The store that the cascade leaves. *)
Definition cascaded (id : string) (s : MemStorage) : MemStorage :=
  mkStorage (users s) (clients s) (products s) (suppliers s) (orders s)
    (JsMap.removeEach OrderItem.id
       (filter (itemOf id) (JsMap.values (orderItems s))) (orderItems s))
    (JsMap.removeEach Delivery.id
       (filter (deliveryOf id) (JsMap.values (deliveries s))) (deliveries s))
    (JsMap.removeEach Invoice.id
       (filter (invoiceOf id) (JsMap.values (invoices s))) (invoices s))
    (orderCounter s).

(** A delivery for an order that does not exist. *)
Definition orphanDelivery : InsertDelivery.t :=
  InsertDelivery.mk "ghost" (dateAt 1793541600000) undefined None
    undefined undefined undefined undefined undefined.

Definition worldWithOrphan : World :=
  after (createDelivery orphanDelivery) boot.

(** ** Clients *)

(** A client with the required properties only: no [active] key. *)
Definition minimalClient : InsertClient.t :=
  InsertClient.mk "PF" "Ana Souza" undefined "98765432100"
    undefined undefined undefined undefined undefined undefined undefined
    undefined undefined undefined undefined undefined None.

(** ** Dashboard vocabulary *)

(** How many elements satisfy [p]. *)
Fixpoint countWhere {A : Type} (p : A -> bool) (l : list A) : nat :=
  match l with
  | [] => 0%nat
  | x :: r => ((if p x then 1 else 0) + countWhere p r)%nat
  end.

(** [active = true] *)
Definition activeIsTrue (c : Client.t) : bool :=
  match Client.active c with Some true => true | _ => false end.

(** What an order adds to the monthly value: nothing when its [totalValue]
    is missing or empty. *)
Definition contribution {H : Host} (o : Order.t) : number :=
  match Order.totalValue o with
  | None => zero
  | Some s => if String.eqb s "" then zero else parseFloat s
  end.

(** The running total of the amounts, taken in order, from [acc]. *)
Fixpoint total {H : Host} (acc : number) (xs : list number) : number :=
  match xs with
  | [] => acc
  | x :: r => total (plus acc x) r
  end.

(** Created on or after the first day of the month of [now]. *)
Definition createdThisMonth {H : Host} (now : Z) (o : Order.t) : bool :=
  startOfMonth (startOfDay now) <=? Order.createdAt o.

(** ** Sessions

    The calls that change the process: every method that writes to the
    storage object or reads the clock.  The remaining getters leave the
    process as it is. *)
Inductive Call : Type :=
| CreateUser (u : InsertUser.t)
| CreateClient (c : InsertClient.t)
| UpdateClient (id : string) (d : PatchClient.t)
| DeleteClient (id : string)
| CreateOrder (d : PatchOrder.t) (items : list InsertOrderItem.t)
| UpdateOrder (id : string) (d : PatchOrder.t)
| DeleteOrder (id : string)
| CreateDelivery (d : InsertDelivery.t)
| UpdateDelivery (id : string) (d : PatchDelivery.t)
| CreateInvoice (i : InsertInvoice.t)
| GetTodayDeliveries
| GetDashboardStats.

(** Make the call; the answer kept is the display number of the order that
    [createOrder] returns. *)
Definition perform {H : Host} (c : Call) : M (option Z) :=
  match c with
  | CreateUser u => createUser u ;;; ret None
  | CreateClient c => createClient c ;;; ret None
  | UpdateClient id d => updateClient id d ;;; ret None
  | DeleteClient id => deleteClient id ;;; ret None
  | CreateOrder d items =>
      o <- createOrder d items ;;
      ret (Some (Order.orderNumber (OrderWithDetails.order o)))
  | UpdateOrder id d => updateOrder id d ;;; ret None
  | DeleteOrder id => deleteOrder id ;;; ret None
  | CreateDelivery d => createDelivery d ;;; ret None
  | UpdateDelivery id d => updateDelivery id d ;;; ret None
  | CreateInvoice i => createInvoice i ;;; ret None
  | GetTodayDeliveries => getTodayDeliveries ;;; ret None
  | GetDashboardStats => getDashboardStats ;;; ret None
  end.

(** Make the calls one after the other; the result is the display numbers
    handed out, in the order of the calls. *)
Fixpoint session {H : Host} (calls : list Call) : M (list Z) :=
  match calls with
  | [] => ret []
  | c :: r =>
      n <- perform c ;;
      ns <- session r ;;
      ret (match n with Some n => n :: ns | None => ns end)
  end.

(** A method takes every store to one that [R] relates it to. *)
Definition preserves (R : MemStorage -> MemStorage -> Prop) {A : Type}
  (c : M A) : Prop :=
  forall w, R (store w) (store (after c w)).

Definition sameCounter (s s' : MemStorage) : Prop :=
  orderCounter s' = orderCounter s.

Definition staysWellKeyed (s s' : MemStorage) : Prop :=
  wellKeyed s = true -> wellKeyed s' = true.

(** The three sample orders that the constructor stores. *)
Definition sampleOrder1 {H : Host} : Order.t :=
  Order.mk (randomUUID_at 28) 1001 (Some (randomUUID_at 25))
    (Some (randomUUID_at 0)) "pending" (Some "4500.00")
    (Some "Entrega urgente") (now_at 0).

Definition sampleOrder2 {H : Host} : Order.t :=
  Order.mk (randomUUID_at 30) 1002 (Some (randomUUID_at 26))
    (Some (randomUUID_at 1)) "confirmed" (Some "8750.00") None
    (addDays (now_at 0) (-1)).

Definition sampleOrder3 {H : Host} : Order.t :=
  Order.mk (randomUUID_at 33) 1003 (Some (randomUUID_at 25))
    (Some (randomUUID_at 0)) "delivered" (Some "2100.00") None
    (addDays (now_at 0) (-2)).

(** The orders and the counter are the same in both stores. *)
Definition ordersUntouched (s s' : MemStorage) : Prop :=
  orders s' = orders s /\ orderCounter s' = orderCounter s.

(** The display numbers of the stored orders, in insertion order. *)
Definition storedNumbers (s : MemStorage) : list Z :=
  map Order.orderNumber (JsMap.values (orders s)).

(** No stored order is numbered above the counter, and no two stored
    orders share a number. *)
Definition numbersInUse (s : MemStorage) : Prop :=
  Forall (fun n => n <= orderCounter s) (storedNumbers s)
  /\ NoDup (storedNumbers s).

(** The call does not patch the [orderNumber] of an order. *)
Definition keepsNumbers (c : Call) : bool :=
  match c with
  | UpdateOrder _ d =>
      match PatchOrder.orderNumber d with Some _ => false | None => true end
  | _ => true
  end.

(** A patch that renumbers an order. *)
Definition renumber (n : Z) : PatchOrder.t :=
  PatchOrder.mk (Some n) None None None None undefined.

(** ** More scenarios on the concrete host *)

(** What a merge has to leave in a property: the value that the patch
    carries under the key, and the stored one when the patch does not carry
    the key. *)
Definition written {A : Type} (patch : option A) (old new : A) : Prop :=
  match patch with
  | Some v => new = v
  | None => new = old
  end.

Definition writtenO {A : Type} (patch old new : option A) : Prop :=
  match patch with
  | Some v => new = Some v
  | None => new = old
  end.

Definition writtenJ {A : Type} (patch old new : js A) : Prop :=
  match patch with
  | undefined => new = old
  | null => new = null
  | val v => new = val v
  end.

(** A patch that carries nothing. *)
Definition emptyClientPatch : PatchClient.t :=
  PatchClient.mk None None undefined None undefined undefined undefined
    undefined undefined undefined undefined undefined undefined undefined
    undefined undefined None.

(** A patch that deactivates a client and clears its notes. *)
Definition deactivate : PatchClient.t :=
  PatchClient.mk None None undefined None undefined undefined undefined
    undefined undefined undefined undefined undefined undefined undefined
    undefined null (Some false).

(** A patch that confirms an order. *)
Definition confirmOrder : PatchOrder.t :=
  PatchOrder.mk None None None (Some "confirmed") None undefined.

(** The first sample client, as the constructor stores it on the concrete
    host. *)
Definition sampleClient1 : Client.t :=
  Client.mk "id-25" "PJ" "Construtora ABC Ltda" (val "Construtora ABC")
    "12345678000199" (val "123456789")
    (val "contato@construtorabc.com.br") (val "(11) 3333-4444")
    (val "(11) 99999-8888") (val "01310-100") (val "Av. Paulista")
    (val "1000") (val "Sala 501") (val "Bela Vista") (val "São Paulo")
    (val "SP") (val "Cliente desde 2020") (Some true).

(** ** The detail views as functions of the store *)

Definition lookupIn {V : Type} (m : JsMap.t V) (k : option string) : option V :=
  match k with Some k => JsMap.get m k | None => None end.

(** What [buildOrderWithDetails] assembles. *)
Definition orderView (s : MemStorage) (o : Order.t) : OrderWithDetails.t :=
  OrderWithDetails.mk o
    (lookupIn (clients s) (Order.clientId o))
    (lookupIn (suppliers s) (Order.supplierId o))
    (map (fun item =>
            ItemWithProduct.mk item
              (JsMap.get (products s) (OrderItem.productId item)))
         (filter (itemOf (Order.id o)) (JsMap.values (orderItems s))))
    (filter (deliveryOf (Order.id o)) (JsMap.values (deliveries s)))
    (filter (invoiceOf (Order.id o)) (JsMap.values (invoices s))).

(** What [buildDeliveryWithDetails] assembles. *)
Definition deliveryView (s : MemStorage) (d : Delivery.t)
  : DeliveryWithDetails.t :=
  DeliveryWithDetails.mk d
    (match JsMap.get (orders s) (Delivery.orderId d) with
     | Some o =>
         Some (OrderWithParties.mk o
                 (lookupIn (clients s) (Order.clientId o))
                 (lookupIn (suppliers s) (Order.supplierId o)))
     | None => None
     end).

(** ** The loop of [createOrder] *)

(** The order item that one turn of the loop stores. *)
Definition newOrderItem (itemId orderId : string) (item : InsertOrderItem.t)
  : OrderItem.t :=
  OrderItem.mk itemId orderId
    (InsertOrderItem.productId item) (InsertOrderItem.quantity item)
    (InsertOrderItem.unitPrice item) (InsertOrderItem.totalPrice item).

(** The order items that the loop stores, the first with the [k]-th
    identifier of the host. *)
Fixpoint newOrderItems {H : Host} (orderId : string)
  (items : list InsertOrderItem.t) (k : nat) : list OrderItem.t :=
  match items with
  | [] => []
  | item :: r =>
      newOrderItem (randomUUID_at k) orderId item
      :: newOrderItems orderId r (S k)
  end.

(** The map of order items after the loop. *)
Definition storeItems (xs : list OrderItem.t) (m : JsMap.t OrderItem.t)
  : JsMap.t OrderItem.t :=
  fold_left (fun m x => JsMap.set (OrderItem.id x) x m) xs m.

(** The order that [createOrder] builds from its input. *)
Definition newOrder {H : Host} (d : PatchOrder.t) (w : World) : Order.t :=
  Order.mk (randomUUID_at (draws w)) (orderCounter (store w) + 1)
    (PatchOrder.clientId d) (PatchOrder.supplierId d)
    (orElse (PatchOrder.status d) "pending")
    (Some (orElse (PatchOrder.totalValue d) "0"))
    (orNull (PatchOrder.notes d))
    (now_at (reads w)).

(** The same input with another [orderNumber] property. *)
Definition patchWithOrderNumber (d : PatchOrder.t) (n : option Z)
  : PatchOrder.t :=
  PatchOrder.mk n (PatchOrder.clientId d) (PatchOrder.supplierId d)
    (PatchOrder.status d) (PatchOrder.totalValue d) (PatchOrder.notes d).

(** The identifiers that [createOrder] draws for [n] items. *)
Definition itemIds {H : Host} (w : World) (n : nat) : list string :=
  map randomUUID_at (seq (S (draws w)) n).

(** An order of 30 units at 150.00 and 15 units at 250.00, with the total
    the caller computed. *)
Definition twoItemOrder : PatchOrder.t :=
  PatchOrder.mk None (Some "id-25") (Some "id-0") None (Some "8250.00")
    undefined.

Definition twoItems : list InsertOrderItem.t :=
  [ InsertOrderItem.mk "" "id-2" "30" "150.00" "4500.00";
    InsertOrderItem.mk "" "id-8" "15" "250.00" "3750.00" ].

(** The same patch with another [status] property. *)
Definition patchWithStatus (d : PatchDelivery.t) (s : option string)
  : PatchDelivery.t :=
  PatchDelivery.mk (PatchDelivery.orderId d) (PatchDelivery.scheduledDate d)
    (PatchDelivery.scheduledTime d) s
    (PatchDelivery.deliveryAddress d) (PatchDelivery.driverName d)
    (PatchDelivery.vehiclePlate d) (PatchDelivery.notes d)
    (PatchDelivery.deliveredAt d).

(** An invoice for the first sample order, without series and with an empty
    value. *)
Definition bareInvoice : InsertInvoice.t :=
  InsertInvoice.mk "id-28" "000124" undefined (dateAt 1793534400000) (val "") null.

(** A user. *)
Definition someUser : InsertUser.t := InsertUser.mk "admin" "secret".

(** The stored order of a delivery with the parties it names, as the detail
    view of a delivery carries it. *)
Definition orderWithParties (s : MemStorage) (orderId : string)
  : option OrderWithParties.t :=
  match JsMap.get (orders s) orderId with
  | Some o =>
      Some (OrderWithParties.mk o
              (lookupIn (clients s) (Order.clientId o))
              (lookupIn (suppliers s) (Order.supplierId o)))
  | None => None
  end.

(** The process after a first user was created. *)
Definition worldWithUser : World := after (createUser someUser) boot.

(** The products and the suppliers are the same in both stores. *)
Definition catalogUntouched (s s' : MemStorage) : Prop :=
  products s' = products s /\ suppliers s' = suppliers s.

(** How many of the calls are [createOrder]. *)
Fixpoint creations (calls : list Call) : nat :=
  match calls with
  | [] => 0%nat
  | CreateOrder _ _ :: r => S (creations r)
  | _ :: r => creations r
  end.

(** The first sample order is given the display number that the counter
    hands out next, then an order is created. *)
Definition renumberThenCreate : list Call :=
  [ UpdateOrder "id-28" (renumber 1004); CreateOrder twoItemOrder [] ].

(** Two orders are created, the first is deleted, a third is created. *)
Definition busySession : list Call :=
  [ CreateOrder twoItemOrder twoItems;
    CreateOrder twoItemOrder [];
    DeleteOrder "id-39";
    UpdateOrder "id-42" confirmOrder;
    CreateOrder twoItemOrder twoItems ].

(** ** The routes of [server/routes.ts]

    A handler is a method on the process that returns the response it
    sends.  Each handler of the source wraps its body in [try]/[catch] and
    answers 500 when something throws.  Two things throw: the schema
    [parse], modelled as the [None] of [parseInsertClient] and
    [parsePartialClient] (a [ZodError], answered with 400), and
    [createOrder] on a [null] element of the [items] array, which POST
    /api/orders does not check ([createOrderUnchecked], answered with 500).
    The request body is the object that the JSON parser made; the handlers
    of deliveries and invoices pass it on unvalidated, with the date key
    replaced by what [new Date] makes of its value.  Their body is given
    here as the keys that the storage method reads, typed as the insert
    shape types them, and the JSON value under the date key. *)

(** The schemas of [drizzle-zod]: [insertClientSchema.parse] and
    [insertClientSchema.partial().parse] on a request body. *)
Class Schemas := {
  json : Type;
  parseInsertClient : json -> option InsertClient.t;
  parsePartialClient : json -> option PatchClient.t
}.

(** A JSON value under a date key of a request body.  Whether it is truthy
    and the [Date] that [new Date(x)] makes of it belong to the engine. *)
Class JsonDates := {
  jsonValue : Type;
  truthy : jsonValue -> bool;
  newDateFrom : jsonValue -> Date
}.

(** [new Date(req.body.key)]; [None] is a body without the key, and
    [new Date(undefined)] is an Invalid Date. *)
Definition newDateOfKey {J : JsonDates} (x : option jsonValue) : Date :=
  match x with
  | Some v => newDateFrom v
  | None => invalidDate
  end.

(** [req.body.key ? new Date(req.body.key) : undefined] *)
Definition dateOrUndefined {J : JsonDates} (x : option jsonValue)
  : option Date :=
  match x with
  | Some v => if truthy v then Some (newDateFrom v) else None
  | None => None
  end.

(** [{ ...req.body, scheduledDate: d }] *)
Definition insertWithScheduledDate (i : InsertDelivery.t) (d : Date)
  : InsertDelivery.t :=
  InsertDelivery.mk (InsertDelivery.orderId i) d
    (InsertDelivery.scheduledTime i) (InsertDelivery.status i)
    (InsertDelivery.deliveryAddress i) (InsertDelivery.driverName i)
    (InsertDelivery.vehiclePlate i) (InsertDelivery.notes i)
    (InsertDelivery.deliveredAt i).

(** [{ ...req.body, scheduledDate: x }]: the patch carries the key, also
    when [x] is [undefined]. *)
Definition patchWithScheduledDate (d : PatchDelivery.t) (x : option Date)
  : PatchDelivery.t :=
  PatchDelivery.mk (PatchDelivery.orderId d) (Some x)
    (PatchDelivery.scheduledTime d) (PatchDelivery.status d)
    (PatchDelivery.deliveryAddress d) (PatchDelivery.driverName d)
    (PatchDelivery.vehiclePlate d) (PatchDelivery.notes d)
    (PatchDelivery.deliveredAt d).

(** [{ ...req.body, issueDate: d }] *)
Definition insertWithIssueDate (i : InsertInvoice.t) (d : Date)
  : InsertInvoice.t :=
  InsertInvoice.mk (InsertInvoice.orderId i) (InsertInvoice.invoiceNumber i)
    (InsertInvoice.series i) d (InsertInvoice.value i) (InsertInvoice.notes i).

(** The [items] property of the body of POST /api/orders: falsy, something
    that is not an array, or an array, whose elements are items or [null]
    ([None]). *)
Inductive ItemsField : Type :=
| ItemsFalsy
| ItemsNotArray
| ItemsArray (items : list (option InsertOrderItem.t)).

(** The body of POST /api/orders; [None] is a falsy [order]. *)
Record OrderBody := mkOrderBody {
  bodyOrder : option PatchOrder.t;
  bodyItems : ItemsField
}.

Section Routes.
Context {H : Host} {Sch : Schemas} {J : JsonDates}.

(** What [res.json] or [res.send] is given. *)
Inductive Body : Type :=
| NoBody
| ErrorBody (error : string)
| ZodErrors
| StatsBody (stats : DashboardStats)
| ClientsBody (clients : list Client.t)
| ClientBody (client : Client.t)
| ProductsBody (products : list Product.t)
| SuppliersBody (suppliers : list Supplier.t)
| OrdersBody (orders : list OrderWithDetails.t)
| OrderBodyOf (order : OrderWithDetails.t)
| PlainOrderBody (order : Order.t)
| DeliveriesBody (deliveries : list DeliveryWithDetails.t)
| DeliveryBody (delivery : DeliveryWithDetails.t)
| PlainDeliveryBody (delivery : Delivery.t)
| InvoicesBody (invoices : list Invoice.t)
| InvoiceBody (invoice : Invoice.t).

Record Response := respond { status : Z; body : Body }.

(** [res.json(x)] *)
Definition ok (b : Body) : M Response := ret (respond 200 b).

(** [res.status(404).json({ error })] *)
Definition notFound (error : string) : M Response :=
  ret (respond 404 (ErrorBody error)).

(** GET /api/dashboard/stats *)
Definition get_dashboard_stats : M Response :=
  stats <- getDashboardStats ;;
  ok (StatsBody stats).

(** GET /api/clients *)
Definition get_clients : M Response :=
  clients <- getClients ;;
  ok (ClientsBody clients).

(** GET /api/clients/:id *)
Definition get_client (id : string) : M Response :=
  client <- getClient id ;;
  match client with
  | None => notFound "Client not found"
  | Some client => ok (ClientBody client)
  end.

(** POST /api/clients *)
Definition post_client (reqBody : json) : M Response :=
  match parseInsertClient reqBody with
  | None => ret (respond 400 ZodErrors)
  | Some data =>
      client <- createClient data ;;
      ret (respond 201 (ClientBody client))
  end.

(** PATCH /api/clients/:id *)
Definition patch_client (id : string) (reqBody : json) : M Response :=
  match parsePartialClient reqBody with
  | None => ret (respond 400 ZodErrors)
  | Some data =>
      client <- updateClient id data ;;
      match client with
      | None => notFound "Client not found"
      | Some client => ok (ClientBody client)
      end
  end.

(** DELETE /api/clients/:id *)
Definition delete_client (id : string) : M Response :=
  deleted <- deleteClient id ;;
  if deleted then ret (respond 204 NoBody) else notFound "Client not found".

(** GET /api/products *)
Definition get_products : M Response :=
  products <- getProducts ;;
  ok (ProductsBody products).

(** GET /api/suppliers *)
Definition get_suppliers : M Response :=
  suppliers <- getSuppliers ;;
  ok (SuppliersBody suppliers).

(** GET /api/orders *)
Definition get_orders : M Response :=
  orders <- getOrders ;;
  ok (OrdersBody orders).

(** GET /api/orders/recent *)
Definition get_orders_recent : M Response :=
  orders <- getRecentOrders 5 ;;
  ok (OrdersBody orders).

(** GET /api/orders/:id *)
Definition get_order (id : string) : M Response :=
  order <- getOrder id ;;
  match order with
  | None => notFound "Order not found"
  | Some order => ok (OrderBodyOf order)
  end.

(** POST /api/orders: [!order || !items || !Array.isArray(items)] *)
Definition post_order (reqBody : OrderBody) : M Response :=
  match bodyOrder reqBody, bodyItems reqBody with
  | Some order, ItemsArray items =>
      created <- createOrderUnchecked order items ;;
      match created with
      | Some createdOrder => ret (respond 201 (OrderBodyOf createdOrder))
      | None => ret (respond 500 (ErrorBody "Failed to create order"))
      end
  | _, _ => ret (respond 400 (ErrorBody "Invalid order data"))
  end.

(** PATCH /api/orders/:id: the body goes to [updateOrder] as it is. *)
Definition patch_order (id : string) (reqBody : PatchOrder.t) : M Response :=
  order <- updateOrder id reqBody ;;
  match order with
  | None => notFound "Order not found"
  | Some order => ok (PlainOrderBody order)
  end.

(** DELETE /api/orders/:id *)
Definition delete_order (id : string) : M Response :=
  deleted <- deleteOrder id ;;
  if deleted then ret (respond 204 NoBody) else notFound "Order not found".

(** GET /api/deliveries *)
Definition get_deliveries : M Response :=
  deliveries <- getDeliveries ;;
  ok (DeliveriesBody deliveries).

(** GET /api/deliveries/today *)
Definition get_deliveries_today : M Response :=
  deliveries <- getTodayDeliveries ;;
  ok (DeliveriesBody deliveries).

(** GET /api/deliveries/:id *)
Definition get_delivery (id : string) : M Response :=
  delivery <- getDelivery id ;;
  match delivery with
  | None => notFound "Delivery not found"
  | Some delivery => ok (DeliveryBody delivery)
  end.

(** POST /api/deliveries: [reqBody] holds the keys of the body that
    [createDelivery] reads, [scheduledDate] what the body has under that
    key. *)
Definition post_delivery (reqBody : InsertDelivery.t)
  (scheduledDate : option jsonValue) : M Response :=
  let data := insertWithScheduledDate reqBody (newDateOfKey scheduledDate) in
  delivery <- createDelivery data ;;
  ret (respond 201 (PlainDeliveryBody delivery)).

(** PATCH /api/deliveries/:id *)
Definition patch_delivery (id : string) (reqBody : PatchDelivery.t)
  (scheduledDate : option jsonValue) : M Response :=
  let data := patchWithScheduledDate reqBody (dateOrUndefined scheduledDate) in
  delivery <- updateDelivery id data ;;
  match delivery with
  | None => notFound "Delivery not found"
  | Some delivery => ok (PlainDeliveryBody delivery)
  end.

(** GET /api/orders/:orderId/invoices *)
Definition get_order_invoices (orderId : string) : M Response :=
  invoices <- getInvoices orderId ;;
  ok (InvoicesBody invoices).

(** POST /api/invoices *)
Definition post_invoice (reqBody : InsertInvoice.t)
  (issueDate : option jsonValue) : M Response :=
  let data := insertWithIssueDate reqBody (newDateOfKey issueDate) in
  invoice <- createInvoice data ;;
  ret (respond 201 (InvoiceBody invoice)).

End Routes.

(** JSON numbers under the date keys: [new Date(n)] has the time value [n]
    when [n] is within the range of time values, and zero is falsy. *)
#[export] Instance numberDates : JsonDates := {|
  jsonValue := Z;
  truthy := fun n => negb (n =? 0);
  newDateFrom := fun n =>
    if Z.abs n <=? 8640000000000000 then dateAt n else invalidDate
|}.

(** A schema host for the scenarios: the body is the parsed value, or
    nothing when it does not validate. *)
#[export] Instance plainSchemas : Schemas := {|
  json := option InsertClient.t * option PatchClient.t;
  parseInsertClient := fst;
  parsePartialClient := snd
|}.
(** ** Facts about the JavaScript primitives *)

Module JsMapFacts.
Import JsMap.
Section Facts.
Context {V : Type}.
Implicit Types (m : JsMap.t V) (k : string) (v : V).

Lemma get_set_same m k v : get (set k v m) k = Some v.
Proof.
  induction m as [|[k' v'] r IH]; simpl.
  - now rewrite String.eqb_refl.
  - destruct (String.eqb k' k) eqn:E; simpl; rewrite E; auto.
Qed.

Lemma get_set_other m k k' v :
  k <> k' -> get (set k v m) k' = get m k'.
Proof.
  intros N. induction m as [|[k0 v0] r IH]; simpl.
  - destruct (String.eqb k k') eqn:E; auto.
    apply String.eqb_eq in E. contradiction.
  - destruct (String.eqb k0 k) eqn:E; simpl.
    + apply String.eqb_eq in E. subst k0.
      destruct (String.eqb k k') eqn:E'; auto.
      apply String.eqb_eq in E'. contradiction.
    + now rewrite IH.
Qed.

Lemma get_In m k v : get m k = Some v -> In (k, v) m.
Proof.
  induction m as [|[k' v'] r IH]; simpl; [discriminate|].
  destruct (String.eqb k' k) eqn:E.
  - apply String.eqb_eq in E. intros [= ->]. subst. now left.
  - intros G. right. auto.
Qed.

Lemma In_has m k v : In (k, v) m -> has m k = true.
Proof.
  unfold has. induction m as [|[k' v'] r IH]; simpl; [tauto|].
  intros [[= -> ->]|I].
  - now rewrite String.eqb_refl.
  - destruct (String.eqb k' k); auto.
Qed.

Lemma has_false_not_In m k v : has m k = false -> ~ In (k, v) m.
Proof. intros Hf I. apply In_has in I. congruence. Qed.

Lemma unique_In_eq m k v v' :
  uniqueKeys m = true -> In (k, v) m -> In (k, v') m -> v = v'.
Proof.
  induction m as [|[k0 v0] r IH]; simpl; [tauto|].
  intros U. apply andb_true_iff in U. destruct U as [U1 U2].
  apply negb_true_iff in U1.
  intros [[= -> ->]|I1] [[= ->]|I2]; auto.
  - exfalso. eapply has_false_not_In; eauto.
  - subst. exfalso. eapply has_false_not_In; eauto.
Qed.

Lemma remove_absent m k : has m k = false -> remove k m = m.
Proof.
  unfold has, remove. induction m as [|[k' v'] r IH]; simpl; auto.
  destruct (String.eqb k' k) eqn:E; simpl; [discriminate|].
  intros G. now rewrite IH.
Qed.

Lemma get_remove_same m k : get (remove k m) k = None.
Proof.
  unfold remove. induction m as [|[k' v'] r IH]; simpl; auto.
  destruct (String.eqb k' k) eqn:E; simpl; auto. now rewrite E.
Qed.

Lemma has_set_other m k k' v : k <> k' -> has (set k v m) k' = has m k'.
Proof. intros N. unfold has. now rewrite get_set_other. Qed.

Lemma uniqueKeys_set m k v : uniqueKeys m = true -> uniqueKeys (set k v m) = true.
Proof.
  induction m as [|[k0 v0] r IH]; simpl; auto.
  intros U. apply andb_true_iff in U. destruct U as [U1 U2].
  destruct (String.eqb k0 k) eqn:E; simpl.
  - now rewrite U1, U2.
  - rewrite IH by assumption. rewrite andb_true_r.
    rewrite has_set_other; auto.
    intros ->. now rewrite String.eqb_refl in E.
Qed.

Lemma has_remove_false m k k' : has m k' = false -> has (remove k m) k' = false.
Proof.
  unfold has, remove. induction m as [|[k0 v0] r IH]; simpl; auto.
  destruct (String.eqb k0 k') eqn:E; [discriminate|].
  intros G. destruct (String.eqb k0 k); simpl; auto. now rewrite E; auto.
Qed.

Lemma uniqueKeys_remove m k : uniqueKeys m = true -> uniqueKeys (remove k m) = true.
Proof.
  induction m as [|[k0 v0] r IH]; simpl; auto.
  intros U. apply andb_true_iff in U. destruct U as [U1 U2].
  apply negb_true_iff in U1.
  unfold remove in *. simpl. destruct (String.eqb k0 k); simpl; auto.
  rewrite IH by assumption. rewrite andb_true_r.
  apply negb_true_iff. now apply has_remove_false.
Qed.

Lemma keyed_set (idOf : V -> string) m k v :
  idOf v = k -> keyed idOf m = true -> keyed idOf (set k v m) = true.
Proof.
  intros Hk. unfold keyed. induction m as [|[k0 v0] r IH]; simpl.
  - intros _. rewrite Hk, String.eqb_refl. reflexivity.
  - intros U. apply andb_true_iff in U. destruct U as [U1 U2].
    destruct (String.eqb k0 k) eqn:E; simpl.
    + apply String.eqb_eq in E. subst k0. now rewrite Hk, String.eqb_refl.
    + now rewrite U1, IH.
Qed.

Lemma keyed_remove (idOf : V -> string) m k :
  keyed idOf m = true -> keyed idOf (remove k m) = true.
Proof.
  unfold keyed, remove. rewrite !forallb_forall.
  intros Hall e I. apply filter_In in I. now apply Hall.
Qed.

Lemma keyed_In (idOf : V -> string) m k v :
  keyed idOf m = true -> In (k, v) m -> idOf v = k.
Proof.
  unfold keyed. rewrite forallb_forall. intros Hall I.
  apply Hall in I. now apply String.eqb_eq in I.
Qed.

Lemma removeEach_filter (idOf : V -> string) xs m :
  removeEach idOf xs m =
  filter (fun e => negb (existsb (fun x => String.eqb (fst e) (idOf x)) xs)) m.
Proof.
  unfold removeEach. revert m. induction xs as [|x r IH]; intros m; simpl.
  - induction m as [|e m' IHm]; simpl; congruence.
  - rewrite IH. unfold remove. clear IH.
    induction m as [|e m' IHm]; simpl; auto.
    destruct (String.eqb (fst e) (idOf x)); simpl.
    + apply IHm.
    + destruct (existsb _ r); simpl; now rewrite IHm.
Qed.

(** The cascade step of a delete: removing, by identifier, the records that
    satisfy [p] leaves exactly the records that do not. *)
Lemma removeEach_matching (idOf : V -> string) (p : V -> bool) m :
  uniqueKeys m = true -> keyed idOf m = true ->
  removeEach idOf (filter p (values m)) m = filter (fun e => negb (p (snd e))) m.
Proof.
  intros U K. rewrite removeEach_filter. apply filter_ext_in.
  intros [k v] I. simpl. f_equal.
  destruct (p v) eqn:P.
  - apply existsb_exists. exists v. split.
    + apply filter_In. split; auto. unfold values.
      change v with (snd (k, v)). now apply in_map.
    + apply String.eqb_eq. symmetry. eapply keyed_In; eauto.
  - apply not_true_is_false. intros Ex.
    apply existsb_exists in Ex. destruct Ex as [v' [I' E]].
    apply filter_In in I'. destruct I' as [I' P'].
    unfold values in I'. apply in_map_iff in I'.
    destruct I' as [[k' v''] [S I']]. simpl in S. subst v''.
    apply String.eqb_eq in E.
    assert (idOf v' = k') by (eapply keyed_In; eauto). subst k'.
    rewrite <- E in I'.
    assert (v = v') by (eapply unique_In_eq; eauto). congruence.
Qed.

End Facts.
End JsMapFacts.

(** ** Sorting and slicing *)

Lemma firstn_In {A : Type} (n : nat) (l : list A) (x : A) :
  In x (firstn n l) -> In x l.
Proof.
  intros I. rewrite <- (firstn_skipn n l). apply in_or_app. now left.
Qed.

Section SortFacts.
Context {A : Type} (key : A -> Z).
Let cmp (a b : A) : Z := key b - key a.

Lemma insertSorted_perm (x : A) (l : list A) :
  Permutation (x :: l) (insertSorted cmp x l).
Proof.
  induction l as [|y r IH]; simpl; auto.
  destruct (cmp x y <=? 0); auto.
  rewrite perm_swap. now constructor.
Qed.

Lemma sort_perm (l : list A) : Permutation l (sort cmp l).
Proof.
  induction l as [|x r IH]; simpl; auto.
  rewrite <- insertSorted_perm. now constructor.
Qed.

Lemma insertSorted_desc (x : A) (l : list A) :
  descendingBy key l -> descendingBy key (insertSorted cmp x l).
Proof.
  unfold descendingBy. induction 1 as [|y r S IH F]; simpl.
  - repeat constructor.
  - destruct (cmp x y <=? 0) eqn:E.
    + apply Z.leb_le in E. unfold cmp in E.
      constructor; [now constructor|].
      constructor; [lia|].
      eapply Forall_impl; [|exact F]. simpl. intros; lia.
    + apply Z.leb_gt in E. unfold cmp in E.
      constructor; auto.
      eapply Permutation_Forall; [apply insertSorted_perm|].
      constructor; auto. lia.
Qed.

Lemma sort_desc (l : list A) : descendingBy key (sort cmp l).
Proof.
  induction l as [|x r IH]; simpl.
  - constructor.
  - now apply insertSorted_desc.
Qed.

Lemma insertSorted_tied (x : A) (l : list A) (t : Z) :
  tied key t (insertSorted cmp x l) = tied key t (x :: l).
Proof.
  unfold tied. induction l as [|y r IH]; simpl; auto.
  destruct (cmp x y <=? 0) eqn:E; simpl; auto.
  apply Z.leb_gt in E. unfold cmp in E.
  rewrite IH. simpl.
  destruct (key x =? t) eqn:Ex; auto.
  destruct (key y =? t) eqn:Ey; auto.
  apply Z.eqb_eq in Ex, Ey. lia.
Qed.

(** The sort is stable: records with the same key keep their order. *)
Lemma sort_tied (l : list A) (t : Z) : tied key t (sort cmp l) = tied key t l.
Proof.
  induction l as [|x r IH]; simpl; auto.
  rewrite insertSorted_tied. unfold tied in *. simpl. now rewrite IH.
Qed.

Lemma descendingBy_firstn (n : nat) (l : list A) :
  descendingBy key l -> descendingBy key (firstn n l).
Proof.
  unfold descendingBy. intros S. revert n.
  induction S as [|y r S IH F]; intros [|n]; simpl; try constructor; auto.
  rewrite Forall_forall in *. intros z I. apply F.
  eapply firstn_In; eauto.
Qed.

Lemma descendingBy_slice0 (e : Z) (l : list A) :
  descendingBy key l -> descendingBy key (slice0 l e).
Proof. unfold slice0. destruct (e <? 0); apply descendingBy_firstn. Qed.
End SortFacts.

(** The arrangement depends on the comparator only through what it
    answers for the elements of the array. *)
Lemma insertSorted_ext {A : Type} (cmp cmp' : A -> A -> Z) (x : A) (l : list A) :
  (forall y, In y l -> cmp x y = cmp' x y) ->
  insertSorted cmp x l = insertSorted cmp' x l.
Proof.
  induction l as [|y r IH]; simpl; intros E; auto.
  rewrite (E y) by now left.
  destruct (cmp' x y <=? 0); auto.
  f_equal. apply IH. intros z I. apply E. now right.
Qed.

Lemma sort_ext {A : Type} (cmp cmp' : A -> A -> Z) (l : list A) :
  (forall x y, In x l -> In y l -> cmp x y = cmp' x y) ->
  sort cmp l = sort cmp' l.
Proof.
  induction l as [|x r IH]; simpl; intros E; auto.
  rewrite IH by (intros; apply E; now right).
  apply insertSorted_ext. intros y I. apply E; [now left|right].
  eapply Permutation_in; [apply Permutation_sym, sort_elements|exact I].
Qed.

(** A comparator that is the difference of a numeric key is consistent. *)
Lemma consistent_byKey {A : Type} (key : A -> Z) (cmp : A -> A -> option Z)
  (l : list A) :
  (forall a b, In a l -> In b l -> cmp a b = Some (key b - key a)) ->
  consistent cmp l.
Proof.
  intros E. unfold consistent.
  split; [intros a b Ia Ib; now rewrite E|].
  split; [intros a Ia; rewrite E by assumption; simpl; lia|].
  split; [intros a b Ia Ib; rewrite !E by assumption; simpl; lia|].
  split; [intros a b c Ia Ib Ic; rewrite !E by assumption; simpl; lia|].
  split; intros a b c Ia Ib Ic; rewrite !E by assumption; simpl; lia.
Qed.

Section EngineSort.
Context {H : Host} {A : Type} (key : A -> Z).

(** With such a comparator every engine returns the stable arrangement by
    descending key. *)
Lemma arraySort_byKey (cmp : A -> A -> option Z) (l : list A) :
  (forall a b, In a l -> In b l -> cmp a b = Some (key b - key a)) ->
  arraySort cmp l = sort (fun a b => key b - key a) l.
Proof.
  intros E. rewrite arraySort_consistent by (eapply consistent_byKey; eauto).
  apply sort_ext. intros x y Ix Iy. now rewrite E.
Qed.
End EngineSort.

Lemma slice0_nonneg {A : Type} (l : list A) (n : Z) :
  0 <= n -> slice0 l n = firstn (Z.to_nat n) l.
Proof.
  intros Hn. unfold slice0.
  destruct (n <? 0) eqn:E; [apply Z.ltb_lt in E; lia|].
  destruct (Z.le_gt_cases n (Z.of_nat (List.length l))).
  - now rewrite Z.min_l.
  - rewrite Z.min_r by lia. rewrite Nat2Z.id.
    rewrite firstn_all. symmetry. apply firstn_all2. lia.
Qed.

(** ** Running methods *)

Section MonadFacts.

Lemma run_bind {A B : Type} (c : M A) (k : A -> M B) (w : World) :
  bind c k w = k (result c w) (after c w).
Proof. unfold bind, result, after. now destruct (c w). Qed.

Lemma result_bind {A B : Type} (c : M A) (k : A -> M B) (w : World) :
  result (bind c k) w = result (k (result c w)) (after c w).
Proof. unfold result at 1. now rewrite run_bind. Qed.

Lemma after_bind {A B : Type} (c : M A) (k : A -> M B) (w : World) :
  after (bind c k) w = after (k (result c w)) (after c w).
Proof. unfold after at 1. now rewrite run_bind. Qed.

Lemma readOnly_this {A : Type} (f : MemStorage -> A) : readOnly (this f).
Proof. intros w. reflexivity. Qed.

Lemma readOnly_ret {A : Type} (a : A) : readOnly (ret a).
Proof. intros w. reflexivity. Qed.

Lemma readOnly_bind {A B : Type} (c : M A) (k : A -> M B) :
  readOnly c -> (forall a, readOnly (k a)) -> readOnly (bind c k).
Proof. intros Hc Hk w. rewrite after_bind, Hk. apply Hc. Qed.

Lemma forPush_readOnly {A B : Type} (f : A -> M B) (xs : list A) (w : World) :
  (forall x, readOnly (f x)) ->
  forPush xs f w = (map (fun x => result (f x) w) xs, w).
Proof.
  intros Hf. induction xs as [|x r IH]; simpl; auto.
  rewrite run_bind, Hf. rewrite run_bind.
  unfold result at 2, after at 1. rewrite IH. reflexivity.
Qed.

Lemma forEach_update {A : Type} (f : A -> MemStorage -> MemStorage)
  (xs : list A) (w : World) :
  forEach xs (fun x => update (f x)) w =
  (tt, mkWorld (fold_left (fun s x => f x s) xs (store w)) (draws w) (reads w)).
Proof.
  revert w. induction xs as [|x r IH]; intros w; simpl.
  - now destruct w.
  - rewrite run_bind. rewrite IH. reflexivity.
Qed.
End MonadFacts.

(** ** The detail views *)

Ltac unfold_m := unfold bind, ret, this, update, randomUUID, newDate.

Section ViewFacts.
Context {H : Host}.

Lemma readOnly_lookupBy {A : Type} (get : string -> M (option A)) k :
  (forall k, readOnly (get k)) -> readOnly (lookupBy get k).
Proof. intros Hg. destruct k; simpl; [apply Hg|apply readOnly_ret]. Qed.

Lemma readOnly_getClient k : readOnly (getClient k).
Proof. apply readOnly_this. Qed.

Lemma readOnly_getSupplier k : readOnly (getSupplier k).
Proof. apply readOnly_this. Qed.

Lemma readOnly_getProduct k : readOnly (getProduct k).
Proof. apply readOnly_this. Qed.

Lemma readOnly_forPush {A B : Type} (f : A -> M B) (xs : list A) :
  (forall x, readOnly (f x)) -> readOnly (forPush xs f).
Proof.
  intros Hf w. unfold after. now rewrite forPush_readOnly.
Qed.

Lemma readOnly_buildOrderWithDetails order :
  readOnly (buildOrderWithDetails order).
Proof.
  unfold buildOrderWithDetails.
  repeat (apply readOnly_bind; [|intros ?]);
    try apply readOnly_this; try apply readOnly_ret;
    try (apply readOnly_lookupBy; intros; apply readOnly_this).
  apply readOnly_forPush. intros x.
  apply readOnly_bind; [apply readOnly_this|intros; apply readOnly_ret].
Qed.

Lemma readOnly_buildDeliveryWithDetails delivery :
  readOnly (buildDeliveryWithDetails delivery).
Proof.
  unfold buildDeliveryWithDetails.
  apply readOnly_bind; [apply readOnly_this|]. intros [o|].
  - repeat (apply readOnly_bind; [|intros ?]);
      try apply readOnly_ret;
      apply readOnly_lookupBy; intros; apply readOnly_this.
  - apply readOnly_ret.
Qed.

Lemma buildOrderWithDetails_order order w :
  OrderWithDetails.order (result (buildOrderWithDetails order) w) = order.
Proof.
  unfold buildOrderWithDetails.
  repeat (rewrite result_bind; cbv beta).
  reflexivity.
Qed.

Lemma buildDeliveryWithDetails_delivery delivery w :
  DeliveryWithDetails.delivery (result (buildDeliveryWithDetails delivery) w)
  = delivery.
Proof.
  unfold buildDeliveryWithDetails.
  rewrite result_bind. destruct (result (this _) w).
  - repeat (rewrite result_bind; cbv beta). reflexivity.
  - reflexivity.
Qed.

Lemma getOrders_run w :
  getOrders w =
  (sort (fun a b => OrderWithDetails.createdAt b - OrderWithDetails.createdAt a)
     (map (fun o => result (buildOrderWithDetails o) w)
          (JsMap.values (orders (store w)))), w).
Proof.
  unfold getOrders, bind, this.
  rewrite forPush_readOnly by apply readOnly_buildOrderWithDetails.
  unfold ret. f_equal.
  apply (arraySort_byKey OrderWithDetails.createdAt). reflexivity.
Qed.

Lemma getRecentOrders_run limit w :
  getRecentOrders limit w = (slice0 (result getOrders w) limit, w).
Proof.
  unfold getRecentOrders, bind, result.
  rewrite getOrders_run. reflexivity.
Qed.

Lemma getDeliveries_run w :
  getDeliveries w =
  (arraySort byScheduledDateDesc
     (map (fun d => result (buildDeliveryWithDetails d) w)
          (JsMap.values (deliveries (store w)))), w).
Proof.
  unfold getDeliveries, bind, this.
  rewrite forPush_readOnly by apply readOnly_buildDeliveryWithDetails.
  reflexivity.
Qed.

Lemma getTodayDeliveries_run w :
  getTodayDeliveries w =
  (let w' := mkWorld (store w) (draws w) (S (reads w)) in
   (map (fun d => result (buildDeliveryWithDetails d) w')
        (filter (scheduledToday (now_at (reads w)))
                (JsMap.values (deliveries (store w)))), w')).
Proof.
  unfold getTodayDeliveries, bind, this, newDate.
  rewrite forPush_readOnly by apply readOnly_buildDeliveryWithDetails.
  reflexivity.
Qed.

Lemma map_delivery_views (w : World) (ds : list Delivery.t) :
  map DeliveryWithDetails.delivery
      (map (fun d => result (buildDeliveryWithDetails d) w) ds) = ds.
Proof.
  rewrite map_map. rewrite <- (map_id ds) at 2. apply map_ext.
  intros d. apply buildDeliveryWithDetails_delivery.
Qed.

Lemma map_order_views (w : World) (os : list Order.t) :
  map OrderWithDetails.order
      (map (fun o => result (buildOrderWithDetails o) w) os) = os.
Proof.
  rewrite map_map. rewrite <- (map_id os) at 2. apply map_ext.
  intros o. apply buildOrderWithDetails_order.
Qed.
End ViewFacts.

(** ** Order of the lists *)

Lemma map_tied {A B : Type} (f : A -> B) (key : B -> Z) (t : Z) (l : list A) :
  map f (tied (fun a => key (f a)) t l) = tied key t (map f l).
Proof.
  unfold tied. induction l as [|x r IH]; simpl; auto.
  destruct (key (f x) =? t); simpl; now rewrite IH.
Qed.

Lemma descendingBy_map {A : Type} (key : A -> Z) (l : list A) :
  descendingBy key l -> StronglySorted (fun a b => b <= a) (map key l).
Proof.
  unfold descendingBy. induction 1 as [|x r S IH F]; simpl; constructor; auto.
  rewrite Forall_forall in *. intros z I. apply in_map_iff in I.
  destruct I as [y [<- I]]. auto.
Qed.

Lemma descendingByTime_valid {A : Type} (key : A -> option Z) (l : list A) :
  Forall (fun a => key a <> None) l ->
  descendingBy (fun a => timeValue (key a)) l ->
  descendingByTime key l.
Proof.
  unfold descendingBy, descendingByTime.
  intros V S. induction S as [|x r S IH F]; constructor.
  - apply IH. now inversion V.
  - inversion V as [|? ? Vx Vr]; subst.
    rewrite Forall_forall in *. intros y I.
    pose proof (F y I) as L. pose proof (Vr y I) as Vy.
    destruct (key x), (key y); try contradiction. exact L.
Qed.

Lemma tiedAt_valid {A : Type} (key : A -> option Z) (t : Z) (l : list A) :
  Forall (fun a => key a <> None) l ->
  tiedAt key t l = tied (fun a => timeValue (key a)) t l.
Proof.
  unfold tiedAt, tied. intros V. apply filter_ext_in.
  rewrite Forall_forall in V. intros a I. pose proof (V a I).
  destruct (key a); [reflexivity|contradiction].
Qed.

Lemma descendingByTime_map {A : Type} (key : A -> option Z) (l : list A) :
  descendingByTime key l ->
  StronglySorted
    (fun a b => match a, b with Some x, Some y => y <= x | _, _ => False end)
    (map key l).
Proof.
  unfold descendingByTime. induction 1 as [|x r S IH F]; simpl; constructor; auto.
  rewrite Forall_forall in *. intros z I. apply in_map_iff in I.
  destruct I as [y [<- I]]. now apply F.
Qed.

Section ListOrder.
Context {H : Host}.

Lemma getOrders_descending w :
  descendingBy OrderWithDetails.createdAt (result getOrders w).
Proof. unfold result. rewrite getOrders_run. apply sort_desc. Qed.

Lemma getOrders_all w :
  Permutation (JsMap.values (orders (store w)))
              (map OrderWithDetails.order (result getOrders w)).
Proof.
  unfold result. rewrite getOrders_run. simpl.
  rewrite <- (map_order_views w (JsMap.values (orders (store w)))) at 1.
  apply Permutation_map.
  apply (sort_perm OrderWithDetails.createdAt).
Qed.

Lemma getOrders_ties w t :
  map OrderWithDetails.order
      (tied OrderWithDetails.createdAt t (result getOrders w))
  = tied Order.createdAt t (JsMap.values (orders (store w))).
Proof.
  unfold result. rewrite getOrders_run. simpl.
  rewrite (sort_tied OrderWithDetails.createdAt).
  unfold OrderWithDetails.createdAt.
  rewrite (map_tied OrderWithDetails.order Order.createdAt).
  now rewrite map_order_views.
Qed.

Lemma getDeliveries_all w :
  Permutation (JsMap.values (deliveries (store w)))
              (map DeliveryWithDetails.delivery (result getDeliveries w)).
Proof.
  unfold result. rewrite getDeliveries_run. simpl.
  rewrite <- (map_delivery_views w (JsMap.values (deliveries (store w)))) at 1.
  apply Permutation_map, arraySort_elements.
Qed.

Lemma scheduledAt_view (w : World) (d : Delivery.t) :
  DeliveryWithDetails.scheduledAt (result (buildDeliveryWithDetails d) w)
  = Delivery.scheduledAt d.
Proof.
  unfold DeliveryWithDetails.scheduledAt.
  now rewrite buildDeliveryWithDetails_delivery.
Qed.

(** While every stored date is valid the comparator of [getDeliveries] is
    the difference of the time values. *)
Lemma getDeliveries_run_valid w :
  validDates (store w) ->
  getDeliveries w =
  (sort (fun a b => timeValue (DeliveryWithDetails.scheduledAt b)
                    - timeValue (DeliveryWithDetails.scheduledAt a))
     (map (fun d => result (buildDeliveryWithDetails d) w)
          (JsMap.values (deliveries (store w)))), w).
Proof.
  intros V. rewrite getDeliveries_run. f_equal.
  apply (arraySort_byKey (fun v => timeValue (DeliveryWithDetails.scheduledAt v))).
  unfold validDates in V. rewrite Forall_forall in V.
  intros a b Ia Ib. apply in_map_iff in Ia, Ib.
  destruct Ia as [da [<- Ia]]. destruct Ib as [db [<- Ib]].
  unfold byScheduledDateDesc. rewrite !scheduledAt_view.
  pose proof (V _ Ia). pose proof (V _ Ib).
  destruct (Delivery.scheduledAt da), (Delivery.scheduledAt db);
    try contradiction; reflexivity.
Qed.

Lemma getDeliveries_descending w :
  validDates (store w) ->
  descendingByTime DeliveryWithDetails.scheduledAt (result getDeliveries w).
Proof.
  intros V. unfold result. rewrite getDeliveries_run_valid by assumption.
  cbn [fst]. apply descendingByTime_valid.
  - rewrite Forall_forall. intros v I.
    eapply Permutation_in in I; [|apply Permutation_sym, sort_elements].
    apply in_map_iff in I. destruct I as [d [<- I]].
    rewrite scheduledAt_view.
    unfold validDates in V. rewrite Forall_forall in V. now apply V.
  - apply (sort_desc (fun v => timeValue (DeliveryWithDetails.scheduledAt v))).
Qed.

Lemma getDeliveries_ties w t :
  validDates (store w) ->
  map DeliveryWithDetails.delivery
      (tiedAt DeliveryWithDetails.scheduledAt t (result getDeliveries w))
  = tiedAt Delivery.scheduledAt t (JsMap.values (deliveries (store w))).
Proof.
  intros V. unfold result. rewrite getDeliveries_run_valid by assumption.
  cbn [fst].
  assert (VV : forall l,
    Forall (fun d => Delivery.scheduledAt d <> None) l ->
    tiedAt Delivery.scheduledAt t l
    = tied (fun d => timeValue (Delivery.scheduledAt d)) t l).
  { intros l F. apply tiedAt_valid. exact F. }
  rewrite VV by exact V.
  rewrite tiedAt_valid.
  - rewrite (sort_tied (fun v => timeValue (DeliveryWithDetails.scheduledAt v))).
    unfold DeliveryWithDetails.scheduledAt.
    rewrite (map_tied DeliveryWithDetails.delivery
               (fun d => timeValue (Delivery.scheduledAt d))).
    now rewrite map_delivery_views.
  - rewrite Forall_forall. intros v I.
    eapply Permutation_in in I; [|apply Permutation_sym, sort_elements].
    apply in_map_iff in I. destruct I as [d [<- I]].
    rewrite scheduledAt_view.
    unfold validDates in V. rewrite Forall_forall in V. now apply V.
Qed.

Lemma getTodayDeliveries_deliveries w :
  map DeliveryWithDetails.delivery (result getTodayDeliveries w)
  = filter (scheduledToday (now_at (reads w)))
           (JsMap.values (deliveries (store w))).
Proof.
  unfold result. rewrite getTodayDeliveries_run. simpl.
  apply map_delivery_views.
Qed.

(** X25: [getOrders] and [getRecentOrders] return the orders newest first
    by [createdAt]; [getOrders] holds every stored order, and orders with
    equal timestamps keep their insertion order.  [getDeliveries] holds
    every stored delivery; while every stored [scheduledDate] is a valid
    date it returns them by [scheduledDate] descending, equal dates in
    insertion order.  [getTodayDeliveries] returns today's deliveries in
    insertion order. *)
Theorem lists_newest_first (w : World) :
  (descendingBy OrderWithDetails.createdAt (result getOrders w)
   /\ Permutation (JsMap.values (orders (store w)))
                  (map OrderWithDetails.order (result getOrders w))
   /\ forall t,
        map OrderWithDetails.order
            (tied OrderWithDetails.createdAt t (result getOrders w))
        = tied Order.createdAt t (JsMap.values (orders (store w))))
  /\ (forall limit,
        descendingBy OrderWithDetails.createdAt
                     (result (getRecentOrders limit) w))
  /\ Permutation (JsMap.values (deliveries (store w)))
                 (map DeliveryWithDetails.delivery (result getDeliveries w))
  /\ (validDates (store w) ->
      descendingByTime DeliveryWithDetails.scheduledAt (result getDeliveries w)
      /\ forall t,
           map DeliveryWithDetails.delivery
               (tiedAt DeliveryWithDetails.scheduledAt t (result getDeliveries w))
           = tiedAt Delivery.scheduledAt t (JsMap.values (deliveries (store w))))
  /\ map DeliveryWithDetails.delivery (result getTodayDeliveries w)
     = filter (scheduledToday (now_at (reads w)))
              (JsMap.values (deliveries (store w))).
Proof.
  split; [split; [|split]|split; [|split; [|split]]].
  - apply getOrders_descending.
  - apply getOrders_all.
  - apply getOrders_ties.
  - intros limit. unfold result. rewrite getRecentOrders_run. simpl.
    apply descendingBy_slice0, getOrders_descending.
  - apply getDeliveries_all.
  - intros V. split.
    + now apply getDeliveries_descending.
    + intros t. now apply getDeliveries_ties.
  - apply getTodayDeliveries_deliveries.
Qed.

(** C6, as amended: for every limit [n >= 0], [getRecentOrders n] returns
    at most [n] orders, newest first, and they are the first [n] elements of
    what [getOrders] returns. *)
Theorem getRecentOrders_prefix (n : Z) (w : World) :
  0 <= n ->
  Z.of_nat (List.length (result (getRecentOrders n) w)) <= n
  /\ descendingBy OrderWithDetails.createdAt (result (getRecentOrders n) w)
  /\ result (getRecentOrders n) w = firstn (Z.to_nat n) (result getOrders w).
Proof.
  intros Hn. unfold result at 1 2 3. rewrite getRecentOrders_run. simpl.
  rewrite slice0_nonneg by assumption.
  repeat split.
  - rewrite length_firstn. lia.
  - apply descendingBy_firstn, getOrders_descending.
Qed.

(** C7: called at clock reading [now], [getTodayDeliveries] returns exactly
    the deliveries whose [scheduledDate] lies in the half-open interval from
    local midnight of that day to the next local midnight, each once and as
    its detail view; a delivery scheduled before that midnight (the minute
    before it, say) or exactly at the next midnight is not returned, and
    neither is one whose [scheduledDate] is [undefined] or an Invalid
    Date. *)
Theorem getTodayDeliveries_window (w : World) :
  let now := now_at (reads w) in
  let today := startOfDay now in
  let tomorrow := addDays today 1 in
  let returned := map DeliveryWithDetails.delivery (result getTodayDeliveries w) in
  returned
    = filter (fun d => match Delivery.scheduledDate d with
                       | Some (dateAt t) => (today <=? t) && (t <? tomorrow)
                       | _ => false
                       end)
             (JsMap.values (deliveries (store w)))
  /\ (forall d, In d returned <->
                In d (JsMap.values (deliveries (store w)))
                /\ exists t, Delivery.scheduledDate d = Some (dateAt t)
                             /\ today <= t < tomorrow)
  /\ (forall d, Delivery.scheduledDate d = Some (dateAt (today - 60000)) ->
        ~ In d returned)
  /\ (forall d, Delivery.scheduledDate d = Some (dateAt tomorrow) ->
        ~ In d returned)
  /\ (forall d, Delivery.scheduledDate d = None
                \/ Delivery.scheduledDate d = Some invalidDate ->
        ~ In d returned)
  /\ (forall v, In v (result getTodayDeliveries w) ->
        v = result (buildDeliveryWithDetails (DeliveryWithDetails.delivery v))
                   (after getTodayDeliveries w)).
Proof.
  intros now today tomorrow returned.
  assert (E : returned
    = filter (fun d => match Delivery.scheduledDate d with
                       | Some (dateAt t) => (today <=? t) && (t <? tomorrow)
                       | _ => false
                       end)
             (JsMap.values (deliveries (store w)))).
  { unfold returned. rewrite getTodayDeliveries_deliveries.
    apply filter_ext. intros d.
    unfold scheduledToday, scheduledWithin, Delivery.scheduledAt.
    destruct (Delivery.scheduledDate d) as [[t|]|]; reflexivity. }
  assert (I : forall d, In d returned <->
                In d (JsMap.values (deliveries (store w)))
                /\ exists t, Delivery.scheduledDate d = Some (dateAt t)
                             /\ today <= t < tomorrow).
  { intros d. rewrite E, filter_In.
    destruct (Delivery.scheduledDate d) as [[t|]|].
    - rewrite andb_true_iff, Z.leb_le, Z.ltb_lt. split.
      + intros [I L]. split; [exact I|]. exists t. now split.
      + intros [I [t' [[= <-] L]]]. now split.
    - split; [intros [_ [=]]|intros [_ [t' [[=] _]]]].
    - split; [intros [_ [=]]|intros [_ [t' [[=] _]]]]. }
  split; [exact E|]. split; [exact I|].
  split; [|split; [|split]].
  - intros d Hd Hin. apply I in Hin. destruct Hin as [_ [t [Ht L]]].
    rewrite Hd in Ht. injection Ht as <-. lia.
  - intros d Hd Hin. apply I in Hin. destruct Hin as [_ [t [Ht L]]].
    rewrite Hd in Ht. injection Ht as <-. lia.
  - intros d Hd Hin. apply I in Hin. destruct Hin as [_ [t [Ht L]]].
    destruct Hd as [Hd|Hd]; rewrite Hd in Ht; discriminate.
  - intros v Hin. unfold result, after in *. rewrite getTodayDeliveries_run in *.
    simpl in *. apply in_map_iff in Hin. destruct Hin as [d [<- _]].
    now rewrite buildDeliveryWithDetails_delivery.
Qed.
End ListOrder.

(** X25, on the sample rows: their scheduled dates are valid, and
    [getDeliveries] returns the two deliveries of the day the process
    started on before the one of two days earlier. *)
Lemma lists_newest_first_witness :
  validDates (store boot)
  /\ descendingByTime DeliveryWithDetails.scheduledAt (result getDeliveries boot)
  /\ map DeliveryWithDetails.scheduledAt (result getDeliveries boot)
     = [Some 1793534400000; Some 1793534400000; Some 1793361600000].
Proof.
  assert (V : validDates (store boot))
    by (unfold validDates; vm_compute; repeat constructor; discriminate).
  destruct (lists_newest_first boot) as [_ [_ [_ [S _]]]].
  split; [exact V|]. split; [apply S, V|]. vm_compute. reflexivity.
Defined.

(** C6, at a limit of 2 on the sample rows. *)
Lemma getRecentOrders_prefix_witness :
  0 <= 2
  /\ Z.of_nat (List.length (result (getRecentOrders 2) boot)) <= 2
  /\ descendingBy OrderWithDetails.createdAt (result (getRecentOrders 2) boot)
  /\ result (getRecentOrders 2) boot = firstn 2 (result getOrders boot).
Proof.
  split; [lia|]. apply (getRecentOrders_prefix 2 boot). lia.
Defined.

(** C5 fails on the code: [getTodayDeliveries] leaves out the sort that
    [getDeliveries] applies.  After one more delivery is scheduled for 14:00
    of the day the process started on, [getTodayDeliveries] returns the two
    sample deliveries of 12:00 before it, so its list is not in descending
    order of [scheduledDate], while [getDeliveries] returns the delivery of
    14:00 first. *)
Theorem getTodayDeliveries_not_descending :
  map DeliveryWithDetails.scheduledAt
      (result getTodayDeliveries worldWithAfternoonDelivery)
  = [Some 1793534400000; Some 1793534400000; Some 1793541600000]
  /\ ~ descendingByTime DeliveryWithDetails.scheduledAt
         (result getTodayDeliveries worldWithAfternoonDelivery)
  /\ map DeliveryWithDetails.scheduledAt
         (result getDeliveries worldWithAfternoonDelivery)
     = [Some 1793541600000; Some 1793534400000; Some 1793534400000;
        Some 1793361600000].
Proof.
  assert (E : map DeliveryWithDetails.scheduledAt
      (result getTodayDeliveries worldWithAfternoonDelivery)
      = [Some 1793534400000; Some 1793534400000; Some 1793541600000])
    by (vm_compute; reflexivity).
  split; [exact E|]. split.
  - intros S. apply descendingByTime_map in S. rewrite E in S.
    inversion S as [|? ? _ F]; subst.
    inversion F as [|? ? _ F']; subst.
    inversion F' as [|? ? L _]; subst. lia.
  - vm_compute. reflexivity.
Qed.

(** C6 as stated fails for a negative limit: [slice(0, -1)] drops the last
    of the three sample orders and returns two. *)
Lemma getRecentOrders_negative_limit :
  List.length (result (getRecentOrders (-1)) boot) = 2%nat
  /\ ~ (Z.of_nat (List.length (result (getRecentOrders (-1)) boot)) <= -1).
Proof.
  assert (E : List.length (result (getRecentOrders (-1)) boot) = 2%nat)
    by (vm_compute; reflexivity).
  split; [exact E|]. rewrite E. simpl. lia.
Qed.

(** ** The delivered timestamp *)

Section DeliveredAt.
Context {H : Host}.

Lemma forEach_app {A : Type} (xs ys : list A) (body : A -> M unit) (w : World) :
  after (forEach (xs ++ ys) body) w = after (forEach ys body) (after (forEach xs body) w).
Proof.
  revert w. induction xs as [|x r IH]; intros w; simpl; auto.
  rewrite !after_bind. apply IH.
Qed.

Lemma updateDelivery_run id data w :
  updateDelivery id data w =
  match JsMap.get (deliveries (store w)) id with
  | None => (None, w)
  | Some d =>
      let stamps := statusIsDelivered data && notDelivered d in
      let updated :=
        withDeliveredAt (spreadPatchDelivery d data)
          (if stamps then Some (now_at (reads w)) else Delivery.deliveredAt d) in
      (Some updated,
       mkWorld (setDeliveries (JsMap.set id updated) (store w)) (draws w)
               (if stamps then S (reads w) else reads w))
  end.
Proof.
  unfold updateDelivery. unfold_m.
  destruct (JsMap.get (deliveries (store w)) id) as [d|]; [|reflexivity].
  simpl. destruct (statusIsDelivered data && notDelivered d); reflexivity.
Qed.

Lemma deliveredAtOf_updateDelivery id id' data w :
  deliveredAtOf id (after (updateDelivery id' data) w) =
  match JsMap.get (deliveries (store w)) id' with
  | Some d =>
      if String.eqb id' id
      then Some (if statusIsDelivered data && notDelivered d
                 then Some (now_at (reads w)) else Delivery.deliveredAt d)
      else deliveredAtOf id w
  | None => deliveredAtOf id w
  end.
Proof.
  unfold after. rewrite updateDelivery_run.
  destruct (JsMap.get (deliveries (store w)) id') as [d|] eqn:G; [|reflexivity].
  unfold deliveredAtOf. simpl.
  destruct (String.eqb id' id) eqn:E.
  - apply String.eqb_eq in E. subst id'.
    now rewrite JsMapFacts.get_set_same.
  - rewrite JsMapFacts.get_set_other; auto.
    intros ->. now rewrite String.eqb_refl in E.
Qed.

(** One update never changes a timestamp that is set. *)
Lemma updateDelivery_keeps id id' data w t :
  deliveredAtOf id w = Some (Some t) ->
  deliveredAtOf id (after (updateDelivery id' data) w) = Some (Some t).
Proof.
  intros D. rewrite deliveredAtOf_updateDelivery.
  destruct (JsMap.get (deliveries (store w)) id') as [d|] eqn:G; auto.
  destruct (String.eqb id' id) eqn:E; auto.
  apply String.eqb_eq in E. subst id'.
  unfold deliveredAtOf in D. rewrite G in D. simpl in D.
  injection D as D. unfold notDelivered. rewrite D.
  now rewrite andb_false_r.
Qed.

Lemma updateDelivery_leaves_unset id c w :
  deliveredAtOf id w = Some None ->
  marksDelivered id c = false ->
  deliveredAtOf id (after (updateDelivery (fst c) (snd c)) w) = Some None.
Proof.
  intros D N. rewrite deliveredAtOf_updateDelivery.
  destruct (JsMap.get (deliveries (store w)) (fst c)) as [d|] eqn:G; auto.
  unfold marksDelivered in N.
  destruct (String.eqb (fst c) id) eqn:E; auto.
  simpl in N. rewrite N. simpl.
  apply String.eqb_eq in E. rewrite E in G.
  unfold deliveredAtOf in D. rewrite G in D. exact D.
Qed.

Lemma updateDelivery_stamps id data w :
  deliveredAtOf id w = Some None ->
  statusIsDelivered data = true ->
  deliveredAtOf id (after (updateDelivery id data) w)
  = Some (Some (now_at (reads w))).
Proof.
  intros D S. rewrite deliveredAtOf_updateDelivery.
  unfold deliveredAtOf in D.
  destruct (JsMap.get (deliveries (store w)) id) as [d|] eqn:G; [|discriminate].
  simpl in D. injection D as D.
  rewrite String.eqb_refl, S. unfold notDelivered. now rewrite D.
Qed.

Lemma updateDeliveries_cons c calls w :
  after (updateDeliveries (c :: calls)) w
  = after (updateDeliveries calls) (after (updateDelivery (fst c) (snd c)) w).
Proof.
  unfold updateDeliveries. simpl. rewrite !after_bind. reflexivity.
Qed.

Lemma updateDeliveries_keep id calls w t :
  deliveredAtOf id w = Some (Some t) ->
  deliveredAtOf id (after (updateDeliveries calls) w) = Some (Some t).
Proof.
  revert w. induction calls as [|c r IH]; intros w D; [exact D|].
  rewrite updateDeliveries_cons. apply IH. now apply updateDelivery_keeps.
Qed.

Lemma updateDeliveries_leave_unset id calls w :
  deliveredAtOf id w = Some None ->
  forallb (fun c => negb (marksDelivered id c)) calls = true ->
  deliveredAtOf id (after (updateDeliveries calls) w) = Some None.
Proof.
  revert w. induction calls as [|c r IH]; intros w D F; [exact D|].
  simpl in F. apply andb_true_iff in F. destruct F as [F1 F2].
  apply negb_true_iff in F1.
  rewrite updateDeliveries_cons. apply IH; auto.
  now apply updateDelivery_leaves_unset.
Qed.

(** C1: [deliveredAt] is set exactly once.  Take a stored delivery whose
    [deliveredAt] is unset and any sequence of [updateDelivery] calls in
    which [(id, data)] is the first that patches it with status "delivered":
    the calls before it leave [deliveredAt] unset, that call stamps the
    clock reading taken during it, which is no earlier than any reading
    taken before the call, and whatever calls follow, a second "delivered"
    among them or not, the stamp stays as it is. *)
Theorem deliveredAt_set_once (w : World) (id : string)
  (pre : list (string * PatchDelivery.t)) (data : PatchDelivery.t)
  (post : list (string * PatchDelivery.t)) :
  (forall i j, (i <= j)%nat -> now_at i <= now_at j) ->
  deliveredAtOf id w = Some None ->
  forallb (fun c => negb (marksDelivered id c)) pre = true ->
  statusIsDelivered data = true ->
  let atCall := after (updateDeliveries pre) w in
  let stamp := now_at (reads atCall) in
  deliveredAtOf id atCall = Some None
  /\ (forall k, (k < reads atCall)%nat -> now_at k <= stamp)
  /\ deliveredAtOf id (after (updateDelivery id data) atCall) = Some (Some stamp)
  /\ deliveredAtOf id (after (updateDeliveries (pre ++ (id, data) :: post)) w)
     = Some (Some stamp).
Proof.
  intros mono D F S atCall stamp.
  assert (U : deliveredAtOf id atCall = Some None)
    by now apply updateDeliveries_leave_unset.
  assert (T : deliveredAtOf id (after (updateDelivery id data) atCall)
              = Some (Some stamp))
    by now apply updateDelivery_stamps.
  repeat split; auto.
  - intros k Hk. apply mono. lia.
  - unfold updateDeliveries. rewrite forEach_app.
    fold (updateDeliveries pre). fold atCall.
    change (forEach ((id, data) :: post)
              (fun c => updateDelivery (fst c) (snd c);;; ret tt))
      with (updateDeliveries ((id, data) :: post)).
    rewrite updateDeliveries_cons. simpl.
    now apply updateDeliveries_keep.
Qed.

(** C10: a caller cannot set [deliveredAt].  [createDelivery] stores [null]
    whatever [deliveredAt] the input carries, and [updateDelivery] ignores the
    [deliveredAt] of the patch: the stored value is the one that was there,
    or the clock reading of the call when the patch carries status
    "delivered" and none was there. *)
Theorem deliveredAt_not_settable (w : World) :
  (forall ins,
     let d := result (createDelivery ins) w in
     Delivery.deliveredAt d = None
     /\ JsMap.get (deliveries (store (after (createDelivery ins) w)))
                  (Delivery.id d) = Some d)
  /\ (forall ins x,
        createDelivery (insertWithDeliveredAt ins x) w = createDelivery ins w)
  /\ (forall id data x,
        updateDelivery id (patchWithDeliveredAt data x) w
        = updateDelivery id data w)
  /\ (forall id data d,
        JsMap.get (deliveries (store w)) id = Some d ->
        exists d',
          result (updateDelivery id data) w = Some d'
          /\ JsMap.get (deliveries (store (after (updateDelivery id data) w))) id
             = Some d'
          /\ (Delivery.deliveredAt d' = Delivery.deliveredAt d
              \/ (Delivery.deliveredAt d' = Some (now_at (reads w))
                  /\ Delivery.deliveredAt d = None
                  /\ statusIsDelivered data = true))).
Proof.
  split; [|split; [|split]].
  - intros ins d. split; [reflexivity|].
    unfold d, result, after, createDelivery. unfold_m. simpl.
    apply JsMapFacts.get_set_same.
  - reflexivity.
  - intros id data x. rewrite !updateDelivery_run.
    destruct (JsMap.get (deliveries (store w)) id); reflexivity.
  - intros id data d G. unfold result, after. rewrite updateDelivery_run, G.
    simpl. eexists. split; [reflexivity|]. split.
    + apply JsMapFacts.get_set_same.
    + simpl. destruct (statusIsDelivered data) eqn:S; simpl; auto.
      unfold notDelivered. destruct (Delivery.deliveredAt d) eqn:E; auto.
Qed.
End DeliveredAt.

(** C1, on the sample rows: the first sample delivery is stamped by the
    third call of the sequence, at the third clock reading of the process. *)
Lemma deliveredAt_set_once_witness :
  let atCall := after (updateDeliveries calls_before) boot in
  let stamp := now_at (reads atCall) in
  deliveredAtOf "id-35" atCall = Some None
  /\ (forall k, (k < reads atCall)%nat -> now_at k <= stamp)
  /\ deliveredAtOf "id-35"
       (after (updateDelivery "id-35" (statusPatch "delivered")) atCall)
     = Some (Some stamp)
  /\ deliveredAtOf "id-35"
       (after (updateDeliveries
                 (calls_before ++ ("id-35", statusPatch "delivered") :: calls_after))
              boot)
     = Some (Some stamp).
Proof.
  apply (deliveredAt_set_once boot "id-35" calls_before
           (statusPatch "delivered") calls_after).
  - intros i j Hij.
    change (1793534400000 + 60000 * Z.of_nat i
            <= 1793534400000 + 60000 * Z.of_nat j).
    lia.
  - vm_compute. reflexivity.
  - vm_compute. reflexivity.
  - reflexivity.
Defined.

(** ** Deleting an order *)

Section DeleteOrder.
Context {H : Host}.

Lemma fold_removeItems xs s :
  fold_left (fun s x => setOrderItems (JsMap.remove (OrderItem.id x)) s) xs s
  = setOrderItems (JsMap.removeEach OrderItem.id xs) s.
Proof.
  revert s. induction xs as [|x r IH]; intros s; simpl.
  - now destruct s.
  - rewrite IH. reflexivity.
Qed.

Lemma fold_removeDeliveries xs s :
  fold_left (fun s x => setDeliveries (JsMap.remove (Delivery.id x)) s) xs s
  = setDeliveries (JsMap.removeEach Delivery.id xs) s.
Proof.
  revert s. induction xs as [|x r IH]; intros s; simpl.
  - now destruct s.
  - rewrite IH. reflexivity.
Qed.

Lemma fold_removeInvoices xs s :
  fold_left (fun s x => setInvoices (JsMap.remove (Invoice.id x)) s) xs s
  = setInvoices (JsMap.removeEach Invoice.id xs) s.
Proof.
  revert s. induction xs as [|x r IH]; intros s; simpl.
  - now destruct s.
  - rewrite IH. reflexivity.
Qed.

Lemma cascade_run id w :
  cascade id w = (tt, mkWorld (cascaded id (store w)) (draws w) (reads w)).
Proof.
  unfold cascade, bind, this.
  rewrite forEach_update, fold_removeItems. cbn [store draws reads].
  rewrite forEach_update, fold_removeDeliveries. cbn [store draws reads].
  rewrite forEach_update, fold_removeInvoices. cbn [store draws reads].
  reflexivity.
Qed.

Lemma deleteOrder_run id w :
  deleteOrder id w =
  (JsMap.has (orders (store w)) id,
   mkWorld (setOrders (JsMap.remove id) (cascaded id (store w)))
           (draws w) (reads w)).
Proof.
  unfold deleteOrder, bind, this.
  rewrite forEach_update, fold_removeItems. cbn [store draws reads].
  rewrite forEach_update, fold_removeDeliveries. cbn [store draws reads].
  rewrite forEach_update, fold_removeInvoices. cbn [store draws reads].
  reflexivity.
Qed.
End DeleteOrder.

Lemma wellKeyed_dependents s :
  wellKeyed s = true ->
  (JsMap.uniqueKeys (orderItems s) = true
   /\ JsMap.keyed OrderItem.id (orderItems s) = true)
  /\ (JsMap.uniqueKeys (deliveries s) = true
      /\ JsMap.keyed Delivery.id (deliveries s) = true)
  /\ (JsMap.uniqueKeys (invoices s) = true
      /\ JsMap.keyed Invoice.id (invoices s) = true).
Proof.
  unfold wellKeyed. rewrite !andb_true_iff. tauto.
Qed.

Lemma filter_values_without {V : Type} (p : V -> bool) (m : JsMap.t V) :
  filter p (JsMap.values (without p m)) = [].
Proof.
  unfold without, JsMap.values. induction m as [|e r IH]; simpl; auto.
  destruct (p (snd e)) eqn:P; simpl; auto. now rewrite P.
Qed.

Lemma without_none {V : Type} (p : V -> bool) (m : JsMap.t V) :
  filter p (JsMap.values m) = [] -> without p m = m.
Proof.
  unfold without, JsMap.values. induction m as [|e r IH]; simpl; auto.
  destruct (p (snd e)) eqn:P; simpl; [discriminate|].
  intros E. now rewrite IH.
Qed.

Lemma cascaded_wellKeyed id s :
  wellKeyed s = true ->
  cascaded id s =
  mkStorage (users s) (clients s) (products s) (suppliers s) (orders s)
    (without (itemOf id) (orderItems s))
    (without (deliveryOf id) (deliveries s))
    (without (invoiceOf id) (invoices s))
    (orderCounter s).
Proof.
  intros W. apply wellKeyed_dependents in W.
  destruct W as [[U1 K1] [[U2 K2] [U3 K3]]].
  unfold cascaded, without.
  rewrite !JsMapFacts.removeEach_matching by assumption. reflexivity.
Qed.

Lemma cascaded_noDependents id s : noDependents id s -> cascaded id s = s.
Proof.
  intros [E1 [E2 E3]]. unfold cascaded. rewrite E1, E2, E3.
  now destruct s.
Qed.

Lemma setOrders_remove_absent id s :
  JsMap.has (orders s) id = false -> setOrders (JsMap.remove id) s = s.
Proof.
  intros Hhas. destruct s. unfold setOrders. simpl in *.
  now rewrite JsMapFacts.remove_absent.
Qed.

Section DeleteOrderClaims.
Context {H : Host}.

(** C2: for an order that exists, [deleteOrder] first removes every order
    item, delivery and invoice whose [orderId] is the order's (the order is
    still stored at that point), then removes the order, and returns [true].
    Afterwards [getOrderItems], [getInvoices] and a scan of the deliveries
    by that [orderId] find nothing; the records of other orders and all
    other maps are as before. *)
Theorem deleteOrder_cascades (w : World) (id : string) (o : Order.t) :
  wellKeyed (store w) = true ->
  JsMap.get (orders (store w)) id = Some o ->
  let mid := after (cascade id) w in
  let w' := after (deleteOrder id) w in
  (JsMap.get (orders (store mid)) id = Some o
   /\ noDependents id (store mid)
   /\ deleteOrder id w = (true, mkWorld (setOrders (JsMap.remove id) (store mid))
                                        (draws mid) (reads mid)))
  /\ result (deleteOrder id) w = true
  /\ result (getOrder id) w' = None
  /\ result (getOrderItems id) w' = []
  /\ result (getInvoices id) w' = []
  /\ filter (deliveryOf id) (JsMap.values (deliveries (store w'))) = []
  /\ store w' =
     mkStorage (users (store w)) (clients (store w)) (products (store w))
       (suppliers (store w)) (JsMap.remove id (orders (store w)))
       (without (itemOf id) (orderItems (store w)))
       (without (deliveryOf id) (deliveries (store w)))
       (without (invoiceOf id) (invoices (store w)))
       (orderCounter (store w)).
Proof.
  intros W G mid w'.
  assert (Hhas : JsMap.has (orders (store w)) id = true)
    by (unfold JsMap.has; now rewrite G).
  assert (Emid : mid = mkWorld (cascaded id (store w)) (draws w) (reads w))
    by (unfold mid, after; now rewrite cascade_run).
  assert (Ew' : w' = mkWorld (setOrders (JsMap.remove id) (cascaded id (store w)))
                            (draws w) (reads w))
    by (unfold w', after; now rewrite deleteOrder_run).
  pose proof (cascaded_wellKeyed id (store w) W) as C.
  split; [|split; [|split; [|split; [|split; [|split]]]]].
  - split; [|split].
    + rewrite Emid. cbn [store]. rewrite C. exact G.
    + rewrite Emid. cbn [store]. rewrite C.
      repeat split; apply filter_values_without.
    + rewrite deleteOrder_run, Hhas, Emid. reflexivity.
  - unfold result. now rewrite deleteOrder_run.
  - rewrite Ew'. unfold result, getOrder, bind, this. cbn [store fst snd].
    unfold setOrders. cbn [orders].
    now rewrite JsMapFacts.get_remove_same.
  - rewrite Ew', C. unfold result, getOrderItems, this. cbn.
    apply (filter_values_without (itemOf id)).
  - rewrite Ew', C. unfold result, getInvoices, this. cbn.
    apply (filter_values_without (invoiceOf id)).
  - rewrite Ew', C. cbn. apply filter_values_without.
  - rewrite Ew', C. reflexivity.
Qed.

(** C3, as amended: for an [id] under which no order is stored,
    [deleteOrder] returns [false] and leaves the orders and every map other
    than the three dependent ones as they are; the cascade runs all the same
    and removes the order items, deliveries and invoices whose [orderId] is
    [id]; the storage state is unchanged when there are none. *)
Theorem deleteOrder_unknown_id (w : World) (id : string) :
  JsMap.get (orders (store w)) id = None ->
  let w' := after (deleteOrder id) w in
  result (deleteOrder id) w = false
  /\ w' = mkWorld (cascaded id (store w)) (draws w) (reads w)
  /\ (noDependents id (store w) -> w' = w)
  /\ (wellKeyed (store w) = true ->
      store w' =
      mkStorage (users (store w)) (clients (store w)) (products (store w))
        (suppliers (store w)) (orders (store w))
        (without (itemOf id) (orderItems (store w)))
        (without (deliveryOf id) (deliveries (store w)))
        (without (invoiceOf id) (invoices (store w)))
        (orderCounter (store w))).
Proof.
  intros G w'.
  assert (Hhas : JsMap.has (orders (store w)) id = false)
    by (unfold JsMap.has; now rewrite G).
  assert (Ew' : w' = mkWorld (cascaded id (store w)) (draws w) (reads w)).
  { unfold w', after. rewrite deleteOrder_run. cbn [snd]. f_equal.
    now apply setOrders_remove_absent. }
  split; [|split; [|split]].
  - unfold result. rewrite deleteOrder_run. exact Hhas.
  - exact Ew'.
  - intros N. rewrite Ew', (cascaded_noDependents _ _ N). now destruct w.
  - intros W. rewrite Ew'. cbn [store]. now apply cascaded_wellKeyed.
Qed.
End DeleteOrderClaims.

(** C2, on the sample rows: deleting the first sample order. *)
Lemma deleteOrder_cascades_witness :
  result (deleteOrder "id-28") boot = true
  /\ result (getOrderItems "id-28") (after (deleteOrder "id-28") boot) = []
  /\ result (getInvoices "id-28") (after (deleteOrder "id-28") boot) = []
  /\ JsMap.keys (orders (store (after (deleteOrder "id-28") boot)))
     = ["id-30"; "id-33"].
Proof.
  destruct (deleteOrder_cascades boot "id-28"
              (Order.mk "id-28" 1001 (Some "id-25") (Some "id-0") "pending"
                 (Some "4500.00") (Some "Entrega urgente") 1793534400000))
    as [_ [R [_ [I [V [_ S]]]]]].
  - vm_compute. reflexivity.
  - vm_compute. reflexivity.
  - split; [exact R|]. split; [exact I|]. split; [exact V|].
    rewrite S. vm_compute. reflexivity.
Defined.

(** C3, on the sample rows: an identifier that no order has. *)
Lemma deleteOrder_unknown_id_witness :
  result (deleteOrder "nobody") boot = false
  /\ after (deleteOrder "nobody") boot = boot.
Proof.
  destruct (deleteOrder_unknown_id boot "nobody") as [R [_ [N _]]].
  - vm_compute. reflexivity.
  - split; [exact R|]. apply N. vm_compute. auto.
Defined.

(** C3 as stated fails: a delivery created for an order that does not exist
    is removed by [deleteOrder] of that identifier, which returns [false]. *)
Lemma deleteOrder_unknown_id_removes_orphans :
  JsMap.get (orders (store worldWithOrphan)) "ghost" = None
  /\ result (deleteOrder "ghost") worldWithOrphan = false
  /\ List.length (JsMap.values (deliveries (store worldWithOrphan))) = 4%nat
  /\ List.length (JsMap.values
       (deliveries (store (after (deleteOrder "ghost") worldWithOrphan)))) = 3%nat
  /\ store (after (deleteOrder "ghost") worldWithOrphan) <> store worldWithOrphan.
Proof.
  assert (L4 : List.length (JsMap.values (deliveries (store worldWithOrphan))) = 4%nat)
    by (vm_compute; reflexivity).
  assert (L3 : List.length (JsMap.values
       (deliveries (store (after (deleteOrder "ghost") worldWithOrphan)))) = 3%nat)
    by (vm_compute; reflexivity).
  repeat split; try (vm_compute; reflexivity).
  intros E. rewrite E in L3. congruence.
Qed.

(** ** Creating records *)

Section Create.
Context {H : Host}.

(** What [createClient] stores is the input and the identifier, nothing
    else. *)
Lemma createClient_roundtrip (ins : InsertClient.t) (w : World) :
  let c := result (createClient ins) w in
  result (getClient (Client.id c)) (after (createClient ins) w) = Some c
  /\ c = spreadInsertClient ins (randomUUID_at (draws w))
  /\ Client.active c = InsertClient.active ins.
Proof.
  unfold result, after, createClient, getClient. unfold_m. simpl.
  repeat split. apply JsMapFacts.get_set_same.
Qed.

(** [createOrder] and [createDelivery] default an omitted status to
    "pending". *)
Lemma create_status_pending (w : World) :
  (forall d items,
     PatchOrder.status d = None ->
     Order.status (OrderWithDetails.order (result (createOrder d items) w))
     = "pending")
  /\ (forall ins,
        InsertDelivery.status ins = None ->
        Delivery.status (result (createDelivery ins) w) = "pending").
Proof.
  split.
  - intros d items E. unfold createOrder.
    repeat (rewrite result_bind; cbv beta).
    rewrite buildOrderWithDetails_order. simpl. now rewrite E.
  - intros ins E. unfold result, createDelivery. unfold_m. simpl. now rewrite E.
Qed.
End Create.

(** C4, where the code departs from it: a client created without the
    [active] property is stored, and read back, without it; [active] is not
    defaulted to [true], and the dashboard does not count the client as
    active. *)
Theorem createClient_omitted_active :
  let c := result (createClient minimalClient) boot in
  let w' := after (createClient minimalClient) boot in
  result (getClient (Client.id c)) w' = Some c
  /\ Client.active c = None
  /\ Client.active c <> Some true
  /\ activeClients (result getDashboardStats boot) = 3%nat
  /\ activeClients (result getDashboardStats w') = 3%nat
  /\ List.length (result getClients w') = 4%nat.
Proof.
  repeat split; try (vm_compute; reflexivity).
  vm_compute. discriminate.
Qed.

(** ** Dashboard *)

Section Dashboard.
Context {H : Host}.

Lemma length_filter_countWhere {A : Type} (p : A -> bool) (l : list A) :
  List.length (filter p l) = countWhere p l.
Proof.
  induction l as [|x r IH]; simpl; auto.
  destruct (p x); simpl; now rewrite IH.
Qed.

Lemma isActive_activeIsTrue (c : Client.t) :
  Client.isActive c = activeIsTrue c.
Proof.
  unfold Client.isActive, activeIsTrue.
  destruct (Client.active c) as [[|]|]; reflexivity.
Qed.

Lemma parse_totalValueText (o : Order.t) :
  parseFloat "0" = zero -> parseFloat (totalValueText o) = contribution o.
Proof.
  intros Z0. unfold totalValueText, contribution, orElse.
  destruct (Order.totalValue o) as [s|]; auto.
  destruct (String.eqb s ""); auto.
Qed.

Lemma reduce_total (os : list Order.t) (acc : number) :
  parseFloat "0" = zero ->
  fold_left (fun sum o => plus sum (parseFloat (totalValueText o))) os acc
  = total acc (map contribution os).
Proof.
  intros Z0. revert acc. induction os as [|o r IH]; intros acc; simpl; auto.
  rewrite IH. now rewrite parse_totalValueText.
Qed.

(** C8: [getDashboardStats] returns the number of orders with status
    "pending", the number of deliveries scheduled within the local day of
    the call, the number of clients whose [active] is [true], and the total,
    in insertion order from zero, of the [totalValue] of the orders created
    since the first day of the month of the call, where a missing or empty
    [totalValue] counts for zero. *)
Theorem getDashboardStats_counts (w : World) :
  parseFloat "0" = zero ->
  let now := now_at (reads w) in
  let stats := result getDashboardStats w in
  pendingOrders stats
  = countWhere (fun o => String.eqb (Order.status o) "pending")
               (JsMap.values (orders (store w)))
  /\ todayDeliveries stats
     = countWhere (scheduledToday now) (JsMap.values (deliveries (store w)))
  /\ activeClients stats
     = countWhere activeIsTrue (JsMap.values (clients (store w)))
  /\ monthlyValue stats
     = total zero
         (map contribution
              (filter (createdThisMonth now) (JsMap.values (orders (store w))))).
Proof.
  intros Z0 now stats. unfold stats, result, getDashboardStats. unfold_m. simpl.
  repeat split.
  - apply length_filter_countWhere.
  - apply length_filter_countWhere.
  - rewrite length_filter_countWhere. induction (JsMap.values (clients (store w))) as [|c r IH];
      simpl; auto. now rewrite isActive_activeIsTrue, IH.
  - now apply reduce_total.
Qed.
End Dashboard.

(** C8, on the sample rows. *)
Lemma getDashboardStats_counts_witness :
  let stats := result getDashboardStats boot in
  pendingOrders stats = 1%nat
  /\ todayDeliveries stats = 2%nat
  /\ activeClients stats = 3%nat
  /\ monthlyValue stats = Some 450000.
Proof.
  destruct (getDashboardStats_counts boot) as [P [T [A V]]].
  - reflexivity.
  - cbv zeta in *. rewrite P, T, A, V. vm_compute. auto.
Defined.

(** ** What the methods preserve *)

Section Preserves.
Context {H : Host}.
Variable R : MemStorage -> MemStorage -> Prop.
Hypothesis R_refl : forall s, R s s.
Hypothesis R_trans : forall a b c, R a b -> R b c -> R a c.

Lemma preserves_ret {A : Type} (a : A) : preserves R (ret a).
Proof. intros w. apply R_refl. Qed.

Lemma preserves_this {A : Type} (f : MemStorage -> A) : preserves R (this f).
Proof. intros w. apply R_refl. Qed.

Lemma preserves_randomUUID : preserves R randomUUID.
Proof. intros w. apply R_refl. Qed.

Lemma preserves_newDate : preserves R newDate.
Proof. intros w. apply R_refl. Qed.

Lemma preserves_readOnly {A : Type} (c : M A) : readOnly c -> preserves R c.
Proof. intros Hc w. rewrite Hc. apply R_refl. Qed.

Lemma preserves_bind {A B : Type} (c : M A) (k : A -> M B) :
  preserves R c -> (forall a, preserves R (k a)) -> preserves R (bind c k).
Proof.
  intros Hc Hk w. rewrite after_bind. eapply R_trans; [apply Hc|apply Hk].
Qed.

Lemma preserves_update (f : MemStorage -> MemStorage) :
  (forall s, R s (f s)) -> preserves R (update f).
Proof. intros Hf w. apply Hf. Qed.

Lemma preserves_forEach {A : Type} (xs : list A) (body : A -> M unit) :
  (forall x, preserves R (body x)) -> preserves R (forEach xs body).
Proof.
  intros Hb. induction xs as [|x r IH]; simpl.
  - apply preserves_ret.
  - apply preserves_bind; auto.
Qed.

Lemma preserves_forPush {A B : Type} (xs : list A) (f : A -> M B) :
  (forall x, preserves R (f x)) -> preserves R (forPush xs f).
Proof.
  intros Hf. induction xs as [|x r IH]; simpl.
  - apply preserves_ret.
  - apply preserves_bind; auto. intros y.
    apply preserves_bind; auto. intros ys. apply preserves_ret.
Qed.

Lemma preserves_getTodayDeliveries : preserves R getTodayDeliveries.
Proof.
  intros w. unfold after. rewrite getTodayDeliveries_run. apply R_refl.
Qed.

Lemma preserves_getDashboardStats : preserves R getDashboardStats.
Proof. intros w. apply R_refl. Qed.
End Preserves.

Lemma sameCounter_refl s : sameCounter s s.
Proof. reflexivity. Qed.

Lemma sameCounter_trans a b c : sameCounter a b -> sameCounter b c -> sameCounter a c.
Proof. unfold sameCounter. congruence. Qed.

Lemma staysWellKeyed_refl s : staysWellKeyed s s.
Proof. intros W. exact W. Qed.

Lemma staysWellKeyed_trans a b c :
  staysWellKeyed a b -> staysWellKeyed b c -> staysWellKeyed a c.
Proof. unfold staysWellKeyed. auto. Qed.

#[local] Hint Resolve sameCounter_refl sameCounter_trans
  staysWellKeyed_refl staysWellKeyed_trans : core.

Ltac preserves_steps :=
  repeat first
    [ match goal with
      | |- preserves _ (buildOrderWithDetails _) =>
          apply preserves_readOnly;
            [solve [eauto] .. | apply readOnly_buildOrderWithDetails]
      end
    | apply preserves_ret; solve [auto]
    | apply preserves_this; solve [auto]
    | apply preserves_randomUUID; solve [auto]
    | apply preserves_newDate; solve [auto]
    | apply preserves_bind; [solve [eauto] .. | | intros ?]
    | apply preserves_forEach; [solve [eauto] .. | intros ?]
    | apply preserves_forPush; [solve [eauto] .. | intros ?]
    | apply preserves_update; intros ? ].

Section Counter.
Context {H : Host}.

Lemma sameCounter_perform (c : Call) :
  (forall d items, c <> CreateOrder d items) ->
  preserves sameCounter (perform c).
Proof.
  intros N. destruct c; simpl; try (exfalso; eapply N; reflexivity).
  - unfold createUser. preserves_steps. reflexivity.
  - unfold createClient. preserves_steps. reflexivity.
  - unfold updateClient. preserves_steps.
    destruct a; preserves_steps. reflexivity.
  - unfold deleteClient. preserves_steps. reflexivity.
  - unfold updateOrder. preserves_steps.
    destruct a; preserves_steps. reflexivity.
  - unfold deleteOrder. preserves_steps; reflexivity.
  - unfold createDelivery. preserves_steps. reflexivity.
  - unfold updateDelivery. preserves_steps.
    destruct a; preserves_steps.
    + destruct (statusIsDelivered d && notDelivered t); preserves_steps.
    + reflexivity.
  - unfold createInvoice. preserves_steps. reflexivity.
  - apply preserves_bind; eauto.
    + apply preserves_getTodayDeliveries; auto.
    + intros. apply preserves_ret; auto.
  - apply preserves_bind; eauto.
    + apply preserves_getDashboardStats; auto.
    + intros. apply preserves_ret; auto.
Qed.
End Counter.

(** ** Display numbers *)

Section OrderNumbers.
Context {H : Host}.

Lemma createOrder_number d items w :
  Order.orderNumber (OrderWithDetails.order (result (createOrder d items) w))
  = orderCounter (store w) + 1.
Proof.
  unfold createOrder.
  repeat (rewrite result_bind; cbv beta).
  rewrite buildOrderWithDetails_order. reflexivity.
Qed.

Lemma createOrder_counter d items w :
  orderCounter (store (after (createOrder d items) w))
  = orderCounter (store w) + 1.
Proof.
  unfold createOrder.
  repeat (rewrite after_bind; cbv beta).
  rewrite readOnly_buildOrderWithDetails.
  match goal with
  | |- orderCounter (store (after (forEach ?xs ?body) ?W)) = _ =>
      assert (P : preserves sameCounter (forEach xs body))
  end.
  { preserves_steps. reflexivity. }
  rewrite P. reflexivity.
Qed.

Lemma createOrder_stored d items w :
  let o := OrderWithDetails.order (result (createOrder d items) w) in
  Order.id o = randomUUID_at (draws w)
  /\ Order.createdAt o = now_at (reads w)
  /\ Order.orderNumber o = orderCounter (store w) + 1.
Proof.
  unfold createOrder.
  repeat (rewrite result_bind; cbv beta).
  rewrite buildOrderWithDetails_order. repeat split.
Qed.

Lemma perform_result c w :
  result (perform c) w =
  match c with
  | CreateOrder _ _ => Some (orderCounter (store w) + 1)
  | _ => None
  end.
Proof.
  destruct c; simpl; rewrite result_bind; try reflexivity.
  unfold result at 1. unfold ret. simpl. f_equal. apply createOrder_number.
Qed.

Lemma perform_counter c w :
  orderCounter (store (after (perform c) w)) =
  match c with
  | CreateOrder _ _ => orderCounter (store w) + 1
  | _ => orderCounter (store w)
  end.
Proof.
  destruct c;
    try (apply (sameCounter_perform _); intros ? ?; discriminate).
  simpl. rewrite after_bind. unfold after at 1, ret. simpl.
  apply createOrder_counter.
Qed.

Lemma session_cons c r w :
  result (session (c :: r)) w =
  match result (perform c) w with
  | Some n => n :: result (session r) (after (perform c) w)
  | None => result (session r) (after (perform c) w)
  end
  /\ after (session (c :: r)) w = after (session r) (after (perform c) w).
Proof.
  split.
  - simpl. rewrite result_bind, result_bind. reflexivity.
  - simpl. rewrite after_bind, after_bind. reflexivity.
Qed.

(** Whatever calls are made, every display number handed out is above the
    counter the session started from, and each is above the ones before. *)
Lemma session_numbers calls w :
  Forall (fun n => orderCounter (store w) < n) (result (session calls) w)
  /\ StronglySorted Z.lt (result (session calls) w)
  /\ orderCounter (store w) <= orderCounter (store (after (session calls) w)).
Proof.
  revert w. induction calls as [|c r IH]; intros w.
  - simpl. repeat split; try constructor. unfold after. simpl. lia.
  - destruct (session_cons c r w) as [-> ->].
    destruct (IH (after (perform c) w)) as [F [S L]].
    rewrite perform_counter in F, L. rewrite perform_result.
    destruct c; try (split; [exact F|split; [exact S|exact L]]).
    split; [|split].
    + constructor; [lia|]. eapply Forall_impl; [|exact F]. simpl. intros; lia.
    + constructor; auto.
    + lia.
Qed.

Lemma boot_counter : orderCounter (store boot) = 1003.
Proof. reflexivity. Qed.

Lemma boot_orders :
  orders (store boot)
  = JsMap.set (Order.id sampleOrder3) sampleOrder3
      (JsMap.set (Order.id sampleOrder2) sampleOrder2
         (JsMap.set (Order.id sampleOrder1) sampleOrder1 JsMap.empty)).
Proof. reflexivity. Qed.

Lemma values_set_In {V : Type} (k : string) (v x : V) (m : JsMap.t V) :
  In x (JsMap.values (JsMap.set k v m)) -> x = v \/ In x (JsMap.values m).
Proof.
  unfold JsMap.values. induction m as [|[k0 v0] r IH]; simpl.
  - intros [<-|[]]. now left.
  - destruct (String.eqb k0 k); simpl.
    + intros [<-|I]; auto.
    + intros [<-|I]; auto. destruct (IH I); auto.
Qed.

(** The sample orders carry the numbers 1001 to 1003. *)
Lemma boot_numbers :
  Forall (fun o => 1000 < Order.orderNumber o <= 1003)
         (JsMap.values (orders (store boot))).
Proof.
  rewrite boot_orders. apply Forall_forall. intros o I.
  repeat (apply values_set_In in I; destruct I as [->|I]; [simpl; lia|]).
  destruct I.
Qed.

End OrderNumbers.

(** ** Reachable stores are well keyed *)

Ltac well_keyed :=
  let W := fresh "W" in
  intros W; unfold wellKeyed in *; cbn [users clients products suppliers orders
    orderItems deliveries invoices setUsers setClients setProducts setSuppliers
    setOrders setOrderItems setDeliveries setInvoices setOrderCounter] in *;
  rewrite !andb_true_iff in *;
  repeat match goal with Hc : _ /\ _ |- _ => destruct Hc end;
  repeat split;
  first [ assumption
        | apply JsMapFacts.uniqueKeys_set; assumption
        | apply JsMapFacts.uniqueKeys_remove; assumption
        | apply JsMapFacts.keyed_remove; assumption
        | apply JsMapFacts.keyed_set; [reflexivity | assumption] ].

Lemma wellKeyed_get {V : Type} (idOf : V -> string) (m : JsMap.t V) k v :
  JsMap.keyed idOf m = true -> JsMap.get m k = Some v -> idOf v = k.
Proof.
  intros K G. eapply JsMapFacts.keyed_In; eauto. now apply JsMapFacts.get_In.
Qed.

Lemma wellKeyed_intro s :
  JsMap.uniqueKeys (users s) = true -> JsMap.keyed User.id (users s) = true ->
  JsMap.uniqueKeys (clients s) = true -> JsMap.keyed Client.id (clients s) = true ->
  JsMap.uniqueKeys (products s) = true -> JsMap.keyed Product.id (products s) = true ->
  JsMap.uniqueKeys (suppliers s) = true -> JsMap.keyed Supplier.id (suppliers s) = true ->
  JsMap.uniqueKeys (orders s) = true -> JsMap.keyed Order.id (orders s) = true ->
  JsMap.uniqueKeys (orderItems s) = true -> JsMap.keyed OrderItem.id (orderItems s) = true ->
  JsMap.uniqueKeys (deliveries s) = true -> JsMap.keyed Delivery.id (deliveries s) = true ->
  JsMap.uniqueKeys (invoices s) = true -> JsMap.keyed Invoice.id (invoices s) = true ->
  wellKeyed s = true.
Proof.
  intros. unfold wellKeyed.
  repeat match goal with Hc : _ = true |- _ => rewrite Hc; clear Hc end.
  reflexivity.
Qed.

Section WellKeyed.
Context {H : Host}.

Lemma wellKeyed_updateClient id d : preserves staysWellKeyed (updateClient id d).
Proof.
  intros w. unfold after, updateClient, bind, this.
  destruct (JsMap.get (clients (store w)) id) as [c|] eqn:G; [|auto].
  cbn [snd update store]. intros W.
  assert (Client.id c = id).
  { eapply wellKeyed_get; eauto. unfold wellKeyed in W.
    rewrite !andb_true_iff in W. tauto. }
  revert W. subst id. well_keyed.
Qed.

Lemma wellKeyed_updateOrder id d : preserves staysWellKeyed (updateOrder id d).
Proof.
  intros w. unfold after, updateOrder, bind, this.
  destruct (JsMap.get (orders (store w)) id) as [c|] eqn:G; [|auto].
  cbn [snd update store]. intros W.
  assert (Order.id c = id).
  { eapply wellKeyed_get; eauto. unfold wellKeyed in W.
    rewrite !andb_true_iff in W. tauto. }
  revert W. subst id. well_keyed.
Qed.

Lemma wellKeyed_updateDelivery id d :
  preserves staysWellKeyed (updateDelivery id d).
Proof.
  intros w. unfold after. rewrite updateDelivery_run.
  destruct (JsMap.get (deliveries (store w)) id) as [c|] eqn:G; [|auto].
  cbn [snd store]. intros W.
  assert (Delivery.id c = id).
  { eapply wellKeyed_get; eauto. unfold wellKeyed in W.
    rewrite !andb_true_iff in W. tauto. }
  revert W. subst id. well_keyed.
Qed.

Lemma wellKeyed_perform (c : Call) : preserves staysWellKeyed (perform c).
Proof.
  destruct c; simpl.
  - unfold createUser. preserves_steps. well_keyed.
  - unfold createClient. preserves_steps. well_keyed.
  - apply preserves_bind; eauto; [apply wellKeyed_updateClient|].
    intros. apply preserves_ret; auto.
  - unfold deleteClient. preserves_steps. well_keyed.
  - unfold createOrder. preserves_steps; well_keyed.
  - apply preserves_bind; eauto; [apply wellKeyed_updateOrder|].
    intros. apply preserves_ret; auto.
  - unfold deleteOrder. preserves_steps; well_keyed.
  - unfold createDelivery. preserves_steps. well_keyed.
  - apply preserves_bind; eauto; [apply wellKeyed_updateDelivery|].
    intros. apply preserves_ret; auto.
  - unfold createInvoice. preserves_steps. well_keyed.
  - apply preserves_bind; eauto.
    + apply preserves_getTodayDeliveries; auto.
    + intros. apply preserves_ret; auto.
  - apply preserves_bind; eauto.
    + apply preserves_getDashboardStats; auto.
    + intros. apply preserves_ret; auto.
Qed.

Lemma wellKeyed_session calls : preserves staysWellKeyed (session calls).
Proof.
  induction calls as [|c r IH]; simpl.
  - apply preserves_ret; auto.
  - apply preserves_bind; eauto; [apply wellKeyed_perform|]. intros n.
    apply preserves_bind; eauto. intros ns. apply preserves_ret; auto.
Qed.

Lemma wellKeyed_boot : wellKeyed (store boot) = true.
Proof.
  apply wellKeyed_intro;
    lazy -[JsMap.set JsMap.uniqueKeys JsMap.keyed randomUUID_at now_at addDays];
    repeat first [ apply JsMapFacts.uniqueKeys_set
                 | apply JsMapFacts.keyed_set; [reflexivity|] ];
    reflexivity.
Qed.

(** The store is well keyed after the constructor and after every session
    of calls that follows it. *)
Lemma wellKeyed_reachable (calls : list Call) :
  wellKeyed (store (after (session calls) boot)) = true.
Proof. apply wellKeyed_session, wellKeyed_boot. Qed.
End WellKeyed.

(** ** Display numbers of the stored orders *)

Lemma ordersUntouched_refl s : ordersUntouched s s.
Proof. split; reflexivity. Qed.

Lemma ordersUntouched_trans a b c :
  ordersUntouched a b -> ordersUntouched b c -> ordersUntouched a c.
Proof. unfold ordersUntouched. intros [? ?] [? ?]. split; congruence. Qed.

#[local] Hint Resolve ordersUntouched_refl ordersUntouched_trans : core.

Section NumberFacts.
Context {V : Type} (f : V -> Z).

Lemma set_new_number (m : JsMap.t V) (k : string) (v : V) (n : Z) :
  Forall (fun x => x <= n) (map f (JsMap.values m)) ->
  NoDup (map f (JsMap.values m)) ->
  n < f v ->
  Forall (fun x => x <= f v) (map f (JsMap.values (JsMap.set k v m)))
  /\ NoDup (map f (JsMap.values (JsMap.set k v m))).
Proof.
  intros F N L.
  assert (Fv : Forall (fun x => x < f v) (map f (JsMap.values m)))
    by (eapply Forall_impl; [|exact F]; simpl; intros; lia).
  clear F. unfold JsMap.values in *.
  induction m as [|[k0 v0] r IH]; simpl in *.
  - split; repeat constructor; auto; lia.
  - inversion N as [|? ? N1 N2]; subst. inversion Fv as [|? ? F1 F2]; subst.
    rewrite Forall_forall in F2.
    destruct (String.eqb k0 k); simpl.
    + split.
      * constructor; [lia|]. apply Forall_forall. intros x I.
        apply F2 in I. lia.
      * constructor; auto. intros I. apply F2 in I. lia.
    + destruct IH as [IH1 IH2]; auto; [now apply Forall_forall|].
      split.
      * constructor; [lia|assumption].
      * constructor; auto. intros I. apply N1. clear - I F1.
        induction r as [|[k1 v1] r IHr]; simpl in *.
        -- destruct I as [I|[]]. lia.
        -- destruct (String.eqb k1 k); simpl in *.
           ++ destruct I as [I|I]; [lia|now right].
           ++ destruct I as [I|I]; [now left|right; auto].
Qed.

Lemma set_same_number (m : JsMap.t V) (k : string) (v v' : V) :
  JsMap.get m k = Some v -> f v' = f v ->
  map f (JsMap.values (JsMap.set k v' m)) = map f (JsMap.values m).
Proof.
  intros G E. unfold JsMap.values. induction m as [|[k0 v0] r IH]; simpl in *.
  - discriminate.
  - destruct (String.eqb k0 k); simpl.
    + injection G as ->. now rewrite E.
    + now rewrite IH.
Qed.

Lemma remove_numbers (m : JsMap.t V) (k : string) (n : Z) :
  Forall (fun x => x <= n) (map f (JsMap.values m)) ->
  NoDup (map f (JsMap.values m)) ->
  Forall (fun x => x <= n) (map f (JsMap.values (JsMap.remove k m)))
  /\ NoDup (map f (JsMap.values (JsMap.remove k m))).
Proof.
  unfold JsMap.values, JsMap.remove.
  induction m as [|[k0 v0] r IH]; simpl; intros F N; auto.
  inversion F as [|? ? F1 F2]; subst. inversion N as [|? ? N1 N2]; subst.
  destruct (IH F2 N2) as [IH1 IH2].
  destruct (String.eqb k0 k); simpl; auto.
  split; constructor; auto.
  intros I. apply N1. clear - I.
  induction r as [|[k1 v1] r IHr]; simpl in *; auto.
  destruct (String.eqb k1 k); simpl in *; intuition.
Qed.
End NumberFacts.

Section StoredNumbers.
Context {H : Host}.

Lemma ordersUntouched_perform (c : Call) :
  match c with
  | CreateOrder _ _ | UpdateOrder _ _ | DeleteOrder _ => True
  | _ => preserves ordersUntouched (perform c)
  end.
Proof.
  destruct c; simpl; auto.
  - unfold createUser. preserves_steps. split; reflexivity.
  - unfold createClient. preserves_steps. split; reflexivity.
  - unfold updateClient. preserves_steps.
    destruct a; preserves_steps. split; reflexivity.
  - unfold deleteClient. preserves_steps. split; reflexivity.
  - unfold createDelivery. preserves_steps. split; reflexivity.
  - unfold updateDelivery. preserves_steps.
    destruct a; preserves_steps.
    + destruct (statusIsDelivered d && notDelivered t); preserves_steps.
    + split; reflexivity.
  - unfold createInvoice. preserves_steps. split; reflexivity.
  - apply preserves_bind; eauto.
    + apply preserves_getTodayDeliveries; auto.
    + intros. apply preserves_ret; auto.
  - apply preserves_bind; eauto.
    + apply preserves_getDashboardStats; auto.
    + intros. apply preserves_ret; auto.
Qed.

(** The order that [createOrder] returns is the one it stores, under the
    identifier drawn for it. *)
Lemma createOrder_orders d items w :
  let o := OrderWithDetails.order (result (createOrder d items) w) in
  orders (store (after (createOrder d items) w))
  = JsMap.set (Order.id o) o (orders (store w))
  /\ Order.orderNumber o = orderCounter (store w) + 1.
Proof.
  split; [|apply createOrder_number].
  unfold createOrder.
  repeat (rewrite result_bind; cbv beta).
  rewrite buildOrderWithDetails_order.
  repeat (rewrite after_bind; cbv beta).
  rewrite readOnly_buildOrderWithDetails.
  match goal with
  | |- orders (store (after (forEach ?xs ?body) ?W)) = _ =>
      assert (P : preserves ordersUntouched (forEach xs body))
        by (preserves_steps; split; reflexivity);
      destruct (P W) as [E _]; rewrite E
  end.
  reflexivity.
Qed.
End StoredNumbers.

Section NumbersInUse.
Context {H : Host}.

Lemma updateOrder_run id d w :
  updateOrder id d w =
  match JsMap.get (orders (store w)) id with
  | None => (None, w)
  | Some o =>
      (Some (spreadPatchOrder o d),
       mkWorld (setOrders (JsMap.set id (spreadPatchOrder o d)) (store w))
               (draws w) (reads w))
  end.
Proof.
  unfold updateOrder. unfold_m.
  destruct (JsMap.get (orders (store w)) id); reflexivity.
Qed.

Lemma after_perform (c : Call) (w : World) :
  after (perform c) w =
  match c with
  | CreateUser u => after (createUser u) w
  | CreateClient i => after (createClient i) w
  | UpdateClient id d => after (updateClient id d) w
  | DeleteClient id => after (deleteClient id) w
  | CreateOrder d items => after (createOrder d items) w
  | UpdateOrder id d => after (updateOrder id d) w
  | DeleteOrder id => after (deleteOrder id) w
  | CreateDelivery d => after (createDelivery d) w
  | UpdateDelivery id d => after (updateDelivery id d) w
  | CreateInvoice i => after (createInvoice i) w
  | GetTodayDeliveries => after getTodayDeliveries w
  | GetDashboardStats => after getDashboardStats w
  end.
Proof. destruct c; unfold perform; rewrite after_bind; reflexivity. Qed.

Lemma numbersInUse_perform (c : Call) (w : World) :
  keepsNumbers c = true ->
  numbersInUse (store w) ->
  numbersInUse (store (after (perform c) w)).
Proof.
  intros K [F N]. unfold numbersInUse, storedNumbers in *.
  pose proof (ordersUntouched_perform c) as U.
  destruct c; cbn [keepsNumbers] in *;
    try (destruct (U w) as [-> ->]; now split);
    rewrite after_perform.
  - (* createOrder *)
    destruct (createOrder_orders d items w) as [-> E].
    rewrite createOrder_counter, <- E.
    eapply set_new_number; eauto. lia.
  - (* updateOrder *)
    unfold after. rewrite updateOrder_run.
    destruct (JsMap.get (orders (store w)) id) as [o|] eqn:G; [|now split].
    cbn [snd store orders setOrders orderCounter].
    rewrite (set_same_number Order.orderNumber _ _ o); auto.
    unfold spreadPatchOrder. simpl.
    destruct (PatchOrder.orderNumber d); [discriminate|reflexivity].
  - (* deleteOrder *)
    unfold after. rewrite deleteOrder_run.
    cbn [snd store orders setOrders orderCounter cascaded].
    now apply remove_numbers.
Qed.

Lemma numbersInUse_session (calls : list Call) (w : World) :
  forallb keepsNumbers calls = true ->
  numbersInUse (store w) ->
  numbersInUse (store (after (session calls) w)).
Proof.
  revert w. induction calls as [|c r IH]; intros w K I; [exact I|].
  simpl in K. apply andb_true_iff in K. destruct K as [K1 K2].
  destruct (session_cons c r w) as [_ ->].
  apply IH; auto. now apply numbersInUse_perform.
Qed.

Lemma numbersInUse_boot : numbersInUse (store boot).
Proof.
  unfold numbersInUse, storedNumbers.
  rewrite boot_orders, boot_counter.
  change 1003 with (Order.orderNumber sampleOrder3).
  eapply (set_new_number Order.orderNumber _ _ _ 1002); [| |simpl; lia].
  - change 1002 with (Order.orderNumber sampleOrder2).
    eapply (set_new_number Order.orderNumber _ _ _ 1001); [| |simpl; lia];
      simpl; repeat constructor; auto; lia.
  - change 1002 with (Order.orderNumber sampleOrder2).
    eapply (set_new_number Order.orderNumber _ _ _ 1001); [| |simpl; lia];
      simpl; repeat constructor; auto; lia.
Qed.

(** C9, as amended: display numbers are handed out at creation, in
    increasing order, above the seed value 1000.  The constructor numbers
    the sample orders 1001 to 1003 and leaves the counter at 1003.  In every
    session of calls after it, deletions and updates included, each
    [createOrder] hands out a number above 1003 and above every number
    handed out before it, so no number is handed out twice; and as long as
    no [updateOrder] patches an [orderNumber], no two stored orders share a
    number and none is above the counter. *)
Theorem orderNumbers_increase (calls : list Call) :
  let numbers := result (session calls) boot in
  let final := store (after (session calls) boot) in
  orderCounter (store boot) = 1003
  /\ Forall (fun o => 1000 < Order.orderNumber o <= 1003)
            (JsMap.values (orders (store boot)))
  /\ Forall (fun n => 1003 < n) numbers
  /\ StronglySorted Z.lt numbers
  /\ NoDup numbers
  /\ (forallb keepsNumbers calls = true ->
      NoDup (storedNumbers final)
      /\ Forall (fun n => n <= orderCounter final) (storedNumbers final)).
Proof.
  intros numbers final.
  destruct (session_numbers calls boot) as [F [S _]].
  fold numbers in F, S.
  split; [apply boot_counter|]. split; [apply boot_numbers|].
  split; [exact F|]. split; [exact S|]. split.
  - clear F. induction S as [|n r S IH F]; constructor; auto.
    intros I. rewrite Forall_forall in F. apply F in I. lia.
  - intros K.
    destruct (numbersInUse_session calls boot K numbersInUse_boot) as [F' N'].
    split; assumption.
Qed.
End NumbersInUse.

(** C9, on a session that creates, deletes and updates orders without
    patching an [orderNumber]: the numbers handed out are the next three,
    and the stored orders have distinct numbers. *)
Lemma orderNumbers_increase_witness :
  forallb keepsNumbers busySession = true
  /\ result (session busySession) boot = [1004; 1005; 1006]
  /\ NoDup (storedNumbers (store (after (session busySession) boot)))
  /\ Forall (fun n => n <= orderCounter (store (after (session busySession) boot)))
            (storedNumbers (store (after (session busySession) boot))).
Proof.
  destruct (orderNumbers_increase busySession) as [_ [_ [_ [_ [_ K]]]]].
  split; [reflexivity|].
  split; [vm_compute; reflexivity|].
  apply K. reflexivity.
Defined.

(** C9 as stated fails: [updateOrder] accepts an [orderNumber] in its
    patch.  The first sample order is given the number 1004; the order
    created next is handed 1004 as well.  Two stored orders then share a
    display number, and the order created later does not have the greater
    one. *)
Lemma orderNumber_reused_after_update :
  result (session renumberThenCreate) boot = [1004]
  /\ storedNumbers (store (after (session renumberThenCreate) boot))
     = [1004; 1002; 1003; 1004]
  /\ ~ NoDup (storedNumbers (store (after (session renumberThenCreate) boot)))
  /\ exists earlier later,
       In earlier (JsMap.values
                     (orders (store (after (session renumberThenCreate) boot))))
       /\ In later (JsMap.values
                      (orders (store (after (session renumberThenCreate) boot))))
       /\ Order.createdAt earlier < Order.createdAt later
       /\ Order.orderNumber earlier = 1004
       /\ Order.orderNumber later = 1004.
Proof.
  assert (E : storedNumbers (store (after (session renumberThenCreate) boot))
              = [1004; 1002; 1003; 1004]) by (vm_compute; reflexivity).
  split; [vm_compute; reflexivity|]. split; [exact E|]. split.
  - rewrite E. intros N. inversion N as [|? ? NI _]; subst.
    apply NI. simpl. auto.
  - exists (Order.mk "id-28" 1004 (Some "id-25") (Some "id-0") "pending"
              (Some "4500.00") (Some "Entrega urgente") 1793534400000),
           (Order.mk "id-39" 1004 (Some "id-25") (Some "id-0") "pending"
              (Some "8250.00") None 1793534460000).
    split; [vm_compute; auto|]. split; [vm_compute; auto 10|].
    split; [simpl; lia|]. split; reflexivity.
Qed.

(** A patch of [updateOrder] may carry an [orderNumber]: the display number
    of a stored order can be overwritten after creation, here with the
    number of another order. *)
Example updateOrder_renumbers :
  storedNumbers (store boot) = [1001; 1002; 1003]
  /\ storedNumbers (store (after (updateOrder "id-28" (renumber 1002)) boot))
     = [1002; 1002; 1003].
Proof. split; vm_compute; reflexivity. Qed.

(** * Further properties of the storage class *)

(** ** More facts about maps *)

Section MoreMapFacts.
Context {V : Type}.
Implicit Types (m : JsMap.t V) (k : string) (v : V).

Lemma set_set_same m k v v' :
  JsMap.set k v (JsMap.set k v' m) = JsMap.set k v m.
Proof.
  induction m as [|[k0 v0] r IH]; simpl.
  - now rewrite String.eqb_refl.
  - destruct (String.eqb k0 k) eqn:E; simpl; rewrite E; [reflexivity|].
    now rewrite IH.
Qed.

Lemma set_absent m k v :
  JsMap.has m k = false -> JsMap.set k v m = m ++ [(k, v)].
Proof.
  unfold JsMap.has. induction m as [|[k0 v0] r IH]; simpl; auto.
  destruct (String.eqb k0 k); [discriminate|].
  intros G. now rewrite IH.
Qed.

Lemma get_remove_other m k k' :
  k <> k' -> JsMap.get (JsMap.remove k m) k' = JsMap.get m k'.
Proof.
  intros N. unfold JsMap.remove. induction m as [|[k0 v0] r IH]; simpl; auto.
  destruct (String.eqb k0 k) eqn:E; simpl.
  - apply String.eqb_eq in E. subst k0.
    destruct (String.eqb k k') eqn:E'; auto.
    apply String.eqb_eq in E'. contradiction.
  - now rewrite IH.
Qed.

Lemma has_remove_same m k : JsMap.has (JsMap.remove k m) k = false.
Proof. unfold JsMap.has. now rewrite JsMapFacts.get_remove_same. Qed.

Lemma remove_remove m k : JsMap.remove k (JsMap.remove k m) = JsMap.remove k m.
Proof. apply JsMapFacts.remove_absent, has_remove_same. Qed.

Lemma unique_In_get m k v :
  JsMap.uniqueKeys m = true -> In (k, v) m -> JsMap.get m k = Some v.
Proof.
  induction m as [|[k0 v0] r IH]; simpl; [tauto|].
  intros U. apply andb_true_iff in U. destruct U as [U1 U2].
  apply negb_true_iff in U1.
  intros [[= -> ->]|I].
  - now rewrite String.eqb_refl.
  - destruct (String.eqb k0 k) eqn:E; auto.
    apply String.eqb_eq in E. subst k0.
    exfalso. eapply JsMapFacts.has_false_not_In; eauto.
Qed.

End MoreMapFacts.

(** ** Spreads *)

Lemma over_idem {A : Type} (p : option A) (x : A) : over p (over p x) = over p x.
Proof. now destruct p. Qed.

Lemma overO_idem {A : Type} (p x : option A) : overO p (overO p x) = overO p x.
Proof. now destruct p. Qed.

Lemma overN_idem {A : Type} (p : js A) (x : option A) :
  overN p (overN p x) = overN p x.
Proof. now destruct p. Qed.

Lemma overJ_idem {A : Type} (p x : js A) : overJ p (overJ p x) = overJ p x.
Proof. now destruct p. Qed.

Section Spreads.
Context {H : Host}.

Lemma spreadPatchClient_idem c d :
  spreadPatchClient (spreadPatchClient c d) d = spreadPatchClient c d.
Proof.
  unfold spreadPatchClient. simpl.
  now rewrite !over_idem, !overJ_idem, !overO_idem.
Qed.


Lemma updateClient_run id d w :
  updateClient id d w =
  match JsMap.get (clients (store w)) id with
  | None => (None, w)
  | Some c =>
      (Some (spreadPatchClient c d),
       mkWorld (setClients (JsMap.set id (spreadPatchClient c d)) (store w))
               (draws w) (reads w))
  end.
Proof.
  unfold updateClient. unfold_m.
  destruct (JsMap.get (clients (store w)) id); reflexivity.
Qed.

(** X2: [updateClient] of a stored client returns the stored record in
    which every key that the patch carries has the value of the patch and
    every other key the stored value, and that is what [getClient] returns
    afterwards.  The client keeps its [id] and its place in [getClients],
    the other clients and all other maps are untouched, a patch without
    keys changes nothing, and the same update made twice is the same as
    made once. *)
Theorem updateClient_merges (w : World) (id : string) (c : Client.t)
  (d : PatchClient.t) :
  JsMap.get (clients (store w)) id = Some c ->
  let w' := after (updateClient id d) w in
  exists c',
    result (updateClient id d) w = Some c'
    /\ Client.id c' = Client.id c
    /\ (written (PatchClient.type d) (Client.type c) (Client.type c')
        /\ written (PatchClient.name d) (Client.name c) (Client.name c')
        /\ writtenJ (PatchClient.tradeName d) (Client.tradeName c)
                    (Client.tradeName c')
        /\ written (PatchClient.document d) (Client.document c)
                   (Client.document c')
        /\ writtenJ (PatchClient.stateRegistration d)
                    (Client.stateRegistration c) (Client.stateRegistration c')
        /\ writtenJ (PatchClient.email d) (Client.email c) (Client.email c')
        /\ writtenJ (PatchClient.phone d) (Client.phone c) (Client.phone c')
        /\ writtenJ (PatchClient.cellphone d) (Client.cellphone c)
                    (Client.cellphone c')
        /\ writtenJ (PatchClient.zipCode d) (Client.zipCode c)
                    (Client.zipCode c')
        /\ writtenJ (PatchClient.street d) (Client.street c) (Client.street c')
        /\ writtenJ (PatchClient.number d) (Client.number c) (Client.number c')
        /\ writtenJ (PatchClient.complement d) (Client.complement c)
                    (Client.complement c')
        /\ writtenJ (PatchClient.neighborhood d) (Client.neighborhood c)
                    (Client.neighborhood c')
        /\ writtenJ (PatchClient.city d) (Client.city c) (Client.city c')
        /\ writtenJ (PatchClient.state d) (Client.state c) (Client.state c')
        /\ writtenJ (PatchClient.notes d) (Client.notes c) (Client.notes c')
        /\ writtenO (PatchClient.active d) (Client.active c)
                    (Client.active c'))
    /\ result (getClient id) w' = Some c'
    /\ (forall id', id' <> id ->
          result (getClient id') w' = result (getClient id') w)
    /\ map Client.id (result getClients w') = map Client.id (result getClients w)
    /\ setClients (fun _ => clients (store w)) (store w') = store w
    /\ (d = emptyClientPatch -> c' = c)
    /\ after (updateClient id d) w' = w'.
Proof.
  intros G w'. exists (spreadPatchClient c d).
  set (c' := spreadPatchClient c d).
  assert (Ew' : w' = mkWorld (setClients (JsMap.set id c') (store w))
                             (draws w) (reads w))
    by (unfold w', after; now rewrite updateClient_run, G).
  split; [unfold result; now rewrite updateClient_run, G|].
  split; [reflexivity|].
  split.
  { unfold c', spreadPatchClient, written, writtenO, writtenJ.
    cbn [Client.type Client.name Client.tradeName Client.document
         Client.stateRegistration Client.email Client.phone Client.cellphone
         Client.zipCode Client.street Client.number Client.complement
         Client.neighborhood Client.city Client.state Client.notes
         Client.active].
    repeat split;
      match goal with
      | |- match ?p with _ => _ end => destruct p; reflexivity
      end. }
  split; [rewrite Ew'; unfold result, getClient, this; cbn;
          apply JsMapFacts.get_set_same|].
  split.
  { intros id' N. rewrite Ew'. unfold result, getClient, this. cbn.
    apply JsMapFacts.get_set_other. congruence. }
  split.
  { rewrite Ew'. unfold result, getClients, this. cbn.
    clear Ew'. unfold JsMap.values.
    induction (clients (store w)) as [|[k0 v0] r IH]; simpl in *; [discriminate|].
    destruct (String.eqb k0 id); simpl.
    - injection G as ->. reflexivity.
    - now rewrite IH. }
  split; [rewrite Ew'; now destruct w as [[] ? ?]|].
  split; [intros ->; unfold c'; now destruct c|].
  unfold after. rewrite Ew', updateClient_run. cbn.
  rewrite JsMapFacts.get_set_same. cbn.
  fold c'. unfold c'. rewrite spreadPatchClient_idem.
  unfold setClients. cbn. now rewrite set_set_same.
Qed.
End Spreads.

(** X2, on the sample rows: the first sample client is deactivated and its
    notes are cleared; its name stays. *)
Lemma updateClient_merges_witness :
  let w' := after (updateClient "id-25" deactivate) boot in
  exists c',
    result (updateClient "id-25" deactivate) boot = Some c'
    /\ Client.active c' = Some false
    /\ Client.notes c' = null
    /\ Client.name c' = "Construtora ABC Ltda"
    /\ result (getClient "id-25") w' = Some c'
    /\ after (updateClient "id-25" deactivate) w' = w'.
Proof.
  destruct (updateClient_merges boot "id-25" sampleClient1 deactivate)
    as [c' [R [_ [K [G [_ [_ [_ [_ I]]]]]]]]].
  - vm_compute. reflexivity.
  - destruct K as [_ [Kname [_ [_ [_ [_ [_ [_ [_ [_ [_ [_ [_ [_ [_
                    [Knotes Kactive]]]]]]]]]]]]]]]].
    exists c'. split; [exact R|].
    split; [exact Kactive|]. split; [exact Knotes|].
    split; [exact Kname|]. split; [exact G|exact I].
Defined.

(** ** The detail views, purely *)

Section Views.
Context {H : Host}.

Lemma lookupBy_getClient k w :
  lookupBy getClient k w = (lookupIn (clients (store w)) k, w).
Proof. destruct k; reflexivity. Qed.

Lemma lookupBy_getSupplier k w :
  lookupBy getSupplier k w = (lookupIn (suppliers (store w)) k, w).
Proof. destruct k; reflexivity. Qed.

Lemma buildOrderWithDetails_view o w :
  result (buildOrderWithDetails o) w = orderView (store w) o.
Proof.
  unfold result, buildOrderWithDetails, bind.
  rewrite lookupBy_getClient, lookupBy_getSupplier.
  unfold getOrderItems, getInvoices, this.
  rewrite forPush_readOnly.
  - reflexivity.
  - intros x. apply readOnly_bind; [apply readOnly_this|].
    intros. apply readOnly_ret.
Qed.

Lemma buildDeliveryWithDetails_view d w :
  result (buildDeliveryWithDetails d) w = deliveryView (store w) d.
Proof.
  unfold result, buildDeliveryWithDetails, bind, this, deliveryView.
  destruct (JsMap.get (orders (store w)) (Delivery.orderId d)); [|reflexivity].
  rewrite lookupBy_getClient, lookupBy_getSupplier. reflexivity.
Qed.

Lemma getOrder_run id w :
  getOrder id w =
  (option_map (orderView (store w)) (JsMap.get (orders (store w)) id), w).
Proof.
  unfold getOrder, bind, this.
  destruct (JsMap.get (orders (store w)) id) as [o|]; [|reflexivity].
  pose proof (buildOrderWithDetails_view o w) as E.
  pose proof (readOnly_buildOrderWithDetails o w) as R.
  unfold result, after in *. destruct (buildOrderWithDetails o w) as [v w1].
  simpl in *. subst. reflexivity.
Qed.

Lemma getDelivery_run id w :
  getDelivery id w =
  (option_map (deliveryView (store w)) (JsMap.get (deliveries (store w)) id), w).
Proof.
  unfold getDelivery, bind, this.
  destruct (JsMap.get (deliveries (store w)) id) as [d|]; [|reflexivity].
  pose proof (buildDeliveryWithDetails_view d w) as E.
  pose proof (readOnly_buildDeliveryWithDetails d w) as R.
  unfold result, after in *. destruct (buildDeliveryWithDetails d w) as [v w1].
  simpl in *. subst. reflexivity.
Qed.
End Views.

(** ** Creating an order *)

Section CreateOrder.
Context {H : Host}.

Lemma createOrder_loop id items w :
  forEach items (fun item =>
    itemId <- randomUUID ;;
    update (setOrderItems (JsMap.set itemId
      (OrderItem.mk itemId id
         (InsertOrderItem.productId item) (InsertOrderItem.quantity item)
         (InsertOrderItem.unitPrice item) (InsertOrderItem.totalPrice item))))) w
  = (tt, mkWorld (setOrderItems (storeItems (newOrderItems id items (draws w)))
                                (store w))
                 (draws w + List.length items) (reads w)).
Proof.
  revert w. induction items as [|item r IH]; intros w.
  - simpl. destruct w as [[] ? ?]. unfold ret, setOrderItems, storeItems.
    simpl. now rewrite Nat.add_0_r.
  - simpl. unfold bind at 1. unfold bind at 1. unfold randomUUID, update.
    rewrite IH. cbn [store draws reads]. f_equal. f_equal.
    lia.
Qed.

Lemma createOrder_loop_after id items w :
  after (forEach items (fun item =>
    itemId <- randomUUID ;;
    update (setOrderItems (JsMap.set itemId
      (OrderItem.mk itemId id
         (InsertOrderItem.productId item) (InsertOrderItem.quantity item)
         (InsertOrderItem.unitPrice item) (InsertOrderItem.totalPrice item)))))) w
  = mkWorld (setOrderItems (storeItems (newOrderItems id items (draws w)))
                           (store w))
            (draws w + List.length items) (reads w).
Proof. unfold after. now rewrite createOrder_loop. Qed.

Lemma createOrder_run d items w :
  let o := newOrder d w in
  let s' :=
    setOrderItems (storeItems (newOrderItems (Order.id o) items (S (draws w))))
      (setOrders (JsMap.set (Order.id o) o)
         (setOrderCounter (fun n => n + 1) (store w))) in
  createOrder d items w =
  (orderView s' o,
   mkWorld s' (S (draws w) + List.length items) (S (reads w))).
Proof.
  intros o s'. unfold createOrder.
  repeat (rewrite run_bind; cbv beta).
  rewrite createOrder_loop_after.
  unfold result, after, randomUUID, update, this, newDate.
  cbn [fst snd store draws reads].
  match goal with
  | |- buildOrderWithDetails ?x ?W = _ =>
      pose proof (buildOrderWithDetails_view x W) as E;
      pose proof (readOnly_buildOrderWithDetails x W) as R;
      unfold result, after in E, R;
      destruct (buildOrderWithDetails x W) as [v w1]
  end.
  simpl in E, R. subst. reflexivity.
Qed.

(** X6: [getOrder] of the identifier that [createOrder] returns gives back
    the very view that [createOrder] returned.  The order carries the next
    identifier of the host, the next value of the counter and the clock
    reading of the call; an [orderNumber] in the input is ignored; the call
    draws one identifier for the order and one for each item and reads the
    clock once. *)
Theorem createOrder_roundtrip (d : PatchOrder.t)
  (items : list InsertOrderItem.t) (w : World) :
  let v := result (createOrder d items) w in
  let w' := after (createOrder d items) w in
  result (getOrder (Order.id (OrderWithDetails.order v))) w' = Some v
  /\ OrderWithDetails.order v = newOrder d w
  /\ (forall n, createOrder (patchWithOrderNumber d n) items w
                = createOrder d items w)
  /\ draws w' = (S (draws w) + List.length items)%nat
  /\ reads w' = S (reads w)
  /\ orderCounter (store w') = orderCounter (store w) + 1.
Proof.
  intros v w'. unfold v, w', result, after.
  rewrite createOrder_run. cbn [fst snd].
  split.
  { rewrite getOrder_run. cbn [fst store].
    cbn [OrderWithDetails.order orderView].
    match goal with
    | |- option_map _ (JsMap.get (orders ?s) _) = _ =>
        change (orders s)
          with (JsMap.set (Order.id (newOrder d w)) (newOrder d w)
                          (orders (store w)))
    end.
    now rewrite JsMapFacts.get_set_same. }
  split; [reflexivity|].
  split; [intros n; rewrite !createOrder_run; reflexivity|].
  repeat split.
Qed.
End CreateOrder.

Section CreateOrderItems.
Context {H : Host}.

Lemma has_app {V : Type} (m m' : JsMap.t V) k :
  JsMap.has (m ++ m') k = JsMap.has m k || JsMap.has m' k.
Proof.
  unfold JsMap.has. induction m as [|[k0 v0] r IH]; simpl; auto.
  destruct (String.eqb k0 k); auto.
Qed.

Lemma storeItems_fresh (xs : list OrderItem.t) (m : JsMap.t OrderItem.t) :
  Forall (fun k => JsMap.has m k = false) (map OrderItem.id xs) ->
  NoDup (map OrderItem.id xs) ->
  storeItems xs m = m ++ map (fun x => (OrderItem.id x, x)) xs.
Proof.
  unfold storeItems. revert m. induction xs as [|x r IH]; intros m F N; simpl.
  - now rewrite app_nil_r.
  - inversion F as [|? ? F1 F2]; subst. inversion N as [|? ? N1 N2]; subst.
    rewrite set_absent by assumption. rewrite IH; auto.
    + now rewrite <- app_assoc.
    + rewrite Forall_forall in *. intros k I.
      rewrite has_app, (F2 k I). simpl. unfold JsMap.has. simpl.
      destruct (String.eqb (OrderItem.id x) k) eqn:E; auto.
      apply String.eqb_eq in E. subst k. contradiction.
Qed.

Lemma newOrderItems_ids id items k :
  map OrderItem.id (newOrderItems id items k)
  = map randomUUID_at (seq k (List.length items)).
Proof.
  revert k. induction items as [|item r IH]; intros k; simpl; auto.
  now rewrite IH.
Qed.

Lemma newOrderItems_of id items k :
  filter (itemOf id) (newOrderItems id items k) = newOrderItems id items k.
Proof.
  revert k. induction items as [|item r IH]; intros k; simpl; auto.
  unfold itemOf at 1. simpl. now rewrite String.eqb_refl, IH.
Qed.

Lemma newOrderItems_prices id items k :
  map OrderItem.totalPrice (newOrderItems id items k)
  = map InsertOrderItem.totalPrice items.
Proof.
  revert k. induction items as [|item r IH]; intros k; simpl; auto.
  now rewrite IH.
Qed.

Lemma newOrderItems_orderId id items k :
  Forall (fun x => OrderItem.orderId x = id) (newOrderItems id items k).
Proof.
  revert k. induction items as [|item r IH]; intros k; simpl; constructor; auto.
Qed.

(** X7: when the identifiers the host hands out are new (no stored item
    refers to the order's identifier, and the items' identifiers are
    distinct and not in use), the order that [createOrder] returns, and
    [getOrderItems] after it, hold exactly one order item per input item, in
    the order of the input, each under the new order's identifier whatever
    [orderId] the input carried and with the [totalPrice] the caller gave;
    the order's [totalValue] is the caller's too, not a sum of the items. *)
Theorem createOrder_items (d : PatchOrder.t) (items : list InsertOrderItem.t)
  (w : World) :
  filter (itemOf (randomUUID_at (draws w)))
         (JsMap.values (orderItems (store w))) = [] ->
  Forall (fun k => JsMap.has (orderItems (store w)) k = false)
         (itemIds w (List.length items)) ->
  NoDup (itemIds w (List.length items)) ->
  let v := result (createOrder d items) w in
  let w' := after (createOrder d items) w in
  let id := Order.id (OrderWithDetails.order v) in
  let stored := newOrderItems id items (S (draws w)) in
  result (getOrderItems id) w' = stored
  /\ map ItemWithProduct.item (OrderWithDetails.items v) = stored
  /\ List.length stored = List.length items
  /\ Forall (fun x => OrderItem.orderId x = id) stored
  /\ map OrderItem.totalPrice stored = map InsertOrderItem.totalPrice items
  /\ Order.totalValue (OrderWithDetails.order v)
     = Some (orElse (PatchOrder.totalValue d) "0").
Proof.
  intros E F N v w' id stored.
  assert (Eid : id = randomUUID_at (draws w)).
  { unfold id, v, result. rewrite createOrder_run. reflexivity. }
  assert (Ei : filter (itemOf id) (JsMap.values (orderItems (store w'))) = stored).
  { unfold w', after. rewrite createOrder_run. cbn [snd store].
    cbn [orderItems setOrderItems setOrders setOrderCounter].
    change (Order.id (newOrder d w)) with (randomUUID_at (draws w)).
    rewrite storeItems_fresh.
    - unfold JsMap.values. rewrite map_app, map_map. simpl. rewrite map_id.
      rewrite filter_app. rewrite Eid.
      unfold JsMap.values in E. rewrite E. simpl.
      unfold stored. rewrite Eid. apply newOrderItems_of.
    - now rewrite newOrderItems_ids.
    - now rewrite newOrderItems_ids. }
  split; [exact Ei|].
  split.
  { unfold v, result. rewrite createOrder_run. cbn [fst].
    cbn [OrderWithDetails.items orderView]. rewrite map_map. simpl.
    rewrite map_id.
    unfold w', after in Ei. rewrite createOrder_run in Ei. cbn [snd store] in Ei.
    rewrite Eid in Ei. exact Ei. }
  split.
  { unfold stored. rewrite <- (length_map OrderItem.id), newOrderItems_ids.
    now rewrite length_map, length_seq. }
  split; [apply newOrderItems_orderId|].
  split; [apply newOrderItems_prices|].
  unfold v, result. rewrite createOrder_run. reflexivity.
Qed.
End CreateOrderItems.

(** X7, on the sample rows: the order of two items of the specification's
    scenario. *)
Lemma createOrder_items_witness :
  let v := result (createOrder twoItemOrder twoItems) boot in
  let w' := after (createOrder twoItemOrder twoItems) boot in
  map OrderItem.totalPrice
      (result (getOrderItems (Order.id (OrderWithDetails.order v))) w')
  = ["4500.00"; "3750.00"]
  /\ Order.totalValue (OrderWithDetails.order v) = Some "8250.00".
Proof.
  assert (E : itemIds boot (List.length twoItems) = ["id-40"; "id-41"])
    by (vm_compute; reflexivity).
  destruct (createOrder_items twoItemOrder twoItems boot) as [G [_ [_ [_ [P T]]]]].
  - vm_compute. reflexivity.
  - rewrite E. repeat constructor; vm_compute; reflexivity.
  - rewrite E. repeat constructor; simpl; intuition discriminate.
  - cbv zeta. rewrite G, P. split; [reflexivity|exact T].
Defined.

(** ** Updating orders and deliveries *)

Section UpdateMore.
Context {H : Host}.


Lemma patched_delivery_idem (d0 : Delivery.t) (d : PatchDelivery.t) (a : option Z) :
  withDeliveredAt
    (spreadPatchDelivery (withDeliveredAt (spreadPatchDelivery d0 d) a) d) a
  = withDeliveredAt (spreadPatchDelivery d0 d) a.
Proof.
  unfold withDeliveredAt, spreadPatchDelivery. simpl.
  now rewrite !over_idem, !overN_idem.
Qed.

(** X4: the same [updateDelivery] made twice is the same as made once: the
    second call changes nothing and reads no clock, whether the delivery is
    stored or not.  A call draws no identifier, reads the clock at most
    once, and keeps the [id] of the delivery. *)
Theorem updateDelivery_twice (w : World) (id : string) (d : PatchDelivery.t) :
  let w' := after (updateDelivery id d) w in
  after (updateDelivery id d) w' = w'
  /\ result (updateDelivery id d) w' = result (updateDelivery id d) w
  /\ draws w' = draws w
  /\ (reads w' = reads w \/ reads w' = S (reads w))
  /\ (forall d0, JsMap.get (deliveries (store w)) id = Some d0 ->
        exists d', JsMap.get (deliveries (store w')) id = Some d'
                   /\ Delivery.id d' = Delivery.id d0).
Proof.
  intros w'.
  destruct (JsMap.get (deliveries (store w)) id) as [d0|] eqn:G.
  - set (stamps := statusIsDelivered d && notDelivered d0).
    set (at1 := if stamps then Some (now_at (reads w))
                else Delivery.deliveredAt d0).
    set (u := withDeliveredAt (spreadPatchDelivery d0 d) at1).
    assert (E1 : updateDelivery id d w
                 = (Some u, mkWorld (setDeliveries (JsMap.set id u) (store w))
                                    (draws w)
                                    (if stamps then S (reads w) else reads w)))
      by (rewrite updateDelivery_run, G; reflexivity).
    assert (S2 : statusIsDelivered d && notDelivered u = false).
    { unfold notDelivered, u, at1, stamps. simpl.
      destruct (statusIsDelivered d); simpl; auto.
      unfold notDelivered. destruct (Delivery.deliveredAt d0); reflexivity. }
    assert (E2 : updateDelivery id d (snd (updateDelivery id d w))
                 = (Some u, snd (updateDelivery id d w))).
    { rewrite E1. cbn [snd]. rewrite updateDelivery_run. cbv zeta.
      cbn [store deliveries setDeliveries draws reads].
      rewrite JsMapFacts.get_set_same, S2.
      change (Delivery.deliveredAt u) with at1.
      unfold u at 1 2. rewrite patched_delivery_idem. fold u.
      unfold setDeliveries. cbn. now rewrite set_set_same. }
    unfold w', after, result. rewrite E2. rewrite E1. cbn [fst snd draws reads store].
    split; [reflexivity|]. split; [reflexivity|]. split; [reflexivity|].
    split; [destruct stamps; auto|].
    intros d1 [= <-]. exists u. split; [|reflexivity].
    cbn. apply JsMapFacts.get_set_same.
  - assert (E1 : updateDelivery id d w = (None, w))
      by (now rewrite updateDelivery_run, G).
    unfold w', after, result. rewrite !E1. cbn [fst snd]. rewrite !E1.
    repeat split; auto. intros d0 [=].
Qed.
End UpdateMore.


(** ** Deleting a client *)

Section DeleteClient.
Context {H : Host}.

Lemma deleteClient_run id w :
  deleteClient id w =
  (JsMap.has (clients (store w)) id,
   mkWorld (setClients (JsMap.remove id) (store w)) (draws w) (reads w)).
Proof. reflexivity. Qed.

Lemma setClients_remove_twice id s :
  setClients (JsMap.remove id) (setClients (JsMap.remove id) s)
  = setClients (JsMap.remove id) s.
Proof. destruct s. unfold setClients. simpl. now rewrite remove_remove. Qed.

(** X5: [deleteClient] returns whether the client was stored; afterwards
    [getClient] finds nothing under the identifier, the other clients are
    as before, and a second [deleteClient] returns [false] and changes
    nothing.  It does not cascade: every other map is untouched, and an
    order of the deleted client is still returned by [getOrder], with the
    same items, deliveries and invoices and with no [client]. *)
Theorem deleteClient_no_cascade (w : World) (id : string) :
  let w' := after (deleteClient id) w in
  result (deleteClient id) w = JsMap.has (clients (store w)) id
  /\ result (getClient id) w' = None
  /\ (forall id', id' <> id ->
        result (getClient id') w' = result (getClient id') w)
  /\ deleteClient id w' = (false, w')
  /\ setClients (fun _ => clients (store w)) (store w') = store w
  /\ (forall oid o,
        JsMap.get (orders (store w)) oid = Some o ->
        Order.clientId o = Some id ->
        exists v v',
          result (getOrder oid) w = Some v
          /\ result (getOrder oid) w' = Some v'
          /\ OrderWithDetails.client v' = None
          /\ OrderWithDetails.order v' = o
          /\ OrderWithDetails.supplier v' = OrderWithDetails.supplier v
          /\ OrderWithDetails.items v' = OrderWithDetails.items v
          /\ OrderWithDetails.deliveries v' = OrderWithDetails.deliveries v
          /\ OrderWithDetails.invoices v' = OrderWithDetails.invoices v).
Proof.
  intros w'. unfold w', after, result. rewrite deleteClient_run. cbn [fst snd].
  split; [reflexivity|].
  split; [unfold getClient, this; cbn; apply JsMapFacts.get_remove_same|].
  split.
  { intros id' N. unfold getClient, this. cbn.
    apply get_remove_other. congruence. }
  split.
  { rewrite deleteClient_run. cbn [store clients setClients].
    rewrite has_remove_same. now rewrite setClients_remove_twice. }
  split; [now destruct w as [[] ? ?]|].
  intros oid o G C.
  exists (orderView (store w) o).
  exists (orderView (setClients (JsMap.remove id) (store w)) o).
  rewrite !getOrder_run. cbn [fst store orders setClients]. rewrite G.
  split; [reflexivity|]. split; [reflexivity|].
  split.
  { cbn. rewrite C. cbn. apply JsMapFacts.get_remove_same. }
  repeat split.
Qed.
End DeleteClient.

(** X5, on the sample rows: the first sample client is deleted and its
    order, the first sample order, is still served, without a client. *)
Lemma deleteClient_no_cascade_witness :
  let w' := after (deleteClient "id-25") boot in
  result (deleteClient "id-25") boot = true
  /\ option_map OrderWithDetails.client (result (getOrder "id-28") w')
     = Some None
  /\ option_map OrderWithDetails.order (result (getOrder "id-28") w')
     = Some sampleOrder1.
Proof.
  destruct (deleteClient_no_cascade boot "id-25") as [R [_ [_ [_ [_ D]]]]].
  destruct (D "id-28" sampleOrder1) as [v [v' [_ [G' [C [O _]]]]]].
  - vm_compute. reflexivity.
  - reflexivity.
  - cbv zeta. rewrite R, G'. cbn [option_map]. rewrite C, O.
    split; [vm_compute; reflexivity|]. split; reflexivity.
Defined.

(** ** Invoices, deliveries and users *)

Lemma orNull_none (x : js string) :
  orNull x = None <-> x = undefined \/ x = null \/ x = val "".
Proof.
  destruct x as [| |s]; simpl.
  - tauto.
  - tauto.
  - destruct (String.eqb s "") eqn:E.
    + apply String.eqb_eq in E. subst. tauto.
    + split; [discriminate|]. intros [D|[D|D]]; try discriminate.
      injection D as ->. discriminate.
Qed.

Lemma find_app_one {A : Type} (p : A -> bool) (l : list A) (x : A) :
  find p (l ++ [x]) =
  match find p l with
  | Some y => Some y
  | None => if p x then Some x else None
  end.
Proof.
  induction l as [|a r IH]; simpl; auto.
  destruct (p a); auto.
Qed.

Lemma values_app_one {V : Type} (m : JsMap.t V) (k : string) (v : V) :
  JsMap.values (m ++ [(k, v)]) = JsMap.values m ++ [v].
Proof. unfold JsMap.values. now rewrite map_app. Qed.

Section CreateMore.
Context {H : Host}.

(** X8: [createInvoice] stores the invoice under the next identifier of
    the host, for any [orderId], stored or not.  [series], [value] and
    [notes] are stored as [null] exactly when the input leaves them out or
    gives [null] or the empty string.  When the identifier is new, the
    invoice is the last of [getInvoices] of its order, and the invoices of
    every other order are as before. *)
Theorem createInvoice_listed (ins : InsertInvoice.t) (w : World) :
  JsMap.has (invoices (store w)) (randomUUID_at (draws w)) = false ->
  let i := result (createInvoice ins) w in
  let w' := after (createInvoice ins) w in
  result (getInvoices (InsertInvoice.orderId ins)) w'
  = result (getInvoices (InsertInvoice.orderId ins)) w ++ [i]
  /\ (forall oid, oid <> InsertInvoice.orderId ins ->
        result (getInvoices oid) w' = result (getInvoices oid) w)
  /\ Invoice.id i = randomUUID_at (draws w)
  /\ Invoice.orderId i = InsertInvoice.orderId ins
  /\ Invoice.invoiceNumber i = InsertInvoice.invoiceNumber ins
  /\ Invoice.issueDate i = InsertInvoice.issueDate ins
  /\ (Invoice.series i = None <->
      InsertInvoice.series ins = undefined \/ InsertInvoice.series ins = null
      \/ InsertInvoice.series ins = val "")
  /\ (Invoice.value i = None <->
      InsertInvoice.value ins = undefined \/ InsertInvoice.value ins = null
      \/ InsertInvoice.value ins = val "")
  /\ (Invoice.notes i = None <->
      InsertInvoice.notes ins = undefined \/ InsertInvoice.notes ins = null
      \/ InsertInvoice.notes ins = val "").
Proof.
  intros F i w'.
  assert (Ei : JsMap.values (invoices (store w'))
               = JsMap.values (invoices (store w)) ++ [i]).
  { unfold w', i, after, result, createInvoice. unfold_m. cbn.
    rewrite set_absent by exact F. apply values_app_one. }
  split.
  { unfold result, getInvoices, this. cbn [fst]. rewrite Ei, filter_app.
    simpl. unfold i at 1, result, createInvoice. unfold_m. cbn.
    now rewrite String.eqb_refl. }
  split.
  { intros oid N. unfold result, getInvoices, this. cbn [fst].
    rewrite Ei, filter_app. simpl.
    unfold i at 1, result, createInvoice. unfold_m. cbn.
    destruct (String.eqb (InsertInvoice.orderId ins) oid) eqn:E.
    - apply String.eqb_eq in E. congruence.
    - now rewrite app_nil_r. }
  repeat (split; [reflexivity|]).
  split; [apply orNull_none|]. split; apply orNull_none.
Qed.

(** X9: [createDelivery] accepts any [orderId].  [getDelivery] of the new
    identifier returns the delivery with the order it names and that
    order's client and supplier, or with no order when the [orderId] is not
    stored.  The clock is not read, and when the identifier is new the
    delivery is appended to what [getTodayDeliveries] returns exactly when
    its [scheduledDate] falls within the day of the call. *)
Theorem createDelivery_served (ins : InsertDelivery.t) (w : World) :
  JsMap.has (deliveries (store w)) (randomUUID_at (draws w)) = false ->
  let dl := result (createDelivery ins) w in
  let w' := after (createDelivery ins) w in
  result (getDelivery (Delivery.id dl)) w'
  = Some (DeliveryWithDetails.mk dl
            (orderWithParties (store w) (InsertDelivery.orderId ins)))
  /\ Delivery.id dl = randomUUID_at (draws w)
  /\ reads w' = reads w
  /\ map DeliveryWithDetails.delivery (result getTodayDeliveries w')
     = map DeliveryWithDetails.delivery (result getTodayDeliveries w)
       ++ (if scheduledToday (now_at (reads w)) dl then [dl] else []).
Proof.
  intros F dl w'.
  assert (Ew' : w' = mkWorld (setDeliveries (JsMap.set (Delivery.id dl) dl)
                                            (store w))
                             (S (draws w)) (reads w)) by reflexivity.
  split.
  { unfold result. rewrite getDelivery_run. cbn [fst]. rewrite Ew'.
    cbn [store deliveries setDeliveries].
    rewrite JsMapFacts.get_set_same. reflexivity. }
  split; [reflexivity|]. split; [reflexivity|].
  rewrite !getTodayDeliveries_deliveries. rewrite Ew'.
  cbn [store deliveries setDeliveries reads].
  rewrite set_absent by exact F.
  rewrite values_app_one, filter_app. reflexivity.
Qed.

(** X10: [createUser] stores the user under the next identifier of the
    host and never rejects a username that is taken.  [getUserByUsername]
    returns the first stored user with the username, so when the identifier
    is new a user created under a taken username is found by [getUser] but
    [getUserByUsername] still returns the earlier one. *)
Theorem createUser_lookup (ins : InsertUser.t) (w : World) :
  JsMap.has (users (store w)) (randomUUID_at (draws w)) = false ->
  let u := result (createUser ins) w in
  let w' := after (createUser ins) w in
  result (getUser (User.id u)) w' = Some u
  /\ User.username u = InsertUser.username ins
  /\ User.password u = InsertUser.password ins
  /\ JsMap.values (users (store w')) = JsMap.values (users (store w)) ++ [u]
  /\ result (getUserByUsername (InsertUser.username ins)) w'
     = match result (getUserByUsername (InsertUser.username ins)) w with
       | Some earlier => Some earlier
       | None => Some u
       end
  /\ (forall n, n <> InsertUser.username ins ->
        result (getUserByUsername n) w' = result (getUserByUsername n) w).
Proof.
  intros F u w'.
  assert (Ev : JsMap.values (users (store w'))
               = JsMap.values (users (store w)) ++ [u]).
  { unfold w', u, after, result, createUser. unfold_m. cbn.
    rewrite set_absent by exact F. apply values_app_one. }
  split.
  { unfold w', u, after, result, createUser, getUser. unfold_m. cbn.
    apply JsMapFacts.get_set_same. }
  split; [reflexivity|]. split; [reflexivity|]. split; [exact Ev|].
  split.
  { unfold result, getUserByUsername, this. cbn [fst].
    rewrite Ev, find_app_one.
    destruct (find _ (JsMap.values (users (store w)))); auto.
    change (User.username u) with (InsertUser.username ins).
    now rewrite String.eqb_refl. }
  intros n N. unfold result, getUserByUsername, this. cbn [fst].
  rewrite Ev, find_app_one.
  destruct (find _ (JsMap.values (users (store w)))); auto.
  change (User.username u) with (InsertUser.username ins).
  destruct (String.eqb (InsertUser.username ins) n) eqn:E; auto.
  apply String.eqb_eq in E. congruence.
Qed.
End CreateMore.

(** X8, on the sample rows: a first invoice for the first sample order. *)
Lemma createInvoice_listed_witness :
  let i := result (createInvoice bareInvoice) boot in
  result (getInvoices "id-28") (after (createInvoice bareInvoice) boot) = [i]
  /\ Invoice.value i = None.
Proof.
  destruct (createInvoice_listed bareInvoice boot) as [L [_ [_ [_ [_ [_ [_ [V _]]]]]]]].
  - vm_compute. reflexivity.
  - split.
    + etransitivity; [exact L|]. vm_compute. reflexivity.
    + apply V. right. right. reflexivity.
Defined.

(** X9, on the sample rows: a delivery for an order that does not exist is
    created and served without an order. *)
Lemma createDelivery_served_witness :
  let dl := result (createDelivery orphanDelivery) boot in
  option_map DeliveryWithDetails.order
    (result (getDelivery (Delivery.id dl))
            (after (createDelivery orphanDelivery) boot))
  = Some None.
Proof.
  destruct (createDelivery_served orphanDelivery boot) as [G _].
  - vm_compute. reflexivity.
  - cbv zeta. rewrite G. vm_compute. reflexivity.
Defined.

(** X10, on the sample rows: a second user named like the first. *)
Lemma createUser_lookup_witness :
  let second := result (createUser someUser) worldWithUser in
  let w' := after (createUser someUser) worldWithUser in
  result (getUser (User.id second)) w' = Some second
  /\ result (getUserByUsername (InsertUser.username someUser)) w'
     = Some (User.mk "id-39" "admin" "secret").
Proof.
  assert (E : result (getUserByUsername (InsertUser.username someUser))
                     worldWithUser
              = Some (User.mk "id-39" "admin" "secret"))
    by (vm_compute; reflexivity).
  destruct (createUser_lookup someUser worldWithUser) as [G [_ [_ [_ [N _]]]]].
  - vm_compute. reflexivity.
  - rewrite E in N. split; [exact G|exact N].
Defined.

(** ** What no call does *)

Section Never.
Context {H : Host}.

(** X12: the getters do not write.  [getClients], [getClient],
    [getProducts], [getProduct], [getSuppliers], [getSupplier], [getUser],
    [getUserByUsername], [getOrders], [getOrder], [getRecentOrders],
    [getOrderItems], [getDeliveries], [getDelivery] and [getInvoices] leave
    the process exactly as it is; [getTodayDeliveries] and
    [getDashboardStats] leave the storage object as it is, draw no
    identifier and read the clock once. *)
Theorem getters_do_not_write (w : World) :
  (after getClients w = w
   /\ (forall id, after (getClient id) w = w)
   /\ after getProducts w = w
   /\ (forall id, after (getProduct id) w = w)
   /\ after getSuppliers w = w
   /\ (forall id, after (getSupplier id) w = w)
   /\ (forall id, after (getUser id) w = w)
   /\ (forall n, after (getUserByUsername n) w = w))
  /\ (after getOrders w = w
      /\ (forall id, after (getOrder id) w = w)
      /\ (forall limit, after (getRecentOrders limit) w = w)
      /\ (forall id, after (getOrderItems id) w = w)
      /\ after getDeliveries w = w
      /\ (forall id, after (getDelivery id) w = w)
      /\ (forall id, after (getInvoices id) w = w))
  /\ after getTodayDeliveries w = mkWorld (store w) (draws w) (S (reads w))
  /\ after getDashboardStats w = mkWorld (store w) (draws w) (S (reads w)).
Proof.
  split; [repeat split|]. split.
  - split; [unfold after; now rewrite getOrders_run|].
    split; [intros id; unfold after; now rewrite getOrder_run|].
    split; [intros l; unfold after; now rewrite getRecentOrders_run|].
    split; [reflexivity|].
    split; [unfold after; now rewrite getDeliveries_run|].
    split; [intros id; unfold after; now rewrite getDelivery_run|].
    reflexivity.
  - split; [unfold after; now rewrite getTodayDeliveries_run|reflexivity].
Qed.
End Never.

Lemma catalogUntouched_refl s : catalogUntouched s s.
Proof. split; reflexivity. Qed.

Lemma catalogUntouched_trans a b c :
  catalogUntouched a b -> catalogUntouched b c -> catalogUntouched a c.
Proof. unfold catalogUntouched. intros [? ?] [? ?]. split; congruence. Qed.

#[local] Hint Resolve catalogUntouched_refl catalogUntouched_trans : core.

Section Catalog.
Context {H : Host}.

Lemma catalogUntouched_perform (c : Call) :
  preserves catalogUntouched (perform c).
Proof.
  destruct c; simpl.
  - unfold createUser. preserves_steps. split; reflexivity.
  - unfold createClient. preserves_steps. split; reflexivity.
  - unfold updateClient. preserves_steps.
    destruct a; preserves_steps. split; reflexivity.
  - unfold deleteClient. preserves_steps. split; reflexivity.
  - unfold createOrder. preserves_steps; split; reflexivity.
  - unfold updateOrder. preserves_steps.
    destruct a; preserves_steps. split; reflexivity.
  - unfold deleteOrder. preserves_steps; split; reflexivity.
  - unfold createDelivery. preserves_steps. split; reflexivity.
  - unfold updateDelivery. preserves_steps.
    destruct a; preserves_steps.
    + destruct (statusIsDelivered d && notDelivered t); preserves_steps.
    + split; reflexivity.
  - unfold createInvoice. preserves_steps. split; reflexivity.
  - apply preserves_bind; eauto.
    + apply preserves_getTodayDeliveries; auto.
    + intros. apply preserves_ret; auto.
  - apply preserves_bind; eauto.
    + apply preserves_getDashboardStats; auto.
    + intros. apply preserves_ret; auto.
Qed.

(** X11: no method writes to the products or to the suppliers: after any
    session of calls, from any state, both maps are what they were, so
    [getProducts], [getProduct], [getSuppliers] and [getSupplier] answer as
    before. *)
Theorem catalog_never_changes (calls : list Call) (w : World) :
  let w' := after (session calls) w in
  products (store w') = products (store w)
  /\ suppliers (store w') = suppliers (store w)
  /\ result getProducts w' = result getProducts w
  /\ result getSuppliers w' = result getSuppliers w
  /\ (forall id, result (getProduct id) w' = result (getProduct id) w)
  /\ (forall id, result (getSupplier id) w' = result (getSupplier id) w).
Proof.
  intros w'.
  assert (P : preserves catalogUntouched (session calls)).
  { clear. induction calls as [|c r IH]; simpl.
    - apply preserves_ret; auto.
    - apply preserves_bind; eauto; [apply catalogUntouched_perform|].
      intros n. apply preserves_bind; eauto. intros ns.
      apply preserves_ret; auto. }
  destruct (P w) as [E1 E2]. fold w' in E1, E2.
  unfold result, getProducts, getSuppliers, getProduct, getSupplier, this.
  cbn [fst]. rewrite E1, E2. repeat split.
Qed.

Lemma seq_map_shift (c : Z) (n : nat) :
  map (fun k => c + 1 + Z.of_nat k) (seq 1 n)
  = map (fun k => c + Z.of_nat k) (seq 2 n).
Proof.
  rewrite <- (seq_shift n 1), map_map. apply map_ext. intros k. lia.
Qed.

(** X14: the display numbers are consecutive.  From a counter [c], the
    [k]-th [createOrder] of a session returns number [c + k], whatever other
    calls, deletions included, come between, and the counter ends at [c]
    plus the number of [createOrder] calls. *)
Theorem orderNumbers_consecutive (calls : list Call) (w : World) :
  result (session calls) w
  = map (fun k => orderCounter (store w) + Z.of_nat k)
        (seq 1 (creations calls))
  /\ orderCounter (store (after (session calls) w))
     = orderCounter (store w) + Z.of_nat (creations calls).
Proof.
  revert w. induction calls as [|c r IH]; intros w.
  - simpl. split; [reflexivity|]. unfold after. simpl. lia.
  - destruct (session_cons c r w) as [-> ->].
    destruct (IH (after (perform c) w)) as [E1 E2].
    rewrite E1, E2, perform_counter, perform_result.
    destruct c; try (split; [reflexivity|reflexivity]).
    cbn [creations]. split.
    + cbn [seq map]. f_equal. apply seq_map_shift.
    + lia.
Qed.
End Catalog.

(** Three orders are created around a deletion and an update. *)
Example orderNumbers_consecutive_example :
  result (session busySession) boot = [1004; 1005; 1006].
Proof. vm_compute. reflexivity. Qed.

(** ** Deleting twice, bounds of the recent list, lists and details *)

Lemma wellKeyed_orders s :
  wellKeyed s = true ->
  JsMap.uniqueKeys (orders s) = true /\ JsMap.keyed Order.id (orders s) = true.
Proof. unfold wellKeyed. rewrite !andb_true_iff. tauto. Qed.

Lemma wellKeyed_deliveries s :
  wellKeyed s = true ->
  JsMap.uniqueKeys (deliveries s) = true
  /\ JsMap.keyed Delivery.id (deliveries s) = true.
Proof. unfold wellKeyed. rewrite !andb_true_iff. tauto. Qed.

Lemma In_values_get {V : Type} (idOf : V -> string) (m : JsMap.t V) (v : V) :
  JsMap.uniqueKeys m = true -> JsMap.keyed idOf m = true ->
  In v (JsMap.values m) -> JsMap.get m (idOf v) = Some v.
Proof.
  intros U K I. unfold JsMap.values in I. apply in_map_iff in I.
  destruct I as [[k v'] [E I]]. simpl in E. subst v'.
  assert (idOf v = k) by (eapply JsMapFacts.keyed_In; eauto). subst k.
  now apply unique_In_get.
Qed.

Lemma firstn_prefix {A : Type} (n : nat) (l : list A) :
  exists rest, l = firstn n l ++ rest.
Proof. exists (skipn n l). symmetry. apply firstn_skipn. Qed.

Section Composition.
Context {H : Host}.

(** X15: on a store where every record is kept under its own identifier, a
    second [deleteOrder] of the same identifier returns [false] and changes
    nothing.  A [deleteOrder] never touches the users, clients, products,
    suppliers or the counter, draws no identifier and reads no clock. *)
Theorem deleteOrder_twice (w : World) (id : string) :
  wellKeyed (store w) = true ->
  let w' := after (deleteOrder id) w in
  deleteOrder id w' = (false, w')
  /\ users (store w') = users (store w)
  /\ clients (store w') = clients (store w)
  /\ products (store w') = products (store w)
  /\ suppliers (store w') = suppliers (store w)
  /\ orderCounter (store w') = orderCounter (store w)
  /\ draws w' = draws w
  /\ reads w' = reads w.
Proof.
  intros W w'.
  assert (Ew' : w' = mkWorld (setOrders (JsMap.remove id) (cascaded id (store w)))
                             (draws w) (reads w))
    by (unfold w', after; now rewrite deleteOrder_run).
  split; [|rewrite Ew'; repeat split].
  rewrite deleteOrder_run.
  assert (Hhas : JsMap.has (orders (store w')) id = false)
    by (rewrite Ew'; cbn; apply has_remove_same).
  assert (N : noDependents id (store w')).
  { rewrite Ew'. cbn [store]. rewrite (cascaded_wellKeyed _ _ W). cbn.
    repeat split; apply filter_values_without. }
  rewrite Hhas, (cascaded_noDependents _ _ N).
  rewrite (setOrders_remove_absent _ _ Hhas). now destruct w'.
Qed.

(** X16: what [getRecentOrders] returns is always a prefix of what
    [getOrders] returns, and it is all of it when the limit is at least the
    number of stored orders. *)
Theorem getRecentOrders_all (limit : Z) (w : World) :
  Z.of_nat (List.length (JsMap.values (orders (store w)))) <= limit ->
  result (getRecentOrders limit) w = result getOrders w
  /\ List.length (result getOrders w)
     = List.length (JsMap.values (orders (store w)))
  /\ forall n, exists rest,
       result getOrders w = result (getRecentOrders n) w ++ rest.
Proof.
  intros L.
  assert (Len : List.length (result getOrders w)
                = List.length (JsMap.values (orders (store w)))).
  { rewrite (Permutation_length (getOrders_all w)). now rewrite length_map. }
  split; [|split; [exact Len|]].
  - unfold result at 1. rewrite getRecentOrders_run. cbn [fst].
    rewrite slice0_nonneg by lia. apply firstn_all2. lia.
  - intros n. unfold result at 2. rewrite getRecentOrders_run. cbn [fst].
    unfold slice0. destruct (n <? 0); apply firstn_prefix.
Qed.

(** X18: the lists and the lookups agree.  On a store where every record is
    kept under its own identifier, each element of [getOrders] is what
    [getOrder] returns for its identifier, each element of [getDeliveries]
    is what [getDelivery] returns for its identifier, and whatever
    [getOrder] or [getDelivery] returns is in the list. *)
Theorem lists_agree_with_lookups (w : World) :
  wellKeyed (store w) = true ->
  Forall (fun v =>
            result (getOrder (Order.id (OrderWithDetails.order v))) w = Some v)
         (result getOrders w)
  /\ Forall (fun v =>
               result (getDelivery
                         (Delivery.id (DeliveryWithDetails.delivery v))) w
               = Some v)
            (result getDeliveries w)
  /\ (forall id v, result (getOrder id) w = Some v -> In v (result getOrders w))
  /\ (forall id v, result (getDelivery id) w = Some v ->
        In v (result getDeliveries w)).
Proof.
  intros W.
  destruct (wellKeyed_orders _ W) as [UO KO].
  destruct (wellKeyed_deliveries _ W) as [UD KD].
  split; [|split; [|split]].
  - apply Forall_forall. intros v I.
    unfold result in I. rewrite getOrders_run in I. cbn [fst] in I.
    apply (Permutation_in _ (Permutation_sym (sort_perm OrderWithDetails.createdAt _))) in I.
    apply in_map_iff in I. destruct I as [o [<- I]].
    rewrite buildOrderWithDetails_view. cbn [OrderWithDetails.order orderView].
    unfold result. rewrite getOrder_run. cbn [fst].
    now rewrite (In_values_get Order.id _ _ UO KO I).
  - apply Forall_forall. intros v I.
    unfold result in I. rewrite getDeliveries_run in I. cbn [fst] in I.
    apply (Permutation_in _ (Permutation_sym (arraySort_elements _ _ _))) in I.
    apply in_map_iff in I. destruct I as [d [<- I]].
    rewrite buildDeliveryWithDetails_view.
    cbn [DeliveryWithDetails.delivery deliveryView].
    unfold result. rewrite getDelivery_run. cbn [fst].
    now rewrite (In_values_get Delivery.id _ _ UD KD I).
  - intros id v G. unfold result in *. rewrite getOrder_run in G.
    rewrite getOrders_run. cbn [fst] in *.
    destruct (JsMap.get (orders (store w)) id) as [o|] eqn:E; [|discriminate].
    injection G as <-.
    apply (Permutation_in _ (sort_perm OrderWithDetails.createdAt _)).
    apply in_map_iff. exists o. split.
    + apply buildOrderWithDetails_view.
    + apply JsMapFacts.get_In in E. unfold JsMap.values.
      change o with (snd (id, o)). now apply in_map.
  - intros id v G. unfold result in *. rewrite getDelivery_run in G.
    rewrite getDeliveries_run. cbn [fst] in *.
    destruct (JsMap.get (deliveries (store w)) id) as [d|] eqn:E; [|discriminate].
    injection G as <-.
    apply (Permutation_in _ (arraySort_elements _ _ _)).
    apply in_map_iff. exists d. split.
    + apply buildDeliveryWithDetails_view.
    + apply JsMapFacts.get_In in E. unfold JsMap.values.
      change d with (snd (id, d)). now apply in_map.
Qed.
End Composition.

(** X15, on the sample rows. *)
Lemma deleteOrder_twice_witness :
  deleteOrder "id-28" (after (deleteOrder "id-28") boot)
  = (false, after (deleteOrder "id-28") boot).
Proof.
  destruct (deleteOrder_twice boot "id-28") as [T _].
  - vm_compute. reflexivity.
  - exact T.
Defined.

(** X16, on the sample rows: the limit of the route, 5, with three orders. *)
Lemma getRecentOrders_all_witness :
  result (getRecentOrders 5) boot = result getOrders boot.
Proof.
  destruct (getRecentOrders_all 5 boot) as [A _].
  - vm_compute. discriminate.
  - exact A.
Defined.

(** X18, on the sample rows. *)
Lemma lists_agree_with_lookups_witness :
  Forall (fun v =>
            result (getOrder (Order.id (OrderWithDetails.order v))) boot
            = Some v)
         (result getOrders boot).
Proof.
  destruct (lists_agree_with_lookups boot) as [A _].
  - vm_compute. reflexivity.
  - exact A.
Defined.

(** * The routes *)

Section RouteFacts.
Context {H : Host} {Sch : Schemas}.

Lemma getClient_run id w :
  getClient id w = (JsMap.get (clients (store w)) id, w).
Proof. reflexivity. Qed.

Lemma get_client_run id w :
  get_client id w =
  (match JsMap.get (clients (store w)) id with
   | Some c => respond 200 (ClientBody c)
   | None => respond 404 (ErrorBody "Client not found")
   end, w).
Proof.
  unfold get_client, bind. rewrite getClient_run.
  destruct (JsMap.get (clients (store w)) id); reflexivity.
Qed.

Lemma get_order_run id w :
  get_order id w =
  (match JsMap.get (orders (store w)) id with
   | Some o => respond 200 (OrderBodyOf (orderView (store w) o))
   | None => respond 404 (ErrorBody "Order not found")
   end, w).
Proof.
  unfold get_order, bind. rewrite getOrder_run.
  destruct (JsMap.get (orders (store w)) id); reflexivity.
Qed.

Lemma get_delivery_run id w :
  get_delivery id w =
  (match JsMap.get (deliveries (store w)) id with
   | Some d => respond 200 (DeliveryBody (deliveryView (store w) d))
   | None => respond 404 (ErrorBody "Delivery not found")
   end, w).
Proof.
  unfold get_delivery, bind. rewrite getDelivery_run.
  destruct (JsMap.get (deliveries (store w)) id); reflexivity.
Qed.

Lemma delete_order_run id w :
  delete_order id w =
  (if JsMap.has (orders (store w)) id
   then respond 204 NoBody
   else respond 404 (ErrorBody "Order not found"),
   after (deleteOrder id) w).
Proof.
  unfold delete_order, bind, after. rewrite deleteOrder_run. cbn [snd].
  destruct (JsMap.has (orders (store w)) id); reflexivity.
Qed.

Lemma delete_client_run id w :
  delete_client id w =
  (if JsMap.has (clients (store w)) id
   then respond 204 NoBody
   else respond 404 (ErrorBody "Client not found"),
   after (deleteClient id) w).
Proof.
  unfold delete_client, bind, after. rewrite deleteClient_run. cbn [snd].
  destruct (JsMap.has (clients (store w)) id); reflexivity.
Qed.

(** X19: DELETE /api/orders/:id and DELETE /api/clients/:id answer 204 with
    an empty body when the record was stored and 404 with an error
    otherwise.  After either answer, GET of the same identifier answers 404
    and a repeated DELETE answers 404. *)
Theorem delete_routes (w : World) (id : string) :
  (result (delete_order id) w
   = (if JsMap.has (orders (store w)) id
      then respond 204 NoBody
      else respond 404 (ErrorBody "Order not found"))
   /\ result (get_order id) (after (delete_order id) w)
      = respond 404 (ErrorBody "Order not found")
   /\ result (delete_order id) (after (delete_order id) w)
      = respond 404 (ErrorBody "Order not found"))
  /\ (result (delete_client id) w
      = (if JsMap.has (clients (store w)) id
         then respond 204 NoBody
         else respond 404 (ErrorBody "Client not found"))
      /\ result (get_client id) (after (delete_client id) w)
         = respond 404 (ErrorBody "Client not found")
      /\ result (delete_client id) (after (delete_client id) w)
         = respond 404 (ErrorBody "Client not found")).
Proof.
  split.
  - assert (G : JsMap.get (orders (store (after (delete_order id) w))) id = None).
    { unfold after. rewrite delete_order_run. cbn [snd].
      unfold after. rewrite deleteOrder_run. cbn.
      apply JsMapFacts.get_remove_same. }
    split; [unfold result; now rewrite delete_order_run|].
    split.
    + unfold result. rewrite get_order_run. cbn [fst]. now rewrite G.
    + unfold result. rewrite delete_order_run. cbn [fst].
      unfold JsMap.has. now rewrite G.
  - assert (G : JsMap.get (clients (store (after (delete_client id) w))) id = None).
    { unfold after. rewrite delete_client_run. cbn [snd].
      unfold after. rewrite deleteClient_run. cbn.
      apply JsMapFacts.get_remove_same. }
    split; [unfold result; now rewrite delete_client_run|].
    split.
    + unfold result. rewrite get_client_run. cbn [fst]. now rewrite G.
    + unfold result. rewrite delete_client_run. cbn [fst].
      unfold JsMap.has. now rewrite G.
Qed.

(** X20: GET /api/clients/:id, GET /api/orders/:id and GET
    /api/deliveries/:id answer 404 exactly when nothing is stored under the
    identifier and 200 otherwise, with what the storage method returns, and
    leave the process as it is. *)
Theorem get_by_id_routes (w : World) (id : string) :
  (after (get_client id) w = w
   /\ (status (result (get_client id) w) = 404
       <-> JsMap.get (clients (store w)) id = None)
   /\ (forall c, result (getClient id) w = Some c <->
                 result (get_client id) w = respond 200 (ClientBody c)))
  /\ (after (get_order id) w = w
      /\ (status (result (get_order id) w) = 404
          <-> JsMap.get (orders (store w)) id = None)
      /\ (forall v, result (getOrder id) w = Some v <->
                    result (get_order id) w = respond 200 (OrderBodyOf v)))
  /\ (after (get_delivery id) w = w
      /\ (status (result (get_delivery id) w) = 404
          <-> JsMap.get (deliveries (store w)) id = None)
      /\ (forall v, result (getDelivery id) w = Some v <->
                    result (get_delivery id) w = respond 200 (DeliveryBody v))).
Proof.
  unfold after, result.
  rewrite get_client_run, get_order_run, get_delivery_run.
  rewrite getClient_run, getOrder_run, getDelivery_run. cbn [fst snd].
  split; [|split].
  - split; [reflexivity|].
    destruct (JsMap.get (clients (store w)) id) as [c|]; cbn.
    + split; [split; discriminate|].
      intros c'. split; intros [=]; subst; reflexivity.
    + split; [tauto|]. intros c'. split; discriminate.
  - split; [reflexivity|].
    destruct (JsMap.get (orders (store w)) id) as [o|]; cbn.
    + split; [split; discriminate|].
      intros v. split; intros [=]; subst; reflexivity.
    + split; [tauto|]. intros v. split; discriminate.
  - split; [reflexivity|].
    destruct (JsMap.get (deliveries (store w)) id) as [d|]; cbn.
    + split; [split; discriminate|].
      intros v. split; intros [=]; subst; reflexivity.
    + split; [tauto|]. intros v. split; discriminate.
Qed.

(** X21: POST /api/clients answers 400 and stores nothing when the body
    does not validate; otherwise it answers 201 with the client it stored,
    which is the validated body and the next identifier of the host, and
    GET /api/clients/:id of that identifier answers 200 with the same
    client. *)
Theorem post_client_route (reqBody : json) (w : World) :
  match parseInsertClient reqBody with
  | None => post_client reqBody w = (respond 400 ZodErrors, w)
  | Some data =>
      let c := spreadInsertClient data (randomUUID_at (draws w)) in
      result (post_client reqBody) w = respond 201 (ClientBody c)
      /\ result (get_client (Client.id c)) (after (post_client reqBody) w)
         = respond 200 (ClientBody c)
  end.
Proof.
  unfold post_client.
  destruct (parseInsertClient reqBody) as [data|]; [|reflexivity].
  cbv beta iota zeta. split; [reflexivity|].
  unfold result. rewrite get_client_run. cbn [fst].
  unfold after, createClient. unfold_m. cbn.
  now rewrite JsMapFacts.get_set_same.
Qed.

Lemma storeItemsUnchecked_items id items w :
  storeItemsUnchecked id (map Some items) w
  = (true,
     mkWorld (setOrderItems (storeItems (newOrderItems id items (draws w)))
                            (store w))
             (draws w + List.length items) (reads w)).
Proof.
  revert w. induction items as [|item r IH]; intros w.
  - simpl. destruct w as [[] ? ?]. unfold ret, setOrderItems, storeItems.
    simpl. now rewrite Nat.add_0_r.
  - cbn [map storeItemsUnchecked]. unfold bind at 1. unfold randomUUID.
    unfold bind at 1. unfold update. rewrite IH.
    cbn [store draws reads]. f_equal. f_equal. cbn [List.length]. lia.
Qed.

Lemma storeItemsUnchecked_null id before rest w :
  storeItemsUnchecked id (map Some before ++ None :: rest) w
  = (false,
     mkWorld (setOrderItems (storeItems (newOrderItems id before (draws w)))
                            (store w))
             (S (draws w + List.length before)) (reads w)).
Proof.
  revert w. induction before as [|item r IH]; intros w.
  - simpl. unfold bind, randomUUID, ret. destruct w as [[] ? ?].
    unfold setOrderItems, storeItems. simpl. now rewrite Nat.add_0_r.
  - cbn [map app storeItemsUnchecked]. unfold bind at 1. unfold randomUUID.
    unfold bind at 1. unfold update. rewrite IH.
    cbn [store draws reads]. f_equal. f_equal. cbn [List.length]. lia.
Qed.

(** On an array without [null] the unchecked call is the typed one. *)
Lemma createOrderUnchecked_items d items w :
  createOrderUnchecked d (map Some items) w
  = (Some (result (createOrder d items) w), after (createOrder d items) w).
Proof.
  unfold result, after. rewrite createOrder_run. cbn [fst snd].
  unfold createOrderUnchecked.
  repeat (rewrite run_bind; cbv beta).
  unfold result, after, randomUUID, update, this, newDate.
  cbn [fst snd store draws reads].
  rewrite storeItemsUnchecked_items.
  cbn [fst snd store draws reads].
  match goal with
  | |- (x <- buildOrderWithDetails ?o ;; ret (Some x)) ?W = _ =>
      rewrite run_bind;
      rewrite (readOnly_buildOrderWithDetails o W);
      rewrite (buildOrderWithDetails_view o W)
  end.
  unfold ret. reflexivity.
Qed.

(** On an array with a [null] the call throws, after it stored the order
    and the items before the [null]. *)
Lemma createOrderUnchecked_null d before rest w :
  let o := newOrder d w in
  createOrderUnchecked d (map Some before ++ None :: rest) w
  = (None,
     mkWorld
       (setOrderItems
          (storeItems (newOrderItems (Order.id o) before (S (draws w))))
          (setOrders (JsMap.set (Order.id o) o)
             (setOrderCounter (fun n => n + 1) (store w))))
       (S (S (draws w) + List.length before)) (S (reads w))).
Proof.
  intros o. unfold createOrderUnchecked.
  repeat (rewrite run_bind; cbv beta).
  unfold result, after, randomUUID, update, this, newDate.
  cbn [fst snd store draws reads].
  rewrite storeItemsUnchecked_null.
  cbn [fst snd store draws reads]. reflexivity.
Qed.

Lemma items_with_or_without_null (items : list (option InsertOrderItem.t)) :
  (exists typed, items = map Some typed)
  \/ (exists before rest, items = map Some before ++ None :: rest).
Proof.
  induction items as [|[item|] r IH].
  - left. now exists [].
  - destruct IH as [[typed ->]|[before [rest ->]]].
    + left. now exists (item :: typed).
    + right. now exists (item :: before), rest.
  - right. now exists [], r.
Qed.

(** X22: POST /api/orders answers 400 and changes nothing, the counter
    included, when [order] is falsy or [items] is falsy or not an array.
    With an array of items, the empty one included, it answers 201 with the
    view of the order it created, the counter advances by one, and GET
    /api/orders/:id of the new identifier answers 200 with the same view.
    With an array that holds a [null] it answers 500, and yet the order is
    stored under the next display number together with the items that come
    before the [null]: GET /api/orders/:id answers 200 for it.  An array is
    of one of these two kinds. *)
Theorem post_order_route (w : World) :
  (forall reqBody,
     bodyOrder reqBody = None \/ bodyItems reqBody = ItemsFalsy
     \/ bodyItems reqBody = ItemsNotArray ->
     post_order reqBody w = (respond 400 (ErrorBody "Invalid order data"), w))
  /\ (forall d items,
        let reqBody := mkOrderBody (Some d) (ItemsArray (map Some items)) in
        let v := result (createOrder d items) w in
        let w' := after (post_order reqBody) w in
        result (post_order reqBody) w = respond 201 (OrderBodyOf v)
        /\ w' = after (createOrder d items) w
        /\ result (get_order (Order.id (OrderWithDetails.order v))) w'
           = respond 200 (OrderBodyOf v)
        /\ orderCounter (store w') = orderCounter (store w) + 1)
  /\ (forall d before rest,
        let reqBody :=
          mkOrderBody (Some d) (ItemsArray (map Some before ++ None :: rest)) in
        let o := newOrder d w in
        let w' := after (post_order reqBody) w in
        result (post_order reqBody) w
        = respond 500 (ErrorBody "Failed to create order")
        /\ JsMap.get (orders (store w')) (Order.id o) = Some o
        /\ Order.orderNumber o = orderCounter (store w) + 1
        /\ orderCounter (store w') = orderCounter (store w) + 1
        /\ orderItems (store w')
           = storeItems (newOrderItems (Order.id o) before (S (draws w)))
                        (orderItems (store w))
        /\ draws w' = S (S (draws w) + List.length before)
        /\ exists v,
             result (get_order (Order.id o)) w' = respond 200 (OrderBodyOf v)
             /\ OrderWithDetails.order v = o)
  /\ (forall items : list (option InsertOrderItem.t),
        (exists typed, items = map Some typed)
        \/ (exists before rest, items = map Some before ++ None :: rest)).
Proof.
  split; [|split; [|split]].
  - intros [[d|] [| |items]] [E|[E|E]]; simpl in E; try discriminate;
      reflexivity.
  - intros d items reqBody v w'.
    assert (R : post_order reqBody w
                = (respond 201 (OrderBodyOf v), after (createOrder d items) w)).
    { unfold post_order, reqBody. cbn [bodyOrder bodyItems].
      rewrite run_bind. unfold result at 1. unfold after at 1.
      rewrite createOrderUnchecked_items. reflexivity. }
    assert (Ew : w' = after (createOrder d items) w)
      by (unfold w', after at 1; now rewrite R).
    clearbody w'. subst w'.
    split; [unfold result at 1; now rewrite R|].
    split; [reflexivity|]. split.
    + unfold result at 1. rewrite get_order_run. cbn [fst].
      unfold v, result, after. rewrite createOrder_run. cbn [fst snd store].
      cbn [OrderWithDetails.order orderView].
      match goal with
      | |- match JsMap.get (orders ?s) _ with _ => _ end = _ =>
          change (orders s)
            with (JsMap.set (Order.id (newOrder d w)) (newOrder d w)
                            (orders (store w)))
      end.
      now rewrite JsMapFacts.get_set_same.
    + apply createOrder_counter.
  - intros d before rest reqBody o w'.
    assert (R : post_order reqBody w
                = (respond 500 (ErrorBody "Failed to create order"),
                   snd (createOrderUnchecked d
                          (map Some before ++ None :: rest) w))).
    { unfold post_order, reqBody. cbn [bodyOrder bodyItems].
      rewrite run_bind. unfold result at 1. unfold after at 1.
      rewrite createOrderUnchecked_null. reflexivity. }
    assert (Ew : w' = snd (createOrderUnchecked d
                             (map Some before ++ None :: rest) w))
      by (unfold w', after; now rewrite R).
    clearbody w'. subst w'.
    split; [unfold result; now rewrite R|].
    rewrite createOrderUnchecked_null. cbn [snd store draws].
    fold o.
    assert (G : JsMap.get
                  (orders (setOrderItems
                     (storeItems (newOrderItems (Order.id o) before (S (draws w))))
                     (setOrders (JsMap.set (Order.id o) o)
                        (setOrderCounter (fun n => n + 1) (store w)))))
                  (Order.id o) = Some o).
    { cbn [orders setOrderItems setOrders setOrderCounter].
      apply JsMapFacts.get_set_same. }
    split; [exact G|].
    split; [reflexivity|]. split; [reflexivity|].
    split; [reflexivity|]. split; [reflexivity|].
    eexists. unfold result. rewrite get_order_run. cbn [fst store].
    rewrite G. split; reflexivity.
  - apply items_with_or_without_null.
Qed.
End RouteFacts.

Section RouteFacts2.
Context {H : Host} {Sch : Schemas}.

(** X23: GET /api/orders/:orderId/invoices never answers 404: for any
    identifier, of a stored order or not, it answers 200 with the invoices
    that refer to it, an empty list when there are none.  GET
    /api/orders/recent answers 200 with at most five orders, newest first,
    which are the first of GET /api/orders and all of them when at most
    five orders are stored. *)
Theorem list_routes (w : World) (orderId : string) :
  (get_order_invoices orderId w
   = (respond 200 (InvoicesBody (result (getInvoices orderId) w)), w)
   /\ (filter (invoiceOf orderId) (JsMap.values (invoices (store w))) = [] ->
       result (get_order_invoices orderId) w = respond 200 (InvoicesBody [])))
  /\ exists recent all_ rest,
       get_orders_recent w = (respond 200 (OrdersBody recent), w)
       /\ get_orders w = (respond 200 (OrdersBody all_), w)
       /\ all_ = recent ++ rest
       /\ (List.length recent <= 5)%nat
       /\ descendingBy OrderWithDetails.createdAt recent
       /\ ((List.length (JsMap.values (orders (store w))) <= 5)%nat ->
           recent = all_).
Proof.
  split.
  - split; [reflexivity|].
    intros E. unfold result, get_order_invoices, getInvoices, ok.
    unfold_m. cbn [fst]. unfold invoiceOf in E. now rewrite E.
  - exists (firstn 5 (result getOrders w)), (result getOrders w),
           (skipn 5 (result getOrders w)).
    split.
    { unfold get_orders_recent, bind. rewrite getRecentOrders_run.
      rewrite slice0_nonneg by lia. reflexivity. }
    split.
    { unfold get_orders, bind, result. rewrite getOrders_run. reflexivity. }
    split; [symmetry; apply firstn_skipn|].
    split; [rewrite length_firstn; lia|].
    split; [apply descendingBy_firstn, getOrders_descending|].
    intros L. apply firstn_all2.
    rewrite (Permutation_length (getOrders_all w)), length_map in L. exact L.
Qed.

(** X24: PATCH /api/clients/:id validates before it looks the client up: a
    body that does not validate is answered with 400 whether the client
    exists or not; a valid patch of an identifier that is not stored is
    answered with 404; in both cases nothing changes.  Otherwise the answer
    is 200 with the merged client, which GET /api/clients/:id then returns.
    PATCH /api/orders/:id does not validate: it answers 404 for an
    identifier that is not stored and otherwise 200 with the merged order,
    and a body that carries an [orderNumber] renumbers the stored order. *)
Theorem patch_routes (w : World) (id : string) :
  (forall reqBody,
     match parsePartialClient reqBody, JsMap.get (clients (store w)) id with
     | None, _ => patch_client id reqBody w = (respond 400 ZodErrors, w)
     | Some _, None =>
         patch_client id reqBody w
         = (respond 404 (ErrorBody "Client not found"), w)
     | Some data, Some c =>
         result (patch_client id reqBody) w
         = respond 200 (ClientBody (spreadPatchClient c data))
         /\ result (get_client id) (after (patch_client id reqBody) w)
            = respond 200 (ClientBody (spreadPatchClient c data))
     end)
  /\ (forall d,
        match JsMap.get (orders (store w)) id with
        | None =>
            patch_order id d w = (respond 404 (ErrorBody "Order not found"), w)
        | Some o =>
            result (patch_order id d) w
            = respond 200 (PlainOrderBody (spreadPatchOrder o d))
            /\ JsMap.get (orders (store (after (patch_order id d) w))) id
               = Some (spreadPatchOrder o d)
            /\ (forall n, PatchOrder.orderNumber d = Some n ->
                  Order.orderNumber (spreadPatchOrder o d) = n)
        end).
Proof.
  split.
  - intros reqBody. unfold patch_client.
    destruct (parsePartialClient reqBody) as [data|]; [|reflexivity].
    unfold result, after, bind. rewrite updateClient_run.
    destruct (JsMap.get (clients (store w)) id) as [c|] eqn:G; [|reflexivity].
    split; [reflexivity|].
    cbn [fst snd ok ret]. rewrite get_client_run. cbn.
    now rewrite JsMapFacts.get_set_same.
  - intros d. unfold patch_order, result, after, bind. rewrite updateOrder_run.
    destruct (JsMap.get (orders (store w)) id) as [o|] eqn:G; [|reflexivity].
    split; [reflexivity|]. split.
    + cbn. apply JsMapFacts.get_set_same.
    + intros n E. unfold spreadPatchOrder. cbn. now rewrite E.
Qed.
End RouteFacts2.

(** ** The dashboard after a creation *)

Section DashboardAfter.
Context {H : Host}.

Lemma countWhere_app {A : Type} (p : A -> bool) (l l' : list A) :
  countWhere p (l ++ l') = (countWhere p l + countWhere p l')%nat.
Proof.
  induction l as [|x r IH]; simpl; auto. rewrite IH. lia.
Qed.

(** X17: when the identifier drawn for it is new, a [createOrder] without
    a status, or with an empty one, raises [pendingOrders] of
    [getDashboardStats] by one and leaves [activeClients] as it is. *)
Theorem createOrder_counts_as_pending (d : PatchOrder.t)
  (items : list InsertOrderItem.t) (w : World) :
  JsMap.has (orders (store w)) (randomUUID_at (draws w)) = false ->
  orElse (PatchOrder.status d) "pending" = "pending" ->
  let w' := after (createOrder d items) w in
  pendingOrders (result getDashboardStats w')
  = S (pendingOrders (result getDashboardStats w))
  /\ activeClients (result getDashboardStats w')
     = activeClients (result getDashboardStats w).
Proof.
  intros F P w'.
  assert (Eo : JsMap.values (orders (store w'))
               = JsMap.values (orders (store w)) ++ [newOrder d w]).
  { unfold w', after. rewrite createOrder_run. cbn [snd store].
    cbn [orders setOrderItems setOrders setOrderCounter].
    change (Order.id (newOrder d w)) with (randomUUID_at (draws w)).
    rewrite set_absent by exact F. apply values_app_one. }
  assert (Ec : clients (store w') = clients (store w)).
  { unfold w', after. rewrite createOrder_run. reflexivity. }
  unfold result, getDashboardStats. unfold_m. cbn [fst pendingOrders activeClients].
  rewrite Eo, Ec. split; [|reflexivity].
  rewrite !length_filter_countWhere, countWhere_app. simpl.
  change (Order.status (newOrder d w)) with (orElse (PatchOrder.status d) "pending").
  rewrite P. simpl. lia.
Qed.
End DashboardAfter.

(** X17, on the sample rows. *)
Lemma createOrder_counts_as_pending_witness :
  pendingOrders
    (result getDashboardStats (after (createOrder twoItemOrder twoItems) boot))
  = 2%nat.
Proof.
  destruct (createOrder_counts_as_pending twoItemOrder twoItems boot) as [P _].
  - vm_compute. reflexivity.
  - reflexivity.
  - etransitivity; [exact P|]. vm_compute. reflexivity.
Defined.

(** ** Identifiers in reachable states *)

Lemma uniqueKeys_NoDup {V : Type} (m : JsMap.t V) :
  JsMap.uniqueKeys m = true -> NoDup (JsMap.keys m).
Proof.
  unfold JsMap.keys. induction m as [|[k v] r IH]; simpl; [constructor|].
  intros U. apply andb_true_iff in U. destruct U as [U1 U2].
  apply negb_true_iff in U1. constructor; auto.
  intros I. apply in_map_iff in I. destruct I as [[k' v'] [E I]].
  simpl in E. subst k'. eapply JsMapFacts.has_false_not_In; eauto.
Qed.

Lemma keyed_ids {V : Type} (idOf : V -> string) (m : JsMap.t V) :
  JsMap.keyed idOf m = true -> map idOf (JsMap.values m) = JsMap.keys m.
Proof.
  unfold JsMap.keyed, JsMap.values, JsMap.keys.
  induction m as [|[k v] r IH]; simpl; auto.
  intros K. apply andb_true_iff in K. destruct K as [K1 K2].
  apply String.eqb_eq in K1. now rewrite K1, IH.
Qed.

Lemma wellKeyed_clients s :
  wellKeyed s = true ->
  JsMap.uniqueKeys (clients s) = true /\ JsMap.keyed Client.id (clients s) = true.
Proof. unfold wellKeyed. rewrite !andb_true_iff. tauto. Qed.

Section Identifiers.
Context {H : Host}.

(** X13: after the constructor and any session of calls, every record is
    stored under its own identifier: what [getClient], [getOrder] or
    [getDelivery] returns for an identifier carries that identifier, and no
    two clients of [getClients], orders of [getOrders] or deliveries of
    [getDeliveries] share one. *)
Theorem identifiers_are_keys (calls : list Call) :
  let w := after (session calls) boot in
  (forall id c, result (getClient id) w = Some c -> Client.id c = id)
  /\ (forall id v, result (getOrder id) w = Some v ->
        Order.id (OrderWithDetails.order v) = id)
  /\ (forall id v, result (getDelivery id) w = Some v ->
        Delivery.id (DeliveryWithDetails.delivery v) = id)
  /\ NoDup (map Client.id (result getClients w))
  /\ NoDup (map (fun v => Order.id (OrderWithDetails.order v))
                (result getOrders w))
  /\ NoDup (map (fun v => Delivery.id (DeliveryWithDetails.delivery v))
                (result getDeliveries w)).
Proof.
  intros w. pose proof (wellKeyed_reachable calls) as W. fold w in W.
  destruct (wellKeyed_clients _ W) as [UC KC].
  destruct (wellKeyed_orders _ W) as [UO KO].
  destruct (wellKeyed_deliveries _ W) as [UD KD].
  split; [|split; [|split; [|split; [|split]]]].
  - intros id c G. eapply wellKeyed_get; eauto.
  - intros id v G. unfold result in G. rewrite getOrder_run in G. cbn [fst] in G.
    destruct (JsMap.get (orders (store w)) id) as [o|] eqn:E; [|discriminate].
    injection G as <-. cbn. eapply wellKeyed_get; eauto.
  - intros id v G. unfold result in G. rewrite getDelivery_run in G.
    cbn [fst] in G.
    destruct (JsMap.get (deliveries (store w)) id) as [d|] eqn:E; [|discriminate].
    injection G as <-. cbn. eapply wellKeyed_get; eauto.
  - unfold result, getClients, this. cbn [fst].
    rewrite (keyed_ids _ _ KC). now apply uniqueKeys_NoDup.
  - rewrite <- (map_map OrderWithDetails.order Order.id).
    eapply Permutation_NoDup.
    + apply Permutation_map. apply getOrders_all.
    + rewrite (keyed_ids _ _ KO). now apply uniqueKeys_NoDup.
  - rewrite <- (map_map DeliveryWithDetails.delivery Delivery.id).
    eapply Permutation_NoDup.
    + apply Permutation_map. apply getDeliveries_all.
    + rewrite (keyed_ids _ _ KD). now apply uniqueKeys_NoDup.
Qed.
End Identifiers.

(** POST /api/clients on the concrete host: a body that does not validate,
    then one that does, read back by GET /api/clients/:id. *)
Example post_client_example :
  status (result (post_client (None, None)) boot) = 400
  /\ status (result (post_client (Some minimalClient, None)) boot) = 201
  /\ status (result (get_client "id-39")
                     (after (post_client (Some minimalClient, None)) boot))
     = 200.
Proof. repeat split; vm_compute; reflexivity. Qed.

(** ** Deliveries without a valid date *)

Lemma scheduledWithin_undated (today tomorrow : Z) (d : Delivery.t) :
  Delivery.scheduledAt d = None -> scheduledWithin today tomorrow d = false.
Proof. unfold scheduledWithin. now intros ->. Qed.

Section Undated.
Context {H : Host}.

(** Whatever the clock reads, a delivery without a valid date is not among
    today's. *)
Lemma undated_not_today (w : World) (d : Delivery.t) :
  Delivery.scheduledAt d = None ->
  ~ In d (map DeliveryWithDetails.delivery (result getTodayDeliveries w)).
Proof.
  intros U I. rewrite getTodayDeliveries_deliveries in I.
  apply filter_In in I. destruct I as [_ T].
  unfold scheduledToday in T. rewrite scheduledWithin_undated in T by exact U.
  discriminate.
Qed.

Lemma stored_in_getDeliveries (w : World) (id : string) (d : Delivery.t) :
  JsMap.get (deliveries (store w)) id = Some d ->
  In d (map DeliveryWithDetails.delivery (result getDeliveries w)).
Proof.
  intros G. eapply Permutation_in; [apply getDeliveries_all|].
  apply JsMapFacts.get_In in G. unfold JsMap.values.
  change d with (snd (id, d)). now apply in_map.
Qed.

(** X26: [updateDelivery] of a stored delivery leaves in [scheduledDate]
    what the patch carries under that key, and the stored date when the
    patch does not carry the key.  A patch that carries the key with the
    value [undefined] therefore clears the date: from then on, whatever the
    clock reads, the delivery is not among today's deliveries, while
    [getDelivery] and [getDeliveries] still return it. *)
Theorem scheduledDate_cleared (w : World) (id : string) (d0 : Delivery.t)
  (d : PatchDelivery.t) :
  JsMap.get (deliveries (store w)) id = Some d0 ->
  let w' := after (updateDelivery id d) w in
  exists d',
    result (updateDelivery id d) w = Some d'
    /\ JsMap.get (deliveries (store w')) id = Some d'
    /\ written (PatchDelivery.scheduledDate d) (Delivery.scheduledDate d0)
               (Delivery.scheduledDate d')
    /\ (PatchDelivery.scheduledDate d = Some None ->
        Delivery.scheduledDate d' = None
        /\ forall w'', ~ In d' (map DeliveryWithDetails.delivery
                                    (result getTodayDeliveries w'')))
    /\ In d' (map DeliveryWithDetails.delivery (result getDeliveries w'))
    /\ exists v, result (getDelivery id) w' = Some v
                 /\ DeliveryWithDetails.delivery v = d'.
Proof.
  intros G w'.
  pose proof (updateDelivery_run id d w) as R. rewrite G in R. cbv zeta in R.
  match type of R with
  | _ = (Some ?u, ?W) => set (d' := u) in *; set (W' := W) in *
  end.
  assert (Ew' : w' = W') by (unfold w', after; now rewrite R).
  assert (G' : JsMap.get (deliveries (store w')) id = Some d').
  { rewrite Ew'. unfold W'. cbn [store deliveries setDeliveries].
    apply JsMapFacts.get_set_same. }
  assert (K : written (PatchDelivery.scheduledDate d)
                      (Delivery.scheduledDate d0) (Delivery.scheduledDate d')).
  { unfold d', withDeliveredAt, spreadPatchDelivery, written.
    cbn [Delivery.scheduledDate].
    destruct (PatchDelivery.scheduledDate d); reflexivity. }
  exists d'.
  split; [unfold result; now rewrite R|].
  split; [exact G'|]. split; [exact K|]. split.
  - intros P. rewrite P in K. cbn [written] in K.
    split; [exact K|]. intros w''. apply undated_not_today.
    unfold Delivery.scheduledAt. now rewrite K.
  - split; [now apply (stored_in_getDeliveries w' id)|].
    exists (deliveryView (store w') d').
    unfold result. rewrite getDelivery_run. cbn [fst]. now rewrite G'.
Qed.
End Undated.

(** X26, on the sample rows: the first sample delivery, one of the two of
    the day the process started on, is marked delivered by such a patch;
    one delivery is left for that day. *)
Lemma scheduledDate_cleared_witness :
  List.length (result getTodayDeliveries boot) = 2%nat
  /\ List.length
       (result getTodayDeliveries
          (after (updateDelivery "id-35" deliveredWithoutDate) boot))
     = 1%nat
  /\ exists d',
       result (updateDelivery "id-35" deliveredWithoutDate) boot = Some d'
       /\ Delivery.scheduledDate d' = None
       /\ Delivery.status d' = "delivered".
Proof.
  split; [vm_compute; reflexivity|]. split; [vm_compute; reflexivity|].
  destruct (scheduledDate_cleared boot "id-35"
              (Delivery.mk "id-35" "id-28" (Some (dateAt 1793534400000))
                 (Some "14:00") "pending"
                 (Some "Av. Paulista, 1000 - Bela Vista, São Paulo/SP")
                 (Some "Carlos Oliveira") (Some "ABC-1234")
                 (Some "Entrar pela portaria de serviço") None)
              deliveredWithoutDate)
    as [d' [R [_ [_ [C _]]]]].
  - vm_compute. reflexivity.
  - exists d'. split; [exact R|]. split; [apply C; reflexivity|].
    assert (E : option_map Delivery.status
                  (result (updateDelivery "id-35" deliveredWithoutDate) boot)
                = Some "delivered") by (vm_compute; reflexivity).
    rewrite R in E. now injection E.
Defined.

(** ** The routes of deliveries and invoices *)

Section DateRoutes.
Context {H : Host} {Sch : Schemas} {J : JsonDates}.

Lemma patch_delivery_run id reqBody x w :
  patch_delivery id reqBody x w =
  (match result (updateDelivery id
                   (patchWithScheduledDate reqBody (dateOrUndefined x))) w with
   | Some d' => respond 200 (PlainDeliveryBody d')
   | None => respond 404 (ErrorBody "Delivery not found")
   end,
   after (updateDelivery id
            (patchWithScheduledDate reqBody (dateOrUndefined x))) w).
Proof.
  unfold patch_delivery. cbv zeta. rewrite run_bind.
  destruct (result (updateDelivery id _) w); reflexivity.
Qed.

(** X27: the routes that write deliveries validate nothing.  POST
    /api/deliveries answers 201 for every body and stores under the next
    identifier a pending delivery whose [scheduledDate] is what [new Date]
    makes of the value in the body, an Invalid Date when the body has none;
    GET /api/deliveries/:id then answers 200 with it.  PATCH
    /api/deliveries/:id answers 404 and changes nothing for an identifier
    that is not stored, and 200 with the updated delivery otherwise; the
    stored [scheduledDate] is then the date of the body when the body has a
    truthy value under the key, and [undefined] in every other case, also
    when the body says nothing about the date: the delivery is then no
    longer among today's deliveries. *)
Theorem delivery_routes (w : World) :
  (forall reqBody x,
     let w' := after (post_delivery reqBody x) w in
     exists dl,
       result (post_delivery reqBody x) w = respond 201 (PlainDeliveryBody dl)
       /\ Delivery.id dl = randomUUID_at (draws w)
       /\ Delivery.scheduledDate dl = Some (newDateOfKey x)
       /\ (x = None -> Delivery.scheduledAt dl = None)
       /\ Delivery.status dl = orElse (InsertDelivery.status reqBody) "pending"
       /\ Delivery.deliveredAt dl = None
       /\ exists v,
            result (get_delivery (Delivery.id dl)) w'
            = respond 200 (DeliveryBody v)
            /\ DeliveryWithDetails.delivery v = dl)
  /\ (forall id reqBody x,
        JsMap.get (deliveries (store w)) id = None ->
        patch_delivery id reqBody x w
        = (respond 404 (ErrorBody "Delivery not found"), w))
  /\ (forall id reqBody x d0,
        JsMap.get (deliveries (store w)) id = Some d0 ->
        let w' := after (patch_delivery id reqBody x) w in
        exists d',
          result (patch_delivery id reqBody x) w
          = respond 200 (PlainDeliveryBody d')
          /\ JsMap.get (deliveries (store w')) id = Some d'
          /\ Delivery.scheduledDate d' = dateOrUndefined x
          /\ (forall v, x = Some v -> truthy v = true ->
                Delivery.scheduledDate d' = Some (newDateFrom v))
          /\ (x = None \/ (exists v, x = Some v /\ truthy v = false) ->
              Delivery.scheduledDate d' = None
              /\ forall w'', ~ In d' (map DeliveryWithDetails.delivery
                                          (result getTodayDeliveries w'')))).
Proof.
  split; [|split].
  - intros reqBody x w'.
    exists (result (createDelivery
                      (insertWithScheduledDate reqBody (newDateOfKey x))) w).
    split; [reflexivity|]. split; [reflexivity|]. split; [reflexivity|].
    split; [now intros ->|]. split; [reflexivity|]. split; [reflexivity|].
    eexists. unfold result at 1. rewrite get_delivery_run. cbn [fst].
    unfold w', after, post_delivery, createDelivery. unfold_m.
    cbn [fst snd store deliveries setDeliveries Delivery.id].
    rewrite JsMapFacts.get_set_same. split; reflexivity.
  - intros id reqBody x G. rewrite patch_delivery_run.
    unfold result, after. rewrite updateDelivery_run, G. reflexivity.
  - intros id reqBody x d0 G w'.
    pose proof (updateDelivery_run id
                  (patchWithScheduledDate reqBody (dateOrUndefined x)) w) as R.
    rewrite G in R. cbv zeta in R.
    match type of R with
    | _ = (Some ?u, ?W) => set (d' := u) in *; set (W' := W) in *
    end.
    assert (Ew' : w' = W')
      by (unfold w', after at 1; rewrite patch_delivery_run; unfold after;
          now rewrite R).
    assert (D : Delivery.scheduledDate d' = dateOrUndefined x) by reflexivity.
    exists d'.
    split; [unfold result at 1; rewrite patch_delivery_run; unfold result;
            now rewrite R|].
    split; [rewrite Ew'; unfold W'; cbn [store deliveries setDeliveries];
            apply JsMapFacts.get_set_same|].
    split; [exact D|]. split.
    + intros v -> T. rewrite D. cbn [dateOrUndefined]. now rewrite T.
    + intros C.
      assert (N : Delivery.scheduledDate d' = None).
      { rewrite D. destruct C as [->|[v [-> T]]]; cbn [dateOrUndefined];
          [reflexivity|now rewrite T]. }
      split; [exact N|]. intros w''. apply undated_not_today.
      unfold Delivery.scheduledAt. now rewrite N.
Qed.

(** X28: POST /api/invoices validates nothing either: it answers 201 for
    every body, whether the order exists or not and whatever the body has
    under [issueDate], and stores the invoice under the next identifier
    with the date that [new Date] makes of that value, an Invalid Date when
    the body has none.  When the identifier is new, GET
    /api/orders/:orderId/invoices of its order lists it last; no order is
    touched. *)
Theorem post_invoice_route (reqBody : InsertInvoice.t)
  (x : option jsonValue) (w : World) :
  let w' := after (post_invoice reqBody x) w in
  exists i,
    result (post_invoice reqBody x) w = respond 201 (InvoiceBody i)
    /\ Invoice.id i = randomUUID_at (draws w)
    /\ Invoice.orderId i = InsertInvoice.orderId reqBody
    /\ Invoice.issueDate i = newDateOfKey x
    /\ (x = None -> getTime (Invoice.issueDate i) = None)
    /\ orders (store w') = orders (store w)
    /\ (JsMap.has (invoices (store w)) (randomUUID_at (draws w)) = false ->
        result (get_order_invoices (Invoice.orderId i)) w'
        = respond 200
            (InvoicesBody
               (result (getInvoices (Invoice.orderId i)) w ++ [i]))).
Proof.
  intros w'.
  exists (result (createInvoice
                    (insertWithIssueDate reqBody (newDateOfKey x))) w).
  split; [reflexivity|]. split; [reflexivity|]. split; [reflexivity|].
  split; [reflexivity|]. split; [now intros ->|]. split; [reflexivity|].
  intros F. unfold get_order_invoices, bind, ok, ret, result, getInvoices, this.
  cbn [fst]. do 2 f_equal.
  unfold w', after, post_invoice, createInvoice. unfold_m.
  cbn [fst snd store invoices setInvoices Invoice.orderId
       insertWithIssueDate InsertInvoice.orderId].
  rewrite set_absent by exact F.
  rewrite values_app_one, filter_app. cbn [filter Invoice.orderId].
  now rewrite String.eqb_refl.
Qed.
End DateRoutes.

(** X27, on the sample rows: PATCH /api/deliveries/:id of the first sample
    delivery with a body that only sets the status answers 200 and leaves
    the delivery without a date. *)
Lemma delivery_routes_witness :
  exists d',
    result (patch_delivery "id-35" (statusPatch "delivered") None) boot
    = respond 200 (PlainDeliveryBody d')
    /\ Delivery.scheduledDate d' = None.
Proof.
  destruct (delivery_routes boot) as [_ [_ P]].
  destruct (P "id-35" (statusPatch "delivered") None
              (Delivery.mk "id-35" "id-28" (Some (dateAt 1793534400000))
                 (Some "14:00") "pending"
                 (Some "Av. Paulista, 1000 - Bela Vista, São Paulo/SP")
                 (Some "Carlos Oliveira") (Some "ABC-1234")
                 (Some "Entrar pela portaria de serviço") None))
    as [d' [R [_ [_ [_ C]]]]].
  - vm_compute. reflexivity.
  - exists d'. split; [exact R|]. apply C. now left.
Defined.

(** X28, on the sample rows: an invoice posted without an issue date is
    stored with an Invalid Date and listed for its order. *)
Lemma post_invoice_route_witness :
  exists i,
    result (post_invoice bareInvoice None) boot = respond 201 (InvoiceBody i)
    /\ Invoice.issueDate i = invalidDate
    /\ result (get_order_invoices (Invoice.orderId i))
              (after (post_invoice bareInvoice None) boot)
       = respond 200
           (InvoicesBody (result (getInvoices (Invoice.orderId i)) boot ++ [i])).
Proof.
  destruct (post_invoice_route bareInvoice None boot)
    as [i [R [_ [_ [D [_ [_ L]]]]]]].
  exists i. split; [exact R|]. split; [exact D|].
  apply L. vm_compute. reflexivity.
Defined.

(** X22, on the sample rows: an array that holds an item and a [null] is
    answered with 500, and the order is stored all the same, under the
    display number 1004 and with the item. *)
Lemma post_order_route_witness :
  result (post_order (mkOrderBody (Some twoItemOrder)
            (ItemsArray (map Some [InsertOrderItem.mk "" "id-2" "30" "150.00" "4500.00"]
                         ++ None :: [])))) boot
  = respond 500 (ErrorBody "Failed to create order")
  /\ orderCounter (store (after (post_order (mkOrderBody (Some twoItemOrder)
            (ItemsArray (map Some [InsertOrderItem.mk "" "id-2" "30" "150.00" "4500.00"]
                         ++ None :: [])))) boot))
     = orderCounter (store boot) + 1.
Proof.
  destruct (post_order_route boot) as [_ [_ [N _]]].
  destruct (N twoItemOrder [InsertOrderItem.mk "" "id-2" "30" "150.00" "4500.00"] [])
    as [R [_ [_ [C _]]]].
  split; [exact R|exact C].
Defined.

(** PATCH /api/deliveries/:id on the concrete host with a body that only
    sets the status: the scheduled date of the first sample delivery is
    gone afterwards, and the dashboard counts one delivery for the day
    instead of two. *)
Example patch_delivery_example :
  todayDeliveries (result getDashboardStats boot) = 2%nat
  /\ status (result (patch_delivery "id-35" (statusPatch "delivered") None) boot)
     = 200
  /\ option_map Delivery.scheduledDate
       (JsMap.get (deliveries (store
          (after (patch_delivery "id-35" (statusPatch "delivered") None) boot)))
          "id-35")
     = Some None
  /\ todayDeliveries
       (result getDashboardStats
          (after (patch_delivery "id-35" (statusPatch "delivered") None) boot))
     = 1%nat.
Proof. repeat split; vm_compute; reflexivity. Qed.
